(** * sitemap_scanner: the sitemap resolver and its request cache

    A shallow embedding of [sitemap_scanner/scanner.go] (GetSitemap,
    getSitemapURLsFromRobots, processSitemap) and of the request handler of
    [cmd/get_sitemap/main.go] (handleGetSitemap with its go-cache store).

    Go strings are byte sequences: they are [string] here, one [ascii] per
    byte.  The pieces of the Go standard library that the scanner calls and
    whose behaviour decides what it returns ([net/url.Parse], the compiled
    regular expression, [strings.TrimSpace]) are written out below after Go
    1.24.5, the release the README names; the network, the clock and
    [encoding/xml] are operations of a [Runtime] the scanner is run in. *)

From Stdlib Require Import ZArith List Bool Ascii String Lia.
From stdpp Require Import base option list gmap strings.

Local Open Scope string_scope.
Local Open Scope list_scope.
Local Open Scope Z_scope.

(** ** Bytes and slices *)

Definition code (c : ascii) : Z := Z.of_N (N_of_ascii c).
Definition byte (n : Z) : ascii := ascii_of_N (Z.to_N n).

(** [len(s)], [s[i]], [s[i:j]], [s[i:]], [s[:j]] *)
Definition len (s : string) : Z := Z.of_nat (String.length s).
Definition at_ (s : string) (i : Z) : ascii :=
  match String.get (Z.to_nat i) s with Some c => c | None => Ascii.zero end.
Definition slice (s : string) (i j : Z) : string :=
  String.substring (Z.to_nat i) (Z.to_nat (j - i)) s.
Definition sliceFrom (s : string) (i : Z) : string := slice s i (len s).
Definition sliceTo (s : string) (j : Z) : string := slice s 0 j.

Definition inRange (lo hi : ascii) (c : ascii) : bool :=
  (code lo <=? code c) && (code c <=? code hi).

Definition isLetter (c : ascii) : bool := inRange "a" "z" c || inRange "A" "Z" c.
Definition isDigit (c : ascii) : bool := inRange "0" "9" c.

Definition oneOf (cs : string) (c : ascii) : bool :=
  existsb (Ascii.eqb c) (list_ascii_of_string cs).

(** ** package unicode/utf8 *)
Module go_utf8.

Definition RuneError : Z := 65533.
Definition RuneSelf : Z := 128.
Definition UTFMax : Z := 4.

(** The [first] table with its accept range: for a leading byte, the
    sequence length and the bounds of the second byte. *)
Definition first (b : Z) : option (Z * Z * Z) :=
  if b <? 194 then None                                  (* ASCII is handled before; 80..C1 invalid *)
  else if b <=? 223 then Some (2, 128, 191)              (* C2..DF *)
  else if b =? 224 then Some (3, 160, 191)               (* E0 *)
  else if b <=? 236 then Some (3, 128, 191)              (* E1..EC *)
  else if b =? 237 then Some (3, 128, 159)               (* ED *)
  else if b <=? 239 then Some (3, 128, 191)              (* EE..EF *)
  else if b =? 240 then Some (4, 144, 191)               (* F0 *)
  else if b <=? 243 then Some (4, 128, 191)              (* F1..F3 *)
  else if b =? 244 then Some (4, 128, 143)               (* F4 *)
  else None.

Definition cont (b : Z) : bool := (128 <=? b) && (b <=? 191).

Definition DecodeRuneInString (s : string) : Z * Z :=
  let n := len s in
  if n <? 1 then (RuneError, 0)
  else
    let s0 := code (at_ s 0) in
    if s0 <? RuneSelf then (s0, 1)
    else match first s0 with
         | None => (RuneError, 1)
         | Some (sz, lo, hi) =>
             if n <? sz then (RuneError, 1)
             else
               let s1 := code (at_ s 1) in
               if (s1 <? lo) || (hi <? s1) then (RuneError, 1)
               else if sz <=? 2 then
                 (Z.lor (Z.shiftl (Z.land s0 31) 6) (Z.land s1 63), 2)
               else
                 let s2 := code (at_ s 2) in
                 if negb (cont s2) then (RuneError, 1)
                 else if sz <=? 3 then
                   (Z.lor (Z.lor (Z.shiftl (Z.land s0 15) 12) (Z.shiftl (Z.land s1 63) 6))
                          (Z.land s2 63), 3)
                 else
                   let s3 := code (at_ s 3) in
                   if negb (cont s3) then (RuneError, 1)
                   else
                     (Z.lor (Z.lor (Z.lor (Z.shiftl (Z.land s0 7) 18)
                                          (Z.shiftl (Z.land s1 63) 12))
                                   (Z.shiftl (Z.land s2 63) 6))
                            (Z.land s3 63), 4)
         end.

Definition RuneStart (b : Z) : bool := negb (Z.land b 192 =? 128).

(** the backward scan [for start--; start >= lim; start--] of
    DecodeLastRuneInString; it runs at most [UTFMax - 1] times *)
Fixpoint backScan (n : nat) (s : string) (start lim : Z) : Z :=
  match n with
  | O => start
  | S n' =>
      if start <? lim then start
      else if RuneStart (code (at_ s start)) then start
      else backScan n' s (start - 1) lim
  end.

Definition DecodeLastRuneInString (s : string) : Z * Z :=
  let end_ := len s in
  if end_ =? 0 then (RuneError, 0)
  else
    let start := end_ - 1 in
    let r := code (at_ s start) in
    if r <? RuneSelf then (r, 1)
    else
      let lim := Z.max 0 (end_ - UTFMax) in
      let start := backScan 4 s (start - 1) lim in
      let start := Z.max 0 start in
      let '(r, size) := DecodeRuneInString (slice s start end_) in
      if negb (start + size =? end_) then (RuneError, 1) else (r, size).

End go_utf8.

(** ** package unicode *)
Module go_unicode.

Definition MaxLatin1 : Z := 255.

(** White_Space above Latin-1 *)
Definition White_Space_excludingLatin (r : Z) : bool :=
  (r =? 5760) || ((8192 <=? r) && (r <=? 8202)) || (r =? 8232) || (r =? 8233)
  || (r =? 8239) || (r =? 8287) || (r =? 12288).

Definition IsSpace (r : Z) : bool :=
  if r <=? MaxLatin1 then
    (r =? 9) || (r =? 10) || (r =? 11) || (r =? 12) || (r =? 13) || (r =? 32)
    || (r =? 133) || (r =? 160)
  else White_Space_excludingLatin r.

End go_unicode.

(** ** package strings *)
Module go_strings.

Definition HasPrefix (s prefix : string) : bool := String.prefix prefix s.

Definition HasSuffix (s suffix : string) : bool :=
  (len suffix <=? len s) && String.eqb (sliceFrom s (len s - len suffix)) suffix.

Fixpoint indexFrom (substr s : string) (i : Z) : Z :=
  if String.prefix substr s then i
  else match s with
       | EmptyString => -1
       | String _ s' => indexFrom substr s' (i + 1)
       end.

(** index of the first instance of [substr] in [s], or -1 *)
Definition Index (s substr : string) : Z := indexFrom substr s 0.

Fixpoint lastIndexFrom (substr s : string) (i : Z) : Z :=
  match s with
  | EmptyString => if String.prefix substr s then i else -1
  | String _ s' =>
      let r := lastIndexFrom substr s' (i + 1) in
      if 0 <=? r then r else if String.prefix substr s then i else -1
  end.

(** index of the last instance of [substr] in [s], or -1 *)
Definition LastIndex (s substr : string) : Z := lastIndexFrom substr s 0.

Definition Contains (s substr : string) : bool := 0 <=? Index s substr.

(** [Count(s, string(c))] for a one-byte separator *)
Fixpoint CountByte (s : string) (c : ascii) : Z :=
  match s with
  | EmptyString => 0
  | String d s' => (if Ascii.eqb d c then 1 else 0) + CountByte s' c
  end.

(** [before, after, found := Cut(s, sep)] *)
Definition Cut (s sep : string) : string * string * bool :=
  let i := Index s sep in
  if 0 <=? i then (sliceTo s i, sliceFrom s (i + len sep), true)
  else (s, "", false).

Definition lowerByte (c : ascii) : ascii :=
  if inRange "A" "Z" c then byte (code c + 32) else c.

(** [ToLower] on a string of ASCII bytes (the only use is on a scheme) *)
Fixpoint ToLower (s : string) : string :=
  match s with
  | EmptyString => EmptyString
  | String c s' => String (lowerByte c) (ToLower s')
  end.

Definition asciiSpace (c : Z) : bool :=
  (c =? 9) || (c =? 10) || (c =? 11) || (c =? 12) || (c =? 13) || (c =? 32).

(** [indexFunc(s, f, false)]: [for i, r := range s] stops at the first
    rune that does not satisfy [f] *)
Fixpoint indexFuncNot (n : nat) (f : Z -> bool) (s : string) (i : Z) : Z :=
  match n with
  | O => -1
  | S n' =>
      if len s <=? i then -1
      else
        let '(r, size) := go_utf8.DecodeRuneInString (sliceFrom s i) in
        if negb (f r) then i else indexFuncNot n' f s (i + size)
  end.

(** [lastIndexFunc(s, f, false)] *)
Fixpoint lastIndexFuncNot (n : nat) (f : Z -> bool) (s : string) (i : Z) : Z :=
  match n with
  | O => -1
  | S n' =>
      if i <=? 0 then -1
      else
        let '(r, size) := go_utf8.DecodeLastRuneInString (sliceTo s i) in
        let i := i - size in
        if negb (f r) then i else lastIndexFuncNot n' f s i
  end.

Definition TrimLeftFunc (s : string) (f : Z -> bool) : string :=
  let i := indexFuncNot (S (String.length s)) f s 0 in
  if i =? -1 then "" else sliceFrom s i.

Definition TrimRightFunc (s : string) (f : Z -> bool) : string :=
  let i := lastIndexFuncNot (S (String.length s)) f s (len s) in
  let i :=
    if (0 <=? i) && (go_utf8.RuneSelf <=? code (at_ s i))
    then i + snd (go_utf8.DecodeRuneInString (sliceFrom s i))
    else i + 1 in
  sliceTo s i.

Definition TrimFunc (s : string) (f : Z -> bool) : string :=
  TrimRightFunc (TrimLeftFunc s f) f.

(** The two ASCII loops of TrimSpace: each stops at the first byte that
    is not an ASCII space, or leaves for the Unicode path at a byte
    [>= utf8.RuneSelf]. *)
Inductive scan : Type := Stop (i : Z) | NonASCII (i : Z).

Fixpoint scanStart (n : nat) (s : string) (start : Z) : scan :=
  match n with
  | O => Stop start
  | S n' =>
      if len s <=? start then Stop start
      else
        let c := code (at_ s start) in
        if go_utf8.RuneSelf <=? c then NonASCII start
        else if negb (asciiSpace c) then Stop start
        else scanStart n' s (start + 1)
  end.

Fixpoint scanStop (n : nat) (s : string) (start stop : Z) : scan :=
  match n with
  | O => Stop stop
  | S n' =>
      if stop <=? start then Stop stop
      else
        let c := code (at_ s (stop - 1)) in
        if go_utf8.RuneSelf <=? c then NonASCII stop
        else if negb (asciiSpace c) then Stop stop
        else scanStop n' s start (stop - 1)
  end.

Definition TrimSpace (s : string) : string :=
  match scanStart (S (String.length s)) s 0 with
  | NonASCII start => TrimFunc (sliceFrom s start) go_unicode.IsSpace
  | Stop start =>
      match scanStop (S (String.length s)) s start (len s) with
      | NonASCII stop => TrimRightFunc (slice s start stop) go_unicode.IsSpace
      | Stop stop => slice s start stop
      end
  end.

End go_strings.


(** ** Errors

    An [error] value keeps the call that built it; [fmt_Errorf_d],
    [fmt_Errorf_q] and [fmt_Errorf_v] are [fmt.Errorf] with a format of one
    verb ([%d], [%q], [%v]). *)
Inductive error : Type :=
| errors_New (text : string)
| fmt_Errorf_d (format : string) (d : Z)
| fmt_Errorf_q (format : string) (q : string)
| fmt_Errorf_v (format : string) (err : error)
| url_Error (Op URL : string) (Err : error)
| url_EscapeError (s : string)
| url_InvalidHostError (s : string).

(** The [nil] of an [error] (or of a pointer): a Go result [(T, error)] is
    a pair whose second component is [nil] or [Some err]. *)
Definition nil {A : Type} : option A := None.

(** ** package regexp: [regexp.MustCompile(`(?i)sitemap:\s*(.+)`)]

    The matcher of this one expression, with the leftmost-first
    (backtracking-order) result the package returns.  Under [(?i)] a letter
    matches every rune of its simple-folding orbit, so [s] also matches
    U+017F and [k] U+212A; [\s] is [\t\n\f\r ] and [.] any rune but
    newline.  All bytes the expression tests are ASCII or start a rune, so
    the matcher works on bytes. *)
Module go_regexp.

Definition upperByte (c : ascii) : ascii :=
  if inRange "a" "z" c then byte (code c - 32) else c.

(** UTF-8 encodings of the runes a literal byte matches under [(?i)] *)
Definition foldOrbit (c : ascii) : list string :=
  if isLetter c then
    let lo := go_strings.lowerByte c in
    String lo "" :: String (upperByte c) ""
      :: (if Ascii.eqb lo "s" then [String (byte 197) (String (byte 191) "")]
          else if Ascii.eqb lo "k"
               then [String (byte 226) (String (byte 132) (String (byte 170) ""))]
               else [])
  else [String c ""].

Fixpoint stripPrefix (p s : string) : option string :=
  match p with
  | EmptyString => Some s
  | String a p' =>
      match s with
      | String b s' => if Ascii.eqb a b then stripPrefix p' s' else None
      | EmptyString => None
      end
  end.

Fixpoint stripAny (alts : list string) (s : string) : option string :=
  match alts with
  | [] => None
  | p :: alts' =>
      match stripPrefix p s with
      | Some r => Some r
      | None => stripAny alts' s
      end
  end.

(** a literal under [(?i)] at the head of [s]; the rest of [s] *)
Fixpoint foldLiteral (lit s : string) : option string :=
  match lit with
  | EmptyString => Some s
  | String c lit' =>
      match stripAny (foldOrbit c) s with
      | Some r => foldLiteral lit' r
      | None => None
      end
  end.

(** [\s]: tab, newline, form feed, carriage return, space *)
Definition perlSpace (c : ascii) : bool :=
  existsb (Ascii.eqb c) [byte 9; byte 10; byte 12; byte 13; byte 32].
Definition newline : ascii := byte 10.
Definition dot (c : ascii) : bool := negb (Ascii.eqb c newline).

Fixpoint takeDots (s : string) : string * string :=
  match s with
  | EmptyString => ("", "")
  | String c s' =>
      if dot c then let '(a, b) := takeDots s' in (String c a, b)
      else ("", s)
  end.

(** [(.+)] at the head of [s]: the capture and the rest *)
Definition dotPlus (s : string) : option (string * string) :=
  match s with
  | String c _ => if dot c then Some (takeDots s) else None
  | EmptyString => None
  end.

(** [\s*(.+)]: the star takes one more space first and gives it back
    when the rest does not match after it *)
Fixpoint spaces_dotPlus (s : string) : option (string * string) :=
  match s with
  | String c s' =>
      if perlSpace c then
        match spaces_dotPlus s' with
        | Some r => Some r
        | None => dotPlus s
        end
      else dotPlus s
  | EmptyString => None
  end.

(** a match that starts at the head of [s]: group 1 and the rest *)
Definition matchAt (s : string) : option (string * string) :=
  match foldLiteral "sitemap:" s with
  | Some r => spaces_dotPlus r
  | None => None
  end.

(** successive leftmost matches; a match is never empty, so the search
    resumes where the last one ended.  A match is [[whole; group1]]. *)
Fixpoint allMatches (n : nat) (s : string) : list (list string) :=
  match n with
  | O => []
  | S n' =>
      match matchAt s with
      | Some (group1, rest) =>
          [sliceTo s (len s - len rest); group1] :: allMatches n' rest
      | None =>
          match s with
          | String _ s' => allMatches n' s'
          | EmptyString => []
          end
      end
  end.

Definition FindAllStringSubmatch (s : string) : list (list string) :=
  allMatches (S (String.length s)) s.

End go_regexp.

(** ** package net/url: [url.Parse]

    Only [Scheme] and [Host] of the parsed URL are read by the scanner; the
    record keeps the fields [parse] assigns, without the raw forms
    [RawPath] and [RawFragment]. *)
Module net_url.

Record Userinfo : Type := mkUserinfo
  { username : string; password : string; passwordSet : bool }.

Record URL : Type := mkURL
  { Scheme : string;
    Opaque : string;
    User : option Userinfo;
    Host : string;
    Path : string;
    OmitHost : bool;
    ForceQuery : bool;
    RawQuery : string;
    Fragment : string }.

Definition new_URL : URL := mkURL "" "" None "" "" false false "" "".

Definition set_Scheme (v : string) (u : URL) : URL :=
  mkURL v (Opaque u) (User u) (Host u) (Path u) (OmitHost u) (ForceQuery u)
        (RawQuery u) (Fragment u).
Definition set_Opaque (v : string) (u : URL) : URL :=
  mkURL (Scheme u) v (User u) (Host u) (Path u) (OmitHost u) (ForceQuery u)
        (RawQuery u) (Fragment u).
Definition set_Authority (usr : option Userinfo) (h : string) (u : URL) : URL :=
  mkURL (Scheme u) (Opaque u) usr h (Path u) (OmitHost u) (ForceQuery u)
        (RawQuery u) (Fragment u).
Definition set_Path (v : string) (u : URL) : URL :=
  mkURL (Scheme u) (Opaque u) (User u) (Host u) v (OmitHost u) (ForceQuery u)
        (RawQuery u) (Fragment u).
Definition set_OmitHost (v : bool) (u : URL) : URL :=
  mkURL (Scheme u) (Opaque u) (User u) (Host u) (Path u) v (ForceQuery u)
        (RawQuery u) (Fragment u).
Definition set_ForceQuery (v : bool) (u : URL) : URL :=
  mkURL (Scheme u) (Opaque u) (User u) (Host u) (Path u) (OmitHost u) v
        (RawQuery u) (Fragment u).
Definition set_RawQuery (v : string) (u : URL) : URL :=
  mkURL (Scheme u) (Opaque u) (User u) (Host u) (Path u) (OmitHost u)
        (ForceQuery u) v (Fragment u).
Definition set_Fragment (v : string) (u : URL) : URL :=
  mkURL (Scheme u) (Opaque u) (User u) (Host u) (Path u) (OmitHost u)
        (ForceQuery u) (RawQuery u) v.

Inductive encoding : Type :=
| encodePath | encodePathSegment | encodeHost | encodeZone
| encodeUserPassword | encodeQueryComponent | encodeFragment.

Definition isHostMode (mode : encoding) : bool :=
  match mode with encodeHost | encodeZone => true | _ => false end.

Definition ishex (c : ascii) : bool :=
  isDigit c || inRange "a" "f" c || inRange "A" "F" c.

Definition unhex (c : ascii) : Z :=
  if isDigit c then code c - code "0"
  else if inRange "a" "f" c then code c - code "a" + 10
  else if inRange "A" "F" c then code c - code "A" + 10
  else 0.

Definition shouldEscape (c : ascii) (mode : encoding) : bool :=
  if isLetter c || isDigit c then false
  else if isHostMode mode && (oneOf "!$&'()*+,;=:[]<>" c || Ascii.eqb c (byte 34))
  then false
  else if oneOf "-_.~" c then false
  else if oneOf "$&+,/:;=?@" c
            && match mode with
               | encodePath | encodePathSegment | encodeUserPassword
               | encodeQueryComponent | encodeFragment => true
               | _ => false
               end
  then match mode with
       | encodePath => Ascii.eqb c "?"
       | encodePathSegment => oneOf "/;,?" c
       | encodeUserPassword => oneOf "@/?:" c
       | encodeQueryComponent => true
       | _ => false
       end
  else if match mode with encodeFragment => oneOf "!()*" c | _ => false end then false
  else true.

(** the first loop of [unescape]: count the [%] and check that they are
    well-formed; [None] when they are *)
Fixpoint unescape_check (mode : encoding) (s : string) : option error :=
  match s with
  | EmptyString => None
  | String c r =>
      if Ascii.eqb c "%" then
        match r with
        | String a (String b r') =>
            if negb (ishex a && ishex b) then Some (url_EscapeError (sliceTo s 3))
            else
              let esc := sliceTo s 3 in
              if match mode with encodeHost => true | _ => false end
                 && (unhex a <? 8) && negb (String.eqb esc "%25")
              then Some (url_EscapeError esc)
              else
                let v := byte (Z.lor (Z.shiftl (unhex a) 4) (unhex b)) in
                if match mode with encodeZone => true | _ => false end
                   && negb (String.eqb esc "%25") && negb (Ascii.eqb v " ")
                   && shouldEscape v encodeHost
                then Some (url_EscapeError esc)
                else unescape_check mode r'
        | _ => Some (url_EscapeError (sliceTo s 3))
        end
      else if isHostMode mode && (code c <? 128) && shouldEscape c encodeHost
      then Some (url_InvalidHostError (String c ""))
      else unescape_check mode r
  end.

(** the second loop of [unescape] *)
Fixpoint unescape_build (mode : encoding) (s : string) : string :=
  match s with
  | EmptyString => EmptyString
  | String c r =>
      if Ascii.eqb c "%" then
        match r with
        | String a (String b r') =>
            String (byte (Z.lor (Z.shiftl (unhex a) 4) (unhex b))) (unescape_build mode r')
        | _ => String c (unescape_build mode r)
        end
      else if Ascii.eqb c "+" then
        String (match mode with encodeQueryComponent => " "%char | _ => "+"%char end)
               (unescape_build mode r)
      else String c (unescape_build mode r)
  end.

Definition unescape (s : string) (mode : encoding) : error + string :=
  match unescape_check mode s with
  | Some err => inl err
  | None => inr (unescape_build mode s)
  end.

Definition stringContainsCTLByte (s : string) : bool :=
  existsb (fun b => (code b <? code " ") || (code b =? 127)) (list_ascii_of_string s).

(** [getScheme]: [(scheme, path, err)] *)
Fixpoint getScheme_from (rawURL s : string) (i : Z) : error + string * string :=
  match s with
  | EmptyString => inr ("", rawURL)
  | String c s' =>
      if isLetter c then getScheme_from rawURL s' (i + 1)
      else if isDigit c || oneOf "+-." c then
        if i =? 0 then inr ("", rawURL) else getScheme_from rawURL s' (i + 1)
      else if Ascii.eqb c ":" then
        if i =? 0 then inl (errors_New "missing protocol scheme")
        else inr (sliceTo rawURL i, sliceFrom rawURL (i + 1))
      else inr ("", rawURL)
  end.

Definition getScheme (rawURL : string) : error + string * string :=
  getScheme_from rawURL rawURL 0.

Definition validOptionalPort (port : string) : bool :=
  match port with
  | EmptyString => true
  | String c digits =>
      Ascii.eqb c ":" && forallb isDigit (list_ascii_of_string digits)
  end.

Definition validUserinfo (s : string) : bool :=
  forallb (fun r => isLetter r || isDigit r || oneOf "-._:~!$&'()*+,;=%@" r)
          (list_ascii_of_string s).

Definition parseHost (host : string) : error + string :=
  let plain (_ : unit) := unescape host encodeHost in
  if go_strings.HasPrefix host "[" then
    let i := go_strings.LastIndex host "]" in
    if i <? 0 then inl (errors_New "missing ']' in host")
    else
      let colonPort := sliceFrom host (i + 1) in
      if negb (validOptionalPort colonPort)
      then inl (fmt_Errorf_q "invalid port %q after host" colonPort)
      else
        let zone := go_strings.Index (sliceTo host i) "%25" in
        if 0 <=? zone then
          match unescape (sliceTo host zone) encodeHost with
          | inl err => inl err
          | inr host1 =>
              match unescape (slice host zone i) encodeZone with
              | inl err => inl err
              | inr host2 =>
                  match unescape (sliceFrom host i) encodeHost with
                  | inl err => inl err
                  | inr host3 => inr (host1 +:+ host2 +:+ host3)
                  end
              end
          end
        else plain tt
  else
    let i := go_strings.LastIndex host ":" in
    if negb (i =? -1) && negb (validOptionalPort (sliceFrom host i))
    then inl (fmt_Errorf_q "invalid port %q after host" (sliceFrom host i))
    else plain tt.

Definition parseAuthority (authority : string) : error + option Userinfo * string :=
  let i := go_strings.LastIndex authority "@" in
  match parseHost (if i <? 0 then authority else sliceFrom authority (i + 1)) with
  | inl err => inl err
  | inr host =>
      if i <? 0 then inr (None, host)
      else
        let userinfo := sliceTo authority i in
        if negb (validUserinfo userinfo)
        then inl (errors_New "net/url: invalid userinfo")
        else if negb (go_strings.Contains userinfo ":") then
          match unescape userinfo encodeUserPassword with
          | inl err => inl err
          | inr userinfo => inr (Some (mkUserinfo userinfo "" false), host)
          end
        else
          let '(username, password, _) := go_strings.Cut userinfo ":" in
          match unescape username encodeUserPassword with
          | inl err => inl err
          | inr username =>
              match unescape password encodeUserPassword with
              | inl err => inl err
              | inr password => inr (Some (mkUserinfo username password true), host)
              end
          end
  end.

Definition setPath (p : string) (u : URL) : error + URL :=
  match unescape p encodePath with
  | inl err => inl err
  | inr path => inr (set_Path path u)
  end.

Definition setFragment (f : string) (u : URL) : error + URL :=
  match unescape f encodeFragment with
  | inl err => inl err
  | inr frag => inr (set_Fragment frag u)
  end.

(** [parse(rawURL, viaRequest)] *)
Definition parse (rawURL : string) (viaRequest : bool) : error + URL :=
  if stringContainsCTLByte rawURL
  then inl (errors_New "net/url: invalid control character in URL")
  else if String.eqb rawURL "" && viaRequest then inl (errors_New "empty url")
  else
    let url := new_URL in
    if String.eqb rawURL "*" then inr (set_Path "*" url)
    else
      match getScheme rawURL with
      | inl err => inl err
      | inr (scheme, rest) =>
          let url := set_Scheme (go_strings.ToLower scheme) url in
          let '(url, rest) :=
            if go_strings.HasSuffix rest "?" && (go_strings.CountByte rest "?" =? 1)
            then (set_ForceQuery true url, sliceTo rest (len rest - 1))
            else let '(rest, query, _) := go_strings.Cut rest "?" in
                 (set_RawQuery query url, rest) in
          let rootless := negb (go_strings.HasPrefix rest "/") in
          if rootless && negb (String.eqb (Scheme url) "")
          then inr (set_Opaque rest url)
          else if rootless && viaRequest
          then inl (errors_New "invalid URI for request")
          else if rootless
                  && (let '(segment, _, _) := go_strings.Cut rest "/" in
                      go_strings.Contains segment ":")
          then inl (errors_New "first path segment in URL cannot contain colon")
          else
            let withAuthority :=
              (negb (String.eqb (Scheme url) "")
               || (negb viaRequest && negb (go_strings.HasPrefix rest "///")))
              && go_strings.HasPrefix rest "//" in
            let parsed : error + URL * string :=
              if withAuthority then
                let authority := sliceFrom rest 2 in
                let i := go_strings.Index authority "/" in
                let '(authority, rest) :=
                  if 0 <=? i then (sliceTo authority i, sliceFrom authority i)
                  else (authority, "") in
                match parseAuthority authority with
                | inl err => inl err
                | inr (user, host) => inr (set_Authority user host url, rest)
                end
              else if negb (String.eqb (Scheme url) "") && go_strings.HasPrefix rest "/"
              then inr (set_OmitHost true url, rest)
              else inr (url, rest) in
            match parsed with
            | inl err => inl err
            | inr (url, rest) => setPath rest url
            end
      end.

Definition Parse (rawURL : string) : error + URL :=
  let '(u, frag, _) := go_strings.Cut rawURL "#" in
  match parse u false with
  | inl err => inl (url_Error "parse" u err)
  | inr url =>
      if String.eqb frag "" then inr url
      else match setFragment frag url with
           | inl err => inl (url_Error "parse" rawURL err)
           | inr url => inr url
           end
  end.

End net_url.

(** ** package sitemapscanner: the data model *)

(** SitemapURL represents a URL entry in the sitemap *)
Record SitemapURL : Type := mkSitemapURL
  { SiteMapIndexURL : string;
    Location : string;
    LastModified : string;
    ChangeFreq : string;
    Priority : string }.

Definition set_SiteMapIndexURL (v : string) (u : SitemapURL) : SitemapURL :=
  mkSitemapURL v (Location u) (LastModified u) (ChangeFreq u) (Priority u).

(** Sitemap represents the sitemap structure ([urlset]) *)
Module urlset.
Record Sitemap : Type := mkSitemap { URLs : list SitemapURL }.
End urlset.

(** SitemapIndex represents a sitemap index file, SitemapIndexURL a
    sitemap reference in an index *)
Module index.
Record SitemapIndexURL : Type := mkSitemapIndexURL
  { Location : string; LastModified : string }.
Record SitemapIndex : Type := mkSitemapIndex { Sitemaps : list SitemapIndexURL }.
End index.

(** SitemapResult represents the final result *)
Record SitemapResult : Type := mkSitemapResult
  { URLs : list SitemapURL;
    Sitemaps : list string;
    Error : string }.

Definition set_Error (v : string) (r : SitemapResult) : SitemapResult :=
  mkSitemapResult (URLs r) (Sitemaps r) v.

(** [SitemapResult{}] *)
Definition zero_SitemapResult : SitemapResult := mkSitemapResult [] [] "".

(** ** The runtime

    What the scanner reaches outside the program.  [http_Get timeout url]
    is [(&http.Client{Timeout: timeout}).Get(url)] followed, on a reply, by
    [io.ReadAll(resp.Body)]; it may answer differently each time, so it
    threads the state of the world.  The two decoders are [xml.Unmarshal]
    into a [SitemapIndex] and into a [Sitemap]; [time_Now] is
    [time.Now().UnixNano()]. *)
Inductive Response : Type :=
| GetError (err : error)
| Reply (StatusCode : Z) (Body : error + string).

Class Runtime : Type :=
  { World : Type;
    http_Get : Z -> string -> World -> Response * World;
    xml_Unmarshal_SitemapIndex : string -> error + index.SitemapIndex;
    xml_Unmarshal_Sitemap : string -> error + urlset.Sitemap;
    time_Now : World -> Z }.

Definition http_StatusOK : Z := 200.
Definition time_Second : Z := 1000000000.
Definition time_Minute : Z := 60 * time_Second.
Definition time_Hour : Z := 60 * time_Minute.

Section Network.
Context `{Runtime}.

(** The network as the scanner sees it: the world, and the requests
    sent so far with their answers (a record kept for the statements;
    the program does not read it). *)
Record Net : Type := mkNet
  { world : World;
    requests : list (string * Response) }.

(** A computation on the network.  [None] is a recursion that was cut
    off: [processSitemap] below counts its nesting down. *)
Definition M (A : Type) : Type := Net -> option (A * Net).

Definition ret {A : Type} (a : A) : M A := fun s => Some (a, s).

Definition bind {A B : Type} (m : M A) (k : A -> M B) : M B :=
  fun s => match m s with
           | Some (a, s') => k a s'
           | None => None
           end.

Definition client_Get (timeout : Z) (url : string) : M Response :=
  fun s =>
    let '(resp, w) := http_Get timeout url (world s) in
    Some (resp, mkNet w (requests s ++ [(url, resp)])).

End Network.

Arguments Net {_}.
Arguments M {_} A.

Notation "'let*' x := m 'in' k" := (bind m (fun x => k))
  (at level 10, x pattern, m at level 100, k at level 200, only parsing).

Section Scanner.
Context `{Runtime}.

(** getSitemapURLsFromRobots fetches robots.txt and extracts sitemap URLs *)
Definition getSitemapURLsFromRobots (baseURL : string)
  : M (list string * option error) :=
  let robotsURL := baseURL +:+ "/robots.txt" in
  let* resp := client_Get (10 * time_Second) robotsURL in
  match resp with
  | GetError err => ret ([], Some err)
  | Reply StatusCode Body =>
      if negb (StatusCode =? http_StatusOK)
      then ret ([], Some (fmt_Errorf_d "robots.txt not found: %d" StatusCode))
      else
        match Body with
        | inl err => ret ([], Some err)
        | inr body =>
            (* Extract sitemap URLs using regex *)
            let matches := go_regexp.FindAllStringSubmatch body in
            let sitemapURLs :=
              fold_left
                (fun sitemapURLs match_ =>
                   if (1 <? Z.of_nat (length match_))%Z then
                     let sitemapURL := go_strings.TrimSpace (nth 1 match_ "") in
                     sitemapURLs ++ [sitemapURL]
                   else sitemapURLs)
                matches [] in
            ret (sitemapURLs, nil)
        end
  end.

(** [for _, indexSitemap := range sitemapIndex.Sitemaps] of processSitemap,
    over the function called in its body *)
Fixpoint rangeSitemaps (processSitemap : string -> M (list SitemapURL * option error))
    (sitemaps : list index.SitemapIndexURL) (allURLs : list SitemapURL)
  : M (list SitemapURL) :=
  match sitemaps with
  | [] => ret allURLs
  | indexSitemap :: sitemaps' =>
      let* (urls, err) := processSitemap (index.Location indexSitemap) in
      let allURLs :=
        match err with
        | None => allURLs ++ urls
        | Some _ => allURLs
        end in
      rangeSitemaps processSitemap sitemaps' allURLs
  end.

(** processSitemap fetches and parses a sitemap XML file.  [depth] bounds
    the nesting of the recursive calls, which the Go function does not. *)
Fixpoint processSitemap (depth : nat) (sitemapURL : string)
  : M (list SitemapURL * option error) :=
  match depth with
  | O => fun _ => None
  | S depth' =>
      let* resp := client_Get (30 * time_Second) sitemapURL in
      match resp with
      | GetError err => ret ([], Some err)
      | Reply StatusCode Body =>
          if negb (StatusCode =? http_StatusOK)
          then ret ([], Some (fmt_Errorf_d "sitemap not found: %d" StatusCode))
          else
            match Body with
            | inl err => ret ([], Some err)
            | inr body =>
                (* Try to parse as regular sitemap *)
                let regular :=
                  match xml_Unmarshal_Sitemap body with
                  | inl err =>
                      ret ([], Some (fmt_Errorf_v "failed to parse sitemap XML: %v" err))
                  | inr sitemap =>
                      ret (map (set_SiteMapIndexURL sitemapURL) (urlset.URLs sitemap),
                           nil)
                  end in
                (* Try to parse as sitemap index first *)
                match xml_Unmarshal_SitemapIndex body with
                | inr sitemapIndex =>
                    if (0 <? Z.of_nat (length (index.Sitemaps sitemapIndex)))%Z
                    then
                      (* This is a sitemap index, process each sitemap *)
                      let* allURLs := rangeSitemaps (processSitemap depth')
                                        (index.Sitemaps sitemapIndex) [] in
                      ret (allURLs, nil)
                    else regular
                | inl _ => regular
                end
            end
      end
  end.

(** [for _, sitemapURL := range sitemapURLs] of GetSitemap *)
Fixpoint rangeSitemapURLs (processSitemap : string -> M (list SitemapURL * option error))
    (sitemapURLs : list string) (allURLs : list SitemapURL) (validSitemaps : list string)
  : M (list SitemapURL * list string) :=
  match sitemapURLs with
  | [] => ret (allURLs, validSitemaps)
  | sitemapURL :: sitemapURLs' =>
      let* (urls, err) := processSitemap sitemapURL in
      let '(allURLs, validSitemaps) :=
        match err with
        | None =>
            if (0 <? Z.of_nat (length urls))%Z
            then (allURLs ++ urls, validSitemaps ++ [sitemapURL])
            else (allURLs, validSitemaps)
        | Some _ => (allURLs, validSitemaps)
        end in
      rangeSitemapURLs processSitemap sitemapURLs' allURLs validSitemaps
  end.

(** GetSitemap retrieves sitemap data by first checking robots.txt *)
Definition GetSitemap (depth : nat) (targetURL : string)
  : M (SitemapResult * option error) :=
  (* Parse the target URL *)
  match net_url.Parse targetURL with
  | inl err => ret (zero_SitemapResult, Some err)
  | inr parsedURL =>
      (* Ensure we have a scheme *)
      let parsedURL :=
        if String.eqb (net_url.Scheme parsedURL) ""
        then net_url.set_Scheme "https" parsedURL else parsedURL in
      let baseURL := net_url.Scheme parsedURL +:+ "://" +:+ net_url.Host parsedURL in
      (* Get sitemap URLs from robots.txt *)
      let* (sitemapURLs, err) := getSitemapURLsFromRobots baseURL in
      let sitemapURLs :=
        if match err with Some _ => true | None => false end
           || (Z.of_nat (length sitemapURLs) =? 0)%Z
        then (* Fallback to common sitemap locations *)
          [ baseURL +:+ "/sitemap.xml";
            baseURL +:+ "/sitemap_index.xml";
            baseURL +:+ "/sitemaps.xml" ]
        else sitemapURLs in
      (* Process each sitemap URL *)
      let* (allURLs, validSitemaps) :=
        rangeSitemapURLs (processSitemap depth) sitemapURLs [] [] in
      let result := mkSitemapResult allURLs validSitemaps "" in
      let result :=
        if (Z.of_nat (length allURLs) =? 0)%Z
        then set_Error "No sitemap data found" result else result in
      ret (result, nil)
  end.

End Scanner.

(** ** package cache (patrickmn/go-cache), as far as the handler uses it

    [now] is [time.Now().UnixNano()] at the call. *)
Module go_cache.

Record Item : Type := mkItem { Object : SitemapResult; Expiration : Z }.

Record Cache : Type := mkCache
  { defaultExpiration : Z;
    items : gmap string Item }.

Definition NoExpiration : Z := -1.
Definition DefaultExpiration : Z := 0.

(** [New(defaultExpiration, cleanupInterval)]; the janitor it starts
    calls [DeleteExpired] every [cleanupInterval]. *)
Definition New (defaultExpiration cleanupInterval : Z) : Cache :=
  mkCache (if defaultExpiration =? 0 then -1 else defaultExpiration) ∅.

Definition Expired (now : Z) (item : Item) : bool :=
  (0 <? Expiration item) && (Expiration item <? now).

Definition Set_ (now : Z) (k : string) (x : SitemapResult) (d : Z) (c : Cache) : Cache :=
  let d := if d =? DefaultExpiration then defaultExpiration c else d in
  let e := if 0 <? d then now + d else 0 in
  mkCache (defaultExpiration c) (<[k := mkItem x e]> (items c)).

Definition Get (now : Z) (k : string) (c : Cache) : option SitemapResult :=
  match items c !! k with
  | None => None
  | Some item => if Expired now item then None else Some (Object item)
  end.

Definition Delete (k : string) (c : Cache) : Cache :=
  mkCache (defaultExpiration c) (delete k (items c)).

Definition DeleteExpired (now : Z) (c : Cache) : Cache :=
  mkCache (defaultExpiration c) (filter (fun kv => Expired now kv.2 = false) (items c)).

End go_cache.

(** ** package main: the request handler *)

Record SitemapRequest : Type := mkSitemapRequest
  { URL : string; RefreshCache : bool }.

(** A request as the handler reads it: its method, and what
    [json.NewDecoder(r.Body).Decode(&req)] makes of its body. *)
Record Request : Type := mkRequest
  { Method : string;
    Body : error + SitemapRequest }.

(** What [apiResponse] writes: the status and the JSON message, either
    [{"error": ...}] or [{"sitemap": ...}]. *)
Inductive Message : Type :=
| error_text (text : string)
| error_of (err : error)
| sitemap (data : SitemapResult).

Definition apiResponse (status : Z) (message : Message) : Z * Message :=
  (status, message).

Definition http_MethodPost : string := "POST".
Definition http_StatusBadRequest : Z := 400.
Definition http_StatusMethodNotAllowed : Z := 405.
Definition http_StatusInternalServerError : Z := 500.

(** [sitemapCache = cache.New(24*time.Hour, 30*time.Minute)] of [main] *)
Definition sitemapCache_init : go_cache.Cache :=
  go_cache.New (24 * time_Hour) (30 * time_Minute).

Section Handler.
Context `{Runtime}.

Definition now : M Z := fun s => Some (time_Now (world s), s).

(** handleGetSitemap, on the package variable [sitemapCache]; the log
    lines are left out. *)
Definition handleGetSitemap (depth : nat) (r : Request) (sitemapCache : go_cache.Cache)
  : M (Z * Message * go_cache.Cache) :=
  (* Only allow POST requests *)
  if negb (String.eqb (Method r) http_MethodPost)
  then ret (apiResponse http_StatusMethodNotAllowed (error_text "Method not allowed"),
            sitemapCache)
  else
    (* Parse JSON request *)
    match Body r with
    | inl _ =>
        ret (apiResponse http_StatusBadRequest (error_text "Invalid JSON"), sitemapCache)
    | inr req =>
        (* Validate URL *)
        if String.eqb (URL req) ""
        then ret (apiResponse http_StatusBadRequest (error_text "URL is required"),
                  sitemapCache)
        else
          let sitemapCache :=
            if RefreshCache req
            then (* Remove from cache *) go_cache.Delete (URL req) sitemapCache
            else sitemapCache in
          (* Check cache first *)
          let* t := now in
          match go_cache.Get t (URL req) sitemapCache with
          | Some cachedData =>
              ret (apiResponse http_StatusOK (sitemap cachedData), sitemapCache)
          | None =>
              (* Cache miss - fetch sitemap *)
              let* (sitemapData, err) := GetSitemap depth (URL req) in
              match err with
              | Some err =>
                  ret (apiResponse http_StatusInternalServerError (error_of err),
                       sitemapCache)
              | None =>
                  (* Store in cache for 24 hours *)
                  let* t := now in
                  let sitemapCache :=
                    go_cache.Set_ t (URL req) sitemapData go_cache.DefaultExpiration
                                  sitemapCache in
                  (* Return success response *)
                  ret (apiResponse http_StatusOK (sitemap sitemapData), sitemapCache)
              end
          end
    end.

End Handler.

(** a well-formed request for [url] *)
Definition post (url : string) (refresh : bool) : Request :=
  mkRequest http_MethodPost (inr (mkSitemapRequest url refresh)).

(** the cache after the janitor ran at the given times *)
Definition swept (times : list Z) (c : go_cache.Cache) : go_cache.Cache :=
  fold_left (fun c t => go_cache.DeleteExpired t c) times c.

(** ** Vocabulary of the statements *)

(** What one call of processSitemap returns: [(urls, err)]. *)
Definition Outcome : Type := list SitemapURL * option error.

(** The entries an outcome adds to its parent: those of a call that
    returned no error. *)
Definition contribution (o : Outcome) : list SitemapURL :=
  match o with
  | (urls, None) => urls
  | (_, Some _) => []
  end.

(** A candidate succeeds when its call returns no error and at least one
    entry. *)
Definition succeeded (o : Outcome) : bool :=
  match o with
  | (urls, None) => negb (Nat.eqb (length urls) 0)
  | (_, Some _) => false
  end.

(** the candidates a run keeps, each with its outcome *)
Definition kept (candidates : list string) (os : list Outcome)
  : list (string * Outcome) :=
  filter (fun co => succeeded co.2 = true) (zip candidates os).

(** [{authority}/sitemap.xml], [{authority}/sitemap_index.xml],
    [{authority}/sitemaps.xml] *)
Definition fallback (authority : string) : list string :=
  [authority +:+ "/sitemap.xml"; authority +:+ "/sitemap_index.xml";
   authority +:+ "/sitemaps.xml"].

(** the candidate list: what robots.txt declares, or the fallback list when
    the resolver returned an error or nothing *)
Definition candidates (authority : string) (robots : list string * option error)
  : list string :=
  match robots with
  | (_, Some _) => fallback authority
  | ([], None) => fallback authority
  | (declared, None) => declared
  end.

(** the values the expression captures in a body, trimmed *)
Definition valuesOf (body : string) : list string :=
  map (fun match_ => go_strings.TrimSpace (nth 1 match_ ""))
      (go_regexp.FindAllStringSubmatch body).

(** what the resolver makes of the answer to its request *)
Definition robotsOutcome (resp : Response) : list string * option error :=
  match resp with
  | GetError err => ([], Some err)
  | Reply StatusCode Body =>
      if StatusCode =? http_StatusOK then
        match Body with
        | inl err => ([], Some err)
        | inr body => (valuesOf body, None)
        end
      else ([], Some (fmt_Errorf_d "robots.txt not found: %d" StatusCode))
  end.

(** the authority [scheme://host] of a parsed target, the scheme [https]
    when the target has none *)
Definition authority (u : net_url.URL) : string :=
  (if String.eqb (net_url.Scheme u) "" then "https" else net_url.Scheme u)
    +:+ "://" +:+ net_url.Host u.

(** the result built from the merged entries and the candidates that
    succeeded *)
Definition resultOf (allURLs : list SitemapURL) (validSitemaps : list string)
  : SitemapResult :=
  mkSitemapResult allURLs validSitemaps
    (match allURLs with [] => "No sitemap data found" | _ => "" end).

(** a reply that makes getSitemapURLsFromRobots return before the scan *)
Definition failedFetch (resp : Response) : Prop :=
  match resp with
  | GetError _ => True
  | Reply StatusCode Body => StatusCode <> http_StatusOK \/ exists err, Body = inl err
  end.

Section Vocabulary.
Context `{Runtime}.

(** resolving the locations one after the other, each in the network
    the one before left, and keeping every outcome *)
Fixpoint resolveEach (resolve : string -> M Outcome) (locs : list string)
  : M (list Outcome) :=
  match locs with
  | [] => ret []
  | loc :: locs' =>
      let* o := resolve loc in
      let* os := resolveEach resolve locs' in
      ret (o :: os)
  end.

(** GetSitemap from a given candidate list on: its loop over the list
    and the result it builds *)
Definition aggregate (depth : nat) (sitemapURLs : list string)
  : M (SitemapResult * option error) :=
  let* (allURLs, validSitemaps) :=
    rangeSitemapURLs (processSitemap depth) sitemapURLs [] [] in
  ret (resultOf allURLs validSitemaps, nil).

(** the network after the request for [robots.txt] was answered *)
Definition afterRobots (authority : string) (s : Net) : Response * Net :=
  let '(resp, w) := http_Get (10 * time_Second) (authority +:+ "/robots.txt") (world s) in
  (resp, mkNet w (requests s ++ [(authority +:+ "/robots.txt", resp)])).

(** the body classifies as an index: it decodes as one, with entries *)
Definition asIndex (body : string) : option (list string) :=
  match xml_Unmarshal_SitemapIndex body with
  | inr si =>
      match index.Sitemaps si with
      | [] => None
      | _ => Some (map index.Location (index.Sitemaps si))
      end
  | inl _ => None
  end.

(** what one call of processSitemap does with the answer to its request *)
Definition classify (depth : nat) (sitemapURL : string) (resp : Response)
  : M Outcome :=
  match resp with
  | GetError err => ret ([], Some err)
  | Reply StatusCode Body =>
      if StatusCode =? http_StatusOK then
        match Body with
        | inl err => ret ([], Some err)
        | inr body =>
            match asIndex body with
            | Some locs =>
                fun s1 =>
                  match resolveEach (processSitemap depth) locs s1 with
                  | Some (os, s2) => Some ((concat (map contribution os), nil), s2)
                  | None => None
                  end
            | None =>
                match xml_Unmarshal_Sitemap body with
                | inl err =>
                    ret ([], Some (fmt_Errorf_v "failed to parse sitemap XML: %v" err))
                | inr sm =>
                    ret (map (set_SiteMapIndexURL sitemapURL) (urlset.URLs sm), nil)
                end
            end
        end
      else ret ([], Some (fmt_Errorf_d "sitemap not found: %d" StatusCode))
  end.

(** the body is handled as a leaf sitemap with these entries *)
Definition asLeaf (body : string) (entries : list SitemapURL) : Prop :=
  asIndex body = None /\ xml_Unmarshal_Sitemap body = inr (urlset.mkSitemap entries).

(** What a URL answers, whenever and with whatever timeout it is asked. *)
Definition ServesIndex (u : string) (locs : list string) : Prop :=
  forall t w, exists body w',
    http_Get t u w = (Reply http_StatusOK (inr body), w') /\ asIndex body = Some locs.

Definition ServesLeaf (u : string) (entries : list SitemapURL) : Prop :=
  forall t w, exists body w',
    http_Get t u w = (Reply http_StatusOK (inr body), w') /\ asLeaf body entries.

Definition Unreachable (u : string) : Prop :=
  forall t w, failedFetch (http_Get t u w).1.

(** a chain of [n] nested indexes above a leaf *)
Inductive Chain : nat -> string -> string -> list SitemapURL -> Prop :=
| chain_leaf u entries : ServesLeaf u entries -> Chain O u u entries
| chain_index n u v leaf entries :
    ServesIndex u [v] -> Chain n v leaf entries -> Chain (S n) u leaf entries.

(** every index entry points to a document of smaller rank: the
    reference graph has no cycle *)
Definition Ranked (rank : string -> nat) : Prop :=
  forall t u w body w' locs,
    http_Get t u w = (Reply http_StatusOK (inr body), w') ->
    asIndex body = Some locs ->
    forall loc, In loc locs -> (rank loc < rank u)%nat.

(** [sent] are the requests made from [s] to [s'], in order *)
Definition extends (s s' : Net) (sent : list (string * Response)) : Prop :=
  requests s' = requests s ++ sent.

(** [e] was decoded from a leaf document that one of the [sent]
    requests fetched, and carries the URL of that request *)
Definition fromLeaf (sent : list (string * Response)) (e : SitemapURL) : Prop :=
  exists leaf body entries e0,
    In (leaf, Reply http_StatusOK (inr body)) sent /\
    asLeaf body entries /\ In e0 entries /\
    e = set_SiteMapIndexURL leaf e0.

End Vocabulary.

(** ** The robots.txt file, line by line (the words of the specification) *)
Module Robots.

Definition token : string := "sitemap:".

(** number of places of the body where the token stands *)
Fixpoint occurrences (body : string) : nat :=
  ((match go_regexp.foldLiteral token body with Some _ => 1 | None => 0 end)
   + match body with
     | String _ body' => occurrences body'
     | EmptyString => 0
     end)%nat.

(** what follows the first token of a line *)
Fixpoint afterToken (line : string) : option string :=
  match go_regexp.foldLiteral token line with
  | Some r => Some r
  | None =>
      match line with
      | String _ line' => afterToken line'
      | EmptyString => None
      end
  end.

Fixpoint dropSpaces (s : string) : string :=
  match s with
  | String c s' => if go_regexp.perlSpace c then dropSpaces s' else s
  | EmptyString => EmptyString
  end.

(** the value a line declares: the text after its first token and the
    blanks that follow, trimmed *)
Definition declared (line : string) : option string :=
  match afterToken line with
  | Some r => Some (go_strings.TrimSpace (dropSpaces r))
  | None => None
  end.

Definition noNewline (s : string) : Prop :=
  Forall (fun c => c <> go_regexp.newline) (list_ascii_of_string s).

(** a line without a token, or with a value after its first token *)
Definition wellFormed (line : string) : Prop :=
  noNewline line /\
  match afterToken line with
  | Some r => dropSpaces r <> ""
  | None => True
  end.

Definition LF : string := String go_regexp.newline "".

(** what may follow a line: the end of the file, or a newline *)
Definition lineEnd (t : string) : Prop :=
  t = "" \/ exists t', t = String go_regexp.newline t'.

(** the lines joined by newlines *)
Definition unlines (lines : list string) : string := String.concat LF lines.

(** [v] stands in [s], as one piece *)
Definition within (v s : string) : Prop := exists a b, s = a +:+ v +:+ b.

End Robots.

(** ** A runtime to run the scanner in: a static web

    The pages of a fixed site; the world is the clock, and every request
    takes [latency].  The decoders read the two document shapes
    [<sitemapindex><sitemap><loc>..</loc></sitemap>..</sitemapindex>] and
    [<urlset><url><loc>..</loc></url>..</urlset>] written without white
    space or entities, on which encoding/xml gives the same structures;
    any other body is an error to them. *)
Module Example.

Definition Site : Type := list (string * (Z * string)).

Fixpoint page (site : Site) (url : string) : option (Z * string) :=
  match site with
  | [] => None
  | (u, p) :: site' => if String.eqb u url then Some p else page site' url
  end.

Definition latency : Z := 50 * 1000000.

Definition get (site : Site) (timeout : Z) (url : string) (clock : Z) : Response * Z :=
  match page site url with
  | Some (status, body) => (Reply status (inr body), clock + latency)
  | None => (GetError (errors_New "dial tcp: lookup: no such host"), clock + latency)
  end.

Definition plainText (s : string) : bool :=
  forallb (fun c => negb (oneOf "<&" c)) (list_ascii_of_string s).

(** the [loc] texts of a run of [open .. close] elements, and the rest *)
Fixpoint elements (n : nat) (open close s : string) : option (list string * string) :=
  match n with
  | O => None
  | S n' =>
      match go_regexp.stripPrefix open s with
      | None => Some ([], s)
      | Some r =>
          let i := go_strings.Index r close in
          if (i <? 0) || negb (plainText (sliceTo r i)) then None
          else
            match elements n' open close (sliceFrom r (i + len close)) with
            | Some (locs, rest) => Some (sliceTo r i :: locs, rest)
            | None => None
            end
      end
  end.

Definition document (root item : string) (s : string) : error + list string :=
  let bad := inl (errors_New ("expected element type <" +:+ root +:+ ">")) in
  match go_regexp.stripPrefix ("<" +:+ root +:+ ">") s with
  | None => bad
  | Some r =>
      match elements (S (String.length r)) ("<" +:+ item +:+ "><loc>")
                     ("</loc></" +:+ item +:+ ">") r with
      | Some (locs, rest) =>
          if String.eqb rest ("</" +:+ root +:+ ">") then inr locs else bad
      | None => bad
      end
  end.

Definition decodeIndex (body : string) : error + index.SitemapIndex :=
  match document "sitemapindex" "sitemap" body with
  | inl err => inl err
  | inr locs => inr (index.mkSitemapIndex (map (fun l => index.mkSitemapIndexURL l "") locs))
  end.

Definition decodeSitemap (body : string) : error + urlset.Sitemap :=
  match document "urlset" "url" body with
  | inl err => inl err
  | inr locs => inr (urlset.mkSitemap (map (fun l => mkSitemapURL "" l "" "" "") locs))
  end.

Definition staticWeb (site : Site) : Runtime :=
  {| World := Z;
     http_Get := get site;
     xml_Unmarshal_SitemapIndex := decodeIndex;
     xml_Unmarshal_Sitemap := decodeSitemap;
     time_Now := fun clock => clock |}.

Definition start (site : Site) : @Net (staticWeb site) := @mkNet (staticWeb site) 0 [].

Definition indexDoc (locs : list string) : string :=
  "<sitemapindex>"
    +:+ String.concat "" (map (fun l => "<sitemap><loc>" +:+ l +:+ "</loc></sitemap>") locs)
    +:+ "</sitemapindex>".

Definition urlsetDoc (locs : list string) : string :=
  "<urlset>"
    +:+ String.concat "" (map (fun l => "<url><loc>" +:+ l +:+ "</loc></url>") locs)
    +:+ "</urlset>".

(** nothing answers *)
Definition deadWeb : Site := [].

(** root index -> child index -> leaf with three entries *)
Definition twoLevel : Site :=
  [ ("https://a.example/robots.txt",
      (200, "User-agent: *" +:+ Robots.LF +:+ "Sitemap: https://a.example/root.xml" +:+ Robots.LF));
    ("https://a.example/root.xml", (200, indexDoc ["https://a.example/child.xml"]));
    ("https://a.example/child.xml", (200, indexDoc ["https://a.example/leaf.xml"]));
    ("https://a.example/leaf.xml",
      (200, urlsetDoc ["https://a.example/1"; "https://a.example/2"; "https://a.example/3"])) ].

(** an index that lists itself, and two that list each other *)
Definition cyclic : Site :=
  [ ("https://a.example/self.xml", (200, indexDoc ["https://a.example/self.xml"]));
    ("https://a.example/ping.xml", (200, indexDoc ["https://a.example/pong.xml"]));
    ("https://a.example/pong.xml", (200, indexDoc ["https://a.example/ping.xml"])) ].

(** an index whose children do not answer *)
Definition orphaned : Site :=
  [ ("https://a.example/robots.txt",
      (200, "Sitemap: https://a.example/index.xml"));
    ("https://a.example/index.xml",
      (200, indexDoc ["https://a.example/gone1.xml"; "https://a.example/gone2.xml"]));
    ("https://a.example/gone2.xml", (404, "not found")) ].

(** robots.txt with a token and nothing after it *)
Definition bareToken : Site :=
  [ ("https://a.example/robots.txt", (200, "Sitemap:"));
    ("https://a.example/sitemap.xml", (200, urlsetDoc ["https://a.example/1"])) ].

Definition entry (leaf loc : string) : SitemapURL := mkSitemapURL leaf loc "" "" "".

(** the entries of the leaf of [twoLevel], as decoded *)
Definition leafEntries : list SitemapURL :=
  [entry "" "https://a.example/1"; entry "" "https://a.example/2";
   entry "" "https://a.example/3"].

(** the lines of the robots.txt of [twoLevel] *)
Definition twoLevelRobots : list string :=
  ["User-agent: *"; "Sitemap: https://a.example/root.xml"; ""].

(** the nesting of the documents of [twoLevel] *)
Definition twoLevelRank (u : string) : nat :=
  if String.eqb u "https://a.example/root.xml" then 2
  else if String.eqb u "https://a.example/child.xml" then 1
  else 0.

(** the target of the runs, as url.Parse returns it *)
Definition target : string := "https://a.example/x".
Definition targetParsed : net_url.URL :=
  net_url.mkURL "https" "" None "a.example" "/x" false false "" "".

End Example.

(** ** package crypto/subtle *)
Module go_subtle.

(** [int((uint32(x^y) - 1) >> 31)] *)
Definition ConstantTimeByteEq (x y : Z) : Z :=
  Z.shiftr ((Z.lxor x y - 1) mod 2 ^ 32) 31.

(** [for i := 0; i < len(x); i++ { v |= x[i] ^ y[i] }] *)
Fixpoint orXor (v : Z) (x y : string) : Z :=
  match x, y with
  | String a x', String b y' => orXor (Z.lor v (Z.lxor (code a) (code b))) x' y'
  | _, _ => v
  end.

Definition ConstantTimeCompare (x y : string) : Z :=
  if negb (len x =? len y) then 0
  else ConstantTimeByteEq (orXor 0 x y) 0.

End go_subtle.

(** ** package main: authentication and routing *)

Record config : Type := mkConfig
  { port : Z;
    username : string;
    password : string }.

(** A request as the server receives it: what [r.BasicAuth()] returns
    ([Some (username, password)] when [ok]), and the rest as the handler
    reads it. *)
Record HTTPRequest : Type := mkHTTPRequest
  { BasicAuth : option (string * string);
    request : Request }.

(** ** package net/textproto *)
Module go_textproto.

Definition validHeaderFieldByte (c : ascii) : bool :=
  isLetter c || isDigit c || oneOf "!#$%&'*+-.^_`|~" c.

(** the loop of [canonicalMIMEHeaderKey]: first letter upper case and
    upper case after each dash, the other letters lower case *)
Fixpoint canonical (upper : bool) (a : string) : string :=
  match a with
  | EmptyString => EmptyString
  | String c a' =>
      let c := if upper && inRange "a" "z" c then byte (code c - 32)
               else if negb upper && inRange "A" "Z" c then byte (code c + 32)
               else c in
      String c (canonical (Ascii.eqb c "-") a')
  end.

(** a key with a byte that is not a header field byte is left as it is *)
Definition CanonicalMIMEHeaderKey (s : string) : string :=
  if forallb validHeaderFieldByte (list_ascii_of_string s) then canonical true s else s.

End go_textproto.

(** ** package net/http: headers and [http.Error] *)
Module go_http.

Definition Header : Type := gmap string (list string).

Definition Set_ (key value : string) (h : Header) : Header :=
  <[go_textproto.CanonicalMIMEHeaderKey key := [value]]> h.

Definition Del (key : string) (h : Header) : Header :=
  delete (go_textproto.CanonicalMIMEHeaderKey key) h.

Definition Get (key : string) (h : Header) : string :=
  match h !! go_textproto.CanonicalMIMEHeaderKey key with
  | Some (v :: _) => v
  | _ => ""
  end.

End go_http.

(** What is written to the [http.ResponseWriter]: the headers set, the
    status, and the body, either the JSON encoding of a message or text. *)
Inductive Payload : Type :=
| json (message : Message)
| text (s : string).

Record Written : Type := mkWritten
  { Header : go_http.Header;
    status : Z;
    payload : Payload }.

Definition http_StatusUnauthorized : Z := 401.

(** [http.Error(w, error, code)] on a writer whose headers are [h] *)
Definition http_Error (h : go_http.Header) (error : string) (code : Z) : Written :=
  mkWritten
    (go_http.Set_ "X-Content-Type-Options" "nosniff"
       (go_http.Set_ "Content-Type" "text/plain; charset=utf-8"
          (go_http.Del "Content-Length" h)))
    code
    (text (error +:+ String (byte 10) "")).

(** apiResponse, with the header it sets *)
Definition apiWritten (response : Z * Message) : Written :=
  mkWritten (go_http.Set_ "Content-Type" "application/json" ∅)
            response.1 (json response.2).

(** [Basic realm="Restricted"] *)
Definition restricted : string :=
  "Basic realm=" +:+ String (byte 34) ("Restricted" +:+ String (byte 34) "").

(** the answer of basicAuth to a request it turns away *)
Definition unauthorized : Written :=
  http_Error (go_http.Set_ "WWW-Authenticate" restricted ∅)
             "Unauthorized" http_StatusUnauthorized.

Section Server.
Context `{Runtime}.

(** an [http.HandlerFunc] on the package variable [sitemapCache] *)
Definition HandlerFunc : Type :=
  HTTPRequest -> go_cache.Cache -> M (Written * go_cache.Cache).

(** handleGetSitemap as an [http.HandlerFunc] *)
Definition handler (depth : nat) : HandlerFunc :=
  fun r sitemapCache =>
    let* (response, sitemapCache) := handleGetSitemap depth (request r) sitemapCache in
    ret (apiWritten response, sitemapCache).

(** basicAuth is a middleware that wraps an http.HandlerFunc with basic
    authentication *)
Definition basicAuth (cfg : config) (next : HandlerFunc) : HandlerFunc :=
  fun r sitemapCache =>
    (* Get credentials from the request header *)
    match BasicAuth r with
    | None =>
        (* No credentials provided, return 401 Unauthorized *)
        ret (unauthorized, sitemapCache)
    | Some (username_, password_) =>
        (* Check if credentials are valid using constant-time comparison *)
        let usernameMatch :=
          go_subtle.ConstantTimeCompare username_ (username cfg) =? 1 in
        let passwordMatch :=
          go_subtle.ConstantTimeCompare password_ (password cfg) =? 1 in
        if negb usernameMatch || negb passwordMatch
        then (* Invalid credentials, return 401 Unauthorized *)
          ret (unauthorized, sitemapCache)
        else (* Credentials are valid, call the next handler *)
          next r sitemapCache
    end.

(** the handler [main] registers for [/get-sitemap] *)
Definition registered (cfg : config) (depth : nat) : HandlerFunc :=
  if negb (String.eqb (username cfg) "") && negb (String.eqb (password cfg) "")
  then basicAuth cfg (handler depth)
  else handler depth.

(** the answers of the site do not depend on the state of the world *)
Definition Static : Prop :=
  forall t u w w', (http_Get t u w).1 = (http_Get t u w').1.

(** What every entry of the cache is: stored under a non-empty URL that
    url.Parse accepts, and a result as GetSitemap builds it. *)
Definition CacheOK (c : go_cache.Cache) : Prop :=
  go_cache.defaultExpiration c = 24 * time_Hour
  /\ forall k item,
      go_cache.items c !! k = Some item ->
      k <> ""
      /\ (exists u, net_url.Parse k = inr u)
      /\ go_cache.Object item
         = resultOf (URLs (go_cache.Object item)) (Sitemaps (go_cache.Object item)).

(** The caches the server can be in: the one [main] makes, and the ones
    after any request, on any network, and after any run of the janitor. *)
Inductive Reachable : go_cache.Cache -> Prop :=
| reach_init : Reachable sitemapCache_init
| reach_request depth r c s response c' s' :
    Reachable c ->
    handleGetSitemap depth r c s = Some ((response, c'), s') ->
    Reachable c'
| reach_sweep t c :
    Reachable c -> Reachable (go_cache.DeleteExpired t c).

(** what the client and the network see of a call of the handler: the
    response written and the network after it *)
Definition observed (x : option (Z * Message * go_cache.Cache * Net))
  : option (Z * Message * Net) :=
  option_map (fun x => (x.1.1, x.2)) x.

End Server.

(** the locations, of those listed, whose documents have entries *)
Fixpoint withEntries (locs : list string) (ess : list (list SitemapURL)) : list string :=
  match locs, ess with
  | loc :: locs', es :: ess' =>
      (match es with [] => [] | _ :: _ => [loc] end) ++ withEntries locs' ess'
  | _, _ => []
  end.

(** the entries of the documents, each tagged with the location of its
    document *)
Definition tagged (locs : list string) (ess : list (list SitemapURL)) : list SitemapURL :=
  concat (zip_with (fun loc es => map (set_SiteMapIndexURL loc) es) locs ess).

(** the URLs of the requests, in the order sent *)
Definition urlsOf (sent : list (string * Response)) : list string := map fst sent.

(** ** More sites for the runs *)
Module Sites.

(** an index that lists the same leaf twice *)
Definition twice : Example.Site :=
  [ ("https://a.example/index.xml",
      (200, Example.indexDoc ["https://a.example/leaf.xml"; "https://a.example/leaf.xml"]));
    ("https://a.example/leaf.xml",
      (200, Example.urlsetDoc ["https://a.example/1"; "https://a.example/2"])) ].

Definition twiceEntries : list SitemapURL :=
  [Example.entry "" "https://a.example/1"; Example.entry "" "https://a.example/2"].

(** the target of the runs with another path, a query and a fragment *)
Definition sameAuthority : string := "https://a.example/other/page?x=1#top".
Definition sameAuthorityParsed : net_url.URL :=
  net_url.mkURL "https" "" None "a.example" "/other/page" false false "x=1" "top".

(** a target without scheme *)
Definition bareHost : string := "example.com".
Definition bareHostParsed : net_url.URL :=
  net_url.mkURL "" "" None "" "example.com" false false "" "".

(** robots.txt declares a leaf, a leaf without entries, and the first
    leaf again *)
Definition declaring : Example.Site :=
  [ ("https://a.example/robots.txt",
      (200, "Sitemap: https://a.example/leaf.xml" +:+ Robots.LF
            +:+ "sitemap: https://a.example/empty.xml" +:+ Robots.LF
            +:+ "SITEMAP: https://a.example/leaf.xml" +:+ Robots.LF));
    ("https://a.example/leaf.xml",
      (200, Example.urlsetDoc ["https://a.example/1"; "https://a.example/2"]));
    ("https://a.example/empty.xml", (200, Example.urlsetDoc [])) ].

Definition declaringRobots : string :=
  "Sitemap: https://a.example/leaf.xml" +:+ Robots.LF
    +:+ "sitemap: https://a.example/empty.xml" +:+ Robots.LF
    +:+ "SITEMAP: https://a.example/leaf.xml" +:+ Robots.LF.

(** the server started with [-username admin -password secret123], and
    with the user name only *)
Definition withCredentials : config := mkConfig 4000 "admin" "secret123".
Definition withUsernameOnly : config := mkConfig 4000 "admin" "".

(** requests for the target of the runs, with and without credentials *)
Definition authorized : HTTPRequest :=
  mkHTTPRequest (Some ("admin", "secret123")) (post Example.target false).
Definition wrongPassword : HTTPRequest :=
  mkHTTPRequest (Some ("admin", "Secret123")) (post Example.target false).
Definition anonymous : HTTPRequest :=
  mkHTTPRequest None (post Example.target false).

(** the result of a run that found nothing *)
Definition nothing : SitemapResult := mkSitemapResult [] [] "No sitemap data found".

(** a cache with an entry for another site *)
Definition otherSite : go_cache.Cache :=
  go_cache.Set_ 0 "https://b.example/" nothing go_cache.DefaultExpiration
                sitemapCache_init.

End Sites.

(** * Properties *)

(** ** The two loops keep every outcome *)
Section Loops.
Context `{Runtime}.

Lemma bind_Some {A B : Type} (m : M A) (k : A -> M B) (s s' : Net) (a : A) :
  m s = Some (a, s') -> bind m k s = k a s'.
Proof. intros E. unfold bind. now rewrite E. Qed.

Lemma bind_None {A B : Type} (m : M A) (k : A -> M B) (s : Net) :
  m s = None -> bind m k s = None.
Proof. intros E. unfold bind. now rewrite E. Qed.

Lemma bind_inv {A B : Type} (m : M A) (k : A -> M B) (s s2 : Net) (b : B) :
  bind m k s = Some (b, s2) ->
  exists a s1, m s = Some (a, s1) /\ k a s1 = Some (b, s2).
Proof.
  unfold bind. destruct (m s) as [[a s1]|] eqn:E; [|discriminate].
  intros E'. now exists a, s1.
Qed.

(** the index loop appends, to what it was given, the contribution of
    every location in turn *)
Lemma rangeSitemaps_resolveEach (P : string -> M Outcome)
      (sitemaps : list index.SitemapIndexURL) :
  forall (allURLs : list SitemapURL) (s : Net),
    rangeSitemaps P sitemaps allURLs s =
    match resolveEach P (map index.Location sitemaps) s with
    | Some (os, s') => Some (allURLs ++ concat (map contribution os), s')
    | None => None
    end.
Proof.
  induction sitemaps as [|x sitemaps IH]; intros allURLs s; simpl.
  - unfold ret. now rewrite app_nil_r.
  - unfold bind.
    destruct (P (index.Location x) s) as [[[urls err] s1]|]; [|reflexivity].
    rewrite IH.
    destruct (resolveEach P (map index.Location sitemaps) s1) as [[os s2]|];
      [|reflexivity].
    unfold ret. simpl. destruct err; simpl; [reflexivity|].
    now rewrite app_assoc.
Qed.

Lemma kept_cons (c : string) (candidates : list string) (o : Outcome) (os : list Outcome) :
  kept (c :: candidates) (o :: os) =
  if succeeded o then (c, o) :: kept candidates os else kept candidates os.
Proof.
  unfold kept. simpl. rewrite filter_cons. simpl.
  destruct (succeeded o); destruct (decide _); congruence.
Qed.

Lemma rangeSitemapURLs_resolveEach (P : string -> M Outcome) (candidates : list string) :
  forall (allURLs : list SitemapURL) (validSitemaps : list string) (s : Net),
    rangeSitemapURLs P candidates allURLs validSitemaps s =
    match resolveEach P candidates s with
    | Some (os, s') =>
        Some ((allURLs ++ concat (map (fun co => co.2.1) (kept candidates os)),
               validSitemaps ++ map fst (kept candidates os)), s')
    | None => None
    end.
Proof.
  induction candidates as [|c candidates IH]; intros allURLs validSitemaps s; simpl.
  - unfold ret, kept. simpl. now rewrite !app_nil_r.
  - unfold bind.
    destruct (P c s) as [[[urls err] s1]|]; [|reflexivity].
    assert (E : (0 <? Z.of_nat (length urls)) = negb (Nat.eqb (length urls) 0)).
    { destruct urls; [reflexivity|]. simpl length. simpl Nat.eqb. simpl negb.
      apply Z.ltb_lt. lia. }
    destruct err as [e|]; [|rewrite E]; rewrite ?IH.
    + destruct (resolveEach P candidates s1) as [[os s2]|]; [|reflexivity].
      unfold ret. now rewrite kept_cons.
    + destruct (negb (Nat.eqb (length urls) 0)) eqn:G; rewrite IH;
        (destruct (resolveEach P candidates s1) as [[os s2]|]; [|reflexivity]);
        unfold ret; rewrite kept_cons; simpl; rewrite G; [|reflexivity].
      simpl. now rewrite <- !app_assoc.
Qed.

Lemma resolveEach_length (P : string -> M Outcome) (locs : list string) :
  forall (s s' : Net) (os : list Outcome),
    resolveEach P locs s = Some (os, s') -> length os = length locs.
Proof.
  induction locs as [|loc locs IH]; intros s s' os; simpl.
  - unfold ret. intros [= <- _]. reflexivity.
  - intros E. apply bind_inv in E as (o & s1 & _ & E).
    apply bind_inv in E as (os' & s2 & E & E2).
    unfold ret in E2. injection E2 as <- _. simpl. f_equal. eauto.
Qed.

End Loops.

(** ** One step of each function *)
Section Steps.
Context `{Runtime}.

Lemma allMatches_pairs (n : nat) :
  forall s, Forall (fun m => length m = 2%nat) (go_regexp.allMatches n s).
Proof.
  induction n as [|n IH]; intros s; simpl; [constructor|].
  destruct (go_regexp.matchAt s) as [[g rest]|].
  - constructor; [reflexivity|apply IH].
  - destruct s; [constructor|apply IH].
Qed.

Lemma collect_values (ms : list (list string)) :
  Forall (fun m => length m = 2%nat) ms ->
  forall acc,
    fold_left
      (fun sitemapURLs match_ =>
         if 1 <? Z.of_nat (length match_)
         then sitemapURLs ++ [go_strings.TrimSpace (nth 1 match_ "")]
         else sitemapURLs) ms acc
    = acc ++ map (fun match_ => go_strings.TrimSpace (nth 1 match_ "")) ms.
Proof.
  induction 1 as [|m ms Hm _ IH]; intros acc; simpl.
  - now rewrite app_nil_r.
  - rewrite Hm. simpl. rewrite IH. now rewrite <- app_assoc.
Qed.

(** the resolver sends one request and returns what [robotsOutcome]
    makes of the answer *)
Lemma getSitemapURLsFromRobots_step (baseURL : string) (s : Net) :
  getSitemapURLsFromRobots baseURL s =
  Some (robotsOutcome (afterRobots baseURL s).1, (afterRobots baseURL s).2).
Proof.
  unfold getSitemapURLsFromRobots, afterRobots, bind, client_Get.
  destruct (http_Get (10 * time_Second) (baseURL +:+ "/robots.txt") (world s))
    as [resp w].
  destruct resp as [err|st body]; simpl; [reflexivity|].
  destruct (st =? http_StatusOK); simpl; [|reflexivity].
  destruct body as [err|body]; [reflexivity|].
  unfold ret, valuesOf. do 2 f_equal.
  rewrite collect_values by apply allMatches_pairs. reflexivity.
Qed.

Lemma processSitemap_step (depth : nat) (sitemapURL : string) (s : Net) :
  processSitemap (S depth) sitemapURL s =
  let '(resp, w) := http_Get (30 * time_Second) sitemapURL (world s) in
  classify depth sitemapURL resp (mkNet w (requests s ++ [(sitemapURL, resp)])).
Proof.
  cbn [processSitemap]. unfold bind, client_Get.
  destruct (http_Get (30 * time_Second) sitemapURL (world s)) as [resp w].
  destruct resp as [err|st body]; simpl; [reflexivity|].
  destruct (st =? http_StatusOK); simpl; [|reflexivity].
  destruct body as [err|body]; [reflexivity|].
  unfold asIndex.
  destruct (xml_Unmarshal_SitemapIndex body) as [err|si]; [reflexivity|].
  destruct (index.Sitemaps si) as [|x l] eqn:E; [reflexivity|].
  replace (0 <? Z.of_nat (length (x :: l))) with true
    by (symmetry; apply Z.ltb_lt; simpl length; lia).
  rewrite rangeSitemaps_resolveEach.
  destruct (resolveEach _ _ _) as [[os s2]|]; reflexivity.
Qed.

End Steps.

(** ** The sitemap resolver *)
Section Resolver.
Context `{Runtime}.

Lemma asIndex_entries (body : string) (si : index.SitemapIndex) :
  xml_Unmarshal_SitemapIndex body = inr si -> index.Sitemaps si <> [] ->
  asIndex body = Some (map index.Location (index.Sitemaps si)).
Proof.
  intros E N. unfold asIndex. rewrite E.
  destruct (index.Sitemaps si); [congruence|reflexivity].
Qed.

Lemma asIndex_none (body : string) :
  (xml_Unmarshal_SitemapIndex body = inr (index.mkSitemapIndex [])
   \/ exists err, xml_Unmarshal_SitemapIndex body = inl err) ->
  asIndex body = None.
Proof. unfold asIndex. intros [E|[err E]]; now rewrite E. Qed.

(** C1. A body that decodes as an index with entries is resolved as an
    index: every location is resolved in order, each in the network the
    one before left, the entries of the calls that returned no error are
    concatenated and the others add nothing; the call itself returns no
    error.  A body whose index decoding has no entry (or fails) is decoded
    as a leaf sitemap, and an error of that decoding is returned as the
    error of this call. *)
Theorem processSitemap_classification
    (depth : nat) (sitemapURL body : string) (s : Net) (w' : World) :
  http_Get (30 * time_Second) sitemapURL (world s)
    = (Reply http_StatusOK (inr body), w') ->
  let s1 := mkNet w' (requests s ++ [(sitemapURL, Reply http_StatusOK (inr body))]) in
  (forall si,
      xml_Unmarshal_SitemapIndex body = inr si -> index.Sitemaps si <> [] ->
      processSitemap (S depth) sitemapURL s =
      match resolveEach (processSitemap depth)
                        (map index.Location (index.Sitemaps si)) s1 with
      | Some (os, s2) => Some ((concat (map contribution os), nil), s2)
      | None => None
      end
      /\ forall os s2,
          resolveEach (processSitemap depth)
                      (map index.Location (index.Sitemaps si)) s1 = Some (os, s2) ->
          length os = length (index.Sitemaps si))
  /\ ((xml_Unmarshal_SitemapIndex body = inr (index.mkSitemapIndex [])
       \/ exists err, xml_Unmarshal_SitemapIndex body = inl err) ->
      processSitemap (S depth) sitemapURL s =
      match xml_Unmarshal_Sitemap body with
      | inl err =>
          Some (([], Some (fmt_Errorf_v "failed to parse sitemap XML: %v" err)), s1)
      | inr sm =>
          Some ((map (set_SiteMapIndexURL sitemapURL) (urlset.URLs sm), nil), s1)
      end).
Proof.
  intros Hget s1. split.
  - intros si Hsi Hne. split.
    + rewrite processSitemap_step, Hget. simpl.
      now rewrite (asIndex_entries _ _ Hsi Hne).
    + intros os s2 E. apply resolveEach_length in E.
      now rewrite length_map in E.
  - intros Hleaf. rewrite processSitemap_step, Hget. simpl.
    rewrite (asIndex_none _ Hleaf).
    destruct (xml_Unmarshal_Sitemap body); reflexivity.
Qed.

(** *** More depth never changes a result *)

Lemma resolveEach_incl (P Q : string -> M Outcome) (locs : list string) :
  (forall u s r, P u s = Some r -> Q u s = Some r) ->
  forall s r, resolveEach P locs s = Some r -> resolveEach Q locs s = Some r.
Proof.
  intros HPQ. induction locs as [|loc locs IH]; intros s r; simpl; [auto|].
  intros E. destruct r as [os s3].
  apply bind_inv in E as (o & s1 & E1 & E).
  apply bind_inv in E as (os' & s2 & E2 & E3).
  rewrite (bind_Some _ _ _ _ _ (HPQ _ _ _ E1)).
  now rewrite (bind_Some _ _ _ _ _ (IH _ _ E2)).
Qed.

Lemma processSitemap_deeper (depth : nat) :
  forall u s r, processSitemap depth u s = Some r ->
                forall depth', (depth <= depth')%nat -> processSitemap depth' u s = Some r.
Proof.
  induction depth as [|depth IH]; intros u s r E depth' Hle; [discriminate|].
  destruct depth' as [|depth']; [lia|].
  rewrite processSitemap_step in *.
  destruct (http_Get (30 * time_Second) u (world s)) as [resp w].
  destruct resp as [err|st body]; simpl in *; [assumption|].
  destruct (st =? http_StatusOK); [|assumption].
  destruct body as [err|body]; [assumption|].
  destruct (asIndex body) as [locs|]; [|assumption].
  destruct (resolveEach (processSitemap depth) locs _) as [[os s2]|] eqn:R;
    [|discriminate].
  rewrite (resolveEach_incl (processSitemap depth) (processSitemap depth')
             locs (fun u' s' r' E' => IH u' s' r' E' depth' ltac:(lia)) _ _ R).
  exact E.
Qed.

(** *** Termination on a graph without cycles *)

Lemma resolveEach_total (P : string -> M Outcome) (locs : list string) :
  (forall loc, In loc locs -> forall s, exists r, P loc s = Some r) ->
  forall s, exists r, resolveEach P locs s = Some r.
Proof.
  induction locs as [|loc locs IH]; intros HP s; simpl.
  - eexists. reflexivity.
  - destruct (HP loc (or_introl eq_refl) s) as [[o s1] E1].
    destruct (IH (fun l Hl => HP l (or_intror Hl)) s1) as [[os s2] E2].
    rewrite (bind_Some _ _ _ _ _ E1), (bind_Some _ _ _ _ _ E2).
    eexists. reflexivity.
Qed.

Lemma processSitemap_terminates (rank : string -> nat) :
  Ranked rank ->
  forall depth u s, (rank u < depth)%nat -> exists r, processSitemap depth u s = Some r.
Proof.
  intros HR. induction depth as [|depth IH]; intros u s Hlt; [lia|].
  rewrite processSitemap_step.
  destruct (http_Get (30 * time_Second) u (world s)) as [resp w] eqn:G.
  destruct resp as [err|st body]; simpl; [eexists; reflexivity|].
  destruct (st =? http_StatusOK) eqn:Est; [|eexists; reflexivity].
  apply Z.eqb_eq in Est. subst st.
  destruct body as [err|body]; [eexists; reflexivity|].
  destruct (asIndex body) as [locs|] eqn:A.
  - destruct (resolveEach_total (processSitemap depth) locs) with
      (s := mkNet w (requests s ++ [(u, Reply http_StatusOK (inr body))]))
      as [[os s2] E].
    + intros loc Hin s'. apply IH.
      specialize (HR _ _ _ _ _ _ G A loc Hin). lia.
    + rewrite E. eexists. reflexivity.
  - destruct (xml_Unmarshal_Sitemap body); eexists; reflexivity.
Qed.

End Resolver.

(** ** Recursion without a guard *)
Section Recursion.
Context `{Runtime}.

Lemma resolveEach_diverges (P : string -> M Outcome) (locs : list string) (u : string) :
  In u locs -> (forall s, P u s = None) -> forall s, resolveEach P locs s = None.
Proof.
  intros Hin HP. induction locs as [|loc locs IH]; intros s; [destruct Hin|].
  simpl. destruct (P loc s) as [[o s1]|] eqn:E; [|now apply bind_None].
  rewrite (bind_Some _ _ _ _ _ E).
  destruct Hin as [->|Hin]; [rewrite HP in E; discriminate|].
  now rewrite (bind_None _ _ _ (IH Hin s1)).
Qed.

Lemma processSitemap_index (depth : nat) (u : string) (locs : list string) (s : Net) :
  ServesIndex u locs ->
  exists s1, processSitemap (S depth) u s =
             match resolveEach (processSitemap depth) locs s1 with
             | Some (os, s2) => Some ((concat (map contribution os), nil), s2)
             | None => None
             end.
Proof.
  intros HS. destruct (HS (30 * time_Second) (world s)) as (body & w' & G & A).
  rewrite processSitemap_step, G. simpl. rewrite A. eexists. reflexivity.
Qed.

Lemma processSitemap_leaf (depth : nat) (u : string) (entries : list SitemapURL) (s : Net) :
  ServesLeaf u entries ->
  exists s1, processSitemap (S depth) u s
             = Some ((map (set_SiteMapIndexURL u) entries, nil), s1).
Proof.
  intros HS. destruct (HS (30 * time_Second) (world s)) as (body & w' & G & A & D).
  rewrite processSitemap_step, G. simpl. rewrite A, D. eexists. reflexivity.
Qed.

Lemma self_reference_diverges (u : string) (locs : list string) :
  ServesIndex u locs -> In u locs ->
  forall depth s, processSitemap depth u s = None.
Proof.
  intros HS Hin. induction depth as [|depth IH]; intros s; [reflexivity|].
  destruct (processSitemap_index depth u locs s HS) as [s1 ->].
  now rewrite (resolveEach_diverges _ _ _ Hin IH).
Qed.

Lemma mutual_reference_diverges (a b : string) (la lb : list string) :
  ServesIndex a la -> In b la -> ServesIndex b lb -> In a lb ->
  forall depth s, processSitemap depth a s = None /\ processSitemap depth b s = None.
Proof.
  intros Ha Hb Hb' Ha'. induction depth as [|depth IH]; intros s; [now split|].
  split.
  - destruct (processSitemap_index depth a la s Ha) as [s1 ->].
    now rewrite (resolveEach_diverges _ _ _ Hb (fun s' => proj2 (IH s'))).
  - destruct (processSitemap_index depth b lb s Hb') as [s1 ->].
    now rewrite (resolveEach_diverges _ _ _ Ha' (fun s' => proj1 (IH s'))).
Qed.

Lemma chain_depth (n : nat) (u leaf : string) (entries : list SitemapURL) :
  Chain n u leaf entries ->
  forall s,
    processSitemap n u s = None
    /\ exists s', processSitemap (S n) u s
                  = Some ((map (set_SiteMapIndexURL leaf) entries, nil), s').
Proof.
  induction 1 as [u entries HL|n u v leaf entries HI _ IH]; intros s.
  - split; [reflexivity|]. now apply processSitemap_leaf.
  - split.
    + destruct (processSitemap_index n u [v] s HI) as [s1 ->].
      simpl. now rewrite (bind_None _ _ _ (proj1 (IH s1))).
    + destruct (processSitemap_index (S n) u [v] s HI) as [s1 ->].
      destruct (IH s1) as [_ [s2 E]].
      cbn [resolveEach]. rewrite (bind_Some _ _ _ _ _ E).
      cbn. rewrite app_nil_r. eexists. reflexivity.
Qed.

(** C8. processSitemap follows index entries with no record of the URLs
    it is already resolving and no bound on the nesting.  An index that
    lists itself, and either of two indexes that list each other, give
    no result at any depth of recursion: by [processSitemap_deeper] a
    result at some depth would be the result at every greater depth, so
    the Go function does not return on them.  And a chain of [n] nested
    indexes is followed to its leaf, which takes [n + 1] nested calls
    and no fewer. *)
Theorem processSitemap_unbounded_recursion :
  (forall u locs,
      ServesIndex u locs -> In u locs ->
      forall depth s, processSitemap depth u s = None)
  /\ (forall a b la lb,
         ServesIndex a la -> In b la -> ServesIndex b lb -> In a lb ->
         forall depth s, processSitemap depth a s = None)
  /\ (forall n u leaf entries,
         Chain n u leaf entries ->
         forall s,
           processSitemap n u s = None
           /\ exists s', processSitemap (S n) u s
                         = Some ((map (set_SiteMapIndexURL leaf) entries, nil), s')).
Proof.
  split; [|split].
  - exact self_reference_diverges.
  - intros a b la lb Ha Hb Hb' Ha' depth s.
    exact (proj1 (mutual_reference_diverges a b la lb Ha Hb Hb' Ha' depth s)).
  - exact chain_depth.
Qed.

End Recursion.

(** ** Where the entries come from *)
Section Origin.
Context `{Runtime}.

Lemma fromLeaf_app (sent1 sent2 : list (string * Response)) (e : SitemapURL) :
  fromLeaf sent1 e \/ fromLeaf sent2 e -> fromLeaf (sent1 ++ sent2) e.
Proof.
  intros [(leaf & body & entries & e0 & Hin & HL & He0 & ->)
         |(leaf & body & entries & e0 & Hin & HL & He0 & ->)];
    exists leaf, body, entries, e0; (split; [apply in_or_app; auto|auto]).
Qed.

Lemma resolveEach_fromLeaf (P : string -> M Outcome) (locs : list string) :
  (forall u s urls err s',
      P u s = Some ((urls, err), s') ->
      exists sent, extends s s' sent /\ Forall (fromLeaf sent) urls) ->
  forall s os s',
    resolveEach P locs s = Some (os, s') ->
    exists sent, extends s s' sent
                 /\ Forall (fun o : Outcome => Forall (fromLeaf sent) o.1) os.
Proof.
  intros HP. induction locs as [|loc locs IH]; intros s os s'; simpl.
  - unfold ret. intros [= <- <-]. exists []. split; [|constructor].
    unfold extends. now rewrite app_nil_r.
  - intros E. apply bind_inv in E as ([urls err] & s1 & E1 & E).
    apply bind_inv in E as (os' & s2 & E2 & E3).
    unfold ret in E3. injection E3 as <- <-.
    destruct (HP _ _ _ _ _ E1) as (sent1 & X1 & F1).
    destruct (IH _ _ _ E2) as (sent2 & X2 & F2).
    exists (sent1 ++ sent2). split.
    + unfold extends in *. now rewrite X2, X1, app_assoc.
    + constructor.
      * simpl. eapply Forall_impl; [exact F1|]. intros e He. apply fromLeaf_app. auto.
      * eapply Forall_impl; [exact F2|]. intros o Ho.
        eapply Forall_impl; [exact Ho|]. intros e He. apply fromLeaf_app. auto.
Qed.

Lemma Forall_contributions (Q : SitemapURL -> Prop) (os : list Outcome) :
  Forall (fun o : Outcome => Forall Q o.1) os -> Forall Q (concat (map contribution os)).
Proof.
  induction 1 as [|[urls err] os Ho _ IH]; simpl; [constructor|].
  apply Forall_app. split; [|exact IH]. destruct err; [constructor|exact Ho].
Qed.

Lemma processSitemap_fromLeaf (depth : nat) :
  forall u s urls err s',
    processSitemap depth u s = Some ((urls, err), s') ->
    exists sent, extends s s' sent /\ Forall (fromLeaf sent) urls.
Proof.
  induction depth as [|depth IH]; intros u s urls err s'; [discriminate|].
  rewrite processSitemap_step.
  destruct (http_Get (30 * time_Second) u (world s)) as [resp w].
  assert (Hnone : forall (e : option error) (s'' : Net),
             Some (([] : list SitemapURL, e), mkNet w (requests s ++ [(u, resp)]))
             = Some ((urls, err), s'') ->
             exists sent, extends s s'' sent /\ Forall (fromLeaf sent) urls).
  { intros e s'' [= <- _ <-]. exists [(u, resp)]. split; [reflexivity|constructor]. }
  destruct resp as [e|st body]; simpl; [apply Hnone|].
  destruct (st =? http_StatusOK) eqn:Est; [|apply Hnone].
  apply Z.eqb_eq in Est. subst st.
  destruct body as [e|body]; [apply Hnone|].
  destruct (asIndex body) as [locs|] eqn:A.
  - destruct (resolveEach _ _ _) as [[os s2]|] eqn:R; [|discriminate].
    intros [= <- _ <-].
    destruct (resolveEach_fromLeaf _ _ IH _ _ _ R) as (sent & X & F).
    exists ((u, Reply http_StatusOK (inr body)) :: sent). split.
    + unfold extends in *. rewrite X. simpl. now rewrite <- app_assoc.
    + apply Forall_contributions.
      eapply Forall_impl; [exact F|]. intros o Ho.
      eapply Forall_impl; [exact Ho|]. intros e He.
      apply (fromLeaf_app [_] sent). auto.
  - destruct (xml_Unmarshal_Sitemap body) as [e|sm] eqn:D; [apply Hnone|].
    unfold ret. intros [= <- _ <-].
    exists [(u, Reply http_StatusOK (inr body))]. split; [reflexivity|].
    apply List.Forall_forall. intros e He. apply in_map_iff in He as (e0 & <- & He0).
    exists u, body, (urlset.URLs sm), e0. repeat split; auto.
    + now left.
    + rewrite D. now destruct sm.
Qed.

End Origin.

(** ** The aggregator *)
Section Aggregator.
Context `{Runtime}.

Lemma GetSitemap_malformed (depth : nat) (targetURL : string) (err : error) (s : Net) :
  net_url.Parse targetURL = inl err ->
  GetSitemap depth targetURL s = Some ((zero_SitemapResult, Some err), s).
Proof. intros E. unfold GetSitemap. now rewrite E. Qed.

(** after the target is parsed: one request for robots.txt, then the
    loop over the candidate list *)
Lemma GetSitemap_step (depth : nat) (targetURL : string) (u : net_url.URL) (s : Net) :
  net_url.Parse targetURL = inr u ->
  GetSitemap depth targetURL s =
  aggregate depth
    (candidates (authority u) (robotsOutcome (afterRobots (authority u) s).1))
    (afterRobots (authority u) s).2.
Proof.
  intros E. unfold GetSitemap. rewrite E.
  assert (B : net_url.Scheme
                (if String.eqb (net_url.Scheme u) ""
                 then net_url.set_Scheme "https" u else u)
                +:+ "://"
                +:+ net_url.Host
                      (if String.eqb (net_url.Scheme u) ""
                       then net_url.set_Scheme "https" u else u)
              = authority u).
  { unfold authority. destruct (String.eqb (net_url.Scheme u) ""); reflexivity. }
  rewrite B. unfold bind at 1. rewrite getSitemapURLsFromRobots_step.
  destruct (robotsOutcome (afterRobots (authority u) s).1) as [declared err] eqn:R.
  unfold aggregate, bind.
  assert (C : (if match err with Some _ => true | None => false end
                  || (Z.of_nat (length declared) =? 0)
               then [authority u +:+ "/sitemap.xml";
                     authority u +:+ "/sitemap_index.xml";
                     authority u +:+ "/sitemaps.xml"]
               else declared)
              = candidates (authority u) (declared, err)).
  { unfold candidates, fallback. destruct err, declared; reflexivity. }
  rewrite C.
  destruct (rangeSitemapURLs _ _ _ _ _) as [[[allURLs validSitemaps] s2]|];
    [|reflexivity].
  unfold ret, resultOf, set_Error. destruct allURLs; reflexivity.
Qed.

Lemma aggregate_outcomes (depth : nat) (sitemapURLs : list string) (s : Net) :
  aggregate depth sitemapURLs s =
  match resolveEach (processSitemap depth) sitemapURLs s with
  | Some (os, s') =>
      Some ((resultOf (concat (map (fun co => co.2.1) (kept sitemapURLs os)))
                      (map fst (kept sitemapURLs os)), nil), s')
  | None => None
  end.
Proof.
  unfold aggregate, bind. rewrite rangeSitemapURLs_resolveEach.
  destruct (resolveEach _ _ _) as [[os s']|]; reflexivity.
Qed.

(** C2. When the request for robots.txt fails (no answer, a status other
    than 200, a body that cannot be read) or the body has no match of the
    expression, the candidate list is the three fallback paths on the
    authority, in this order, and GetSitemap runs its loop over them. *)
Theorem fallback_candidate_list
    (depth : nat) (targetURL : string) (u : net_url.URL) (s : Net) :
  net_url.Parse targetURL = inr u ->
  (failedFetch (afterRobots (authority u) s).1
   \/ exists body,
       (afterRobots (authority u) s).1 = Reply http_StatusOK (inr body)
       /\ go_regexp.FindAllStringSubmatch body = []) ->
  candidates (authority u) (robotsOutcome (afterRobots (authority u) s).1)
  = [authority u +:+ "/sitemap.xml";
     authority u +:+ "/sitemap_index.xml";
     authority u +:+ "/sitemaps.xml"]
  /\ GetSitemap depth targetURL s
     = (let* (allURLs, validSitemaps) :=
          rangeSitemapURLs (processSitemap depth)
            [authority u +:+ "/sitemap.xml";
             authority u +:+ "/sitemap_index.xml";
             authority u +:+ "/sitemaps.xml"] [] [] in
        ret (resultOf allURLs validSitemaps, nil))
         (afterRobots (authority u) s).2.
Proof.
  intros E Hrobots.
  assert (C : candidates (authority u) (robotsOutcome (afterRobots (authority u) s).1)
              = fallback (authority u)).
  { destruct Hrobots as [F|(body & -> & Hnone)].
    - destruct ((afterRobots (authority u) s).1) as [err|st body]; [reflexivity|].
      simpl in *. destruct (st =? http_StatusOK) eqn:Est; [|reflexivity].
      apply Z.eqb_eq in Est. destruct F as [F|[err ->]]; [contradiction|reflexivity].
    - simpl. unfold valuesOf. now rewrite Hnone. }
  split; [exact C|].
  rewrite (GetSitemap_step _ _ _ _ E), C. reflexivity.
Qed.

(** *** Candidates that give nothing *)

Lemma resolveEach_all (P : string -> M Outcome) (Q : Outcome -> Prop)
      (locs : list string) :
  (forall loc, In loc locs -> forall s, exists o s', P loc s = Some (o, s') /\ Q o) ->
  forall s, exists os s', resolveEach P locs s = Some (os, s') /\ Forall Q os.
Proof.
  induction locs as [|loc locs IH]; intros HP s; simpl.
  - exists [], s. split; [reflexivity|constructor].
  - destruct (HP loc (or_introl eq_refl) s) as (o & s1 & E1 & Ho).
    destruct (IH (fun l Hl => HP l (or_intror Hl)) s1) as (os & s2 & E2 & Hos).
    rewrite (bind_Some _ _ _ _ _ E1), (bind_Some _ _ _ _ _ E2).
    exists (o :: os), s2. split; [reflexivity|now constructor].
Qed.

Lemma processSitemap_unreachable (u : string) :
  Unreachable u ->
  forall depth s, exists err s', processSitemap (S depth) u s = Some (([], Some err), s').
Proof.
  intros HU depth s. rewrite processSitemap_step.
  specialize (HU (30 * time_Second) (world s)).
  destruct (http_Get (30 * time_Second) u (world s)) as [resp w].
  destruct resp as [err|st body]; simpl in *; [eexists; eexists; reflexivity|].
  destruct (st =? http_StatusOK) eqn:Est.
  - apply Z.eqb_eq in Est. destruct HU as [HU|[err ->]]; [contradiction|].
    eexists; eexists; reflexivity.
  - eexists; eexists; reflexivity.
Qed.

Lemma no_contribution (os : list Outcome) :
  Forall (fun o => contribution o = []) os -> concat (map contribution os) = [].
Proof. induction 1 as [|o os Ho _ IH]; simpl; [reflexivity|]. now rewrite Ho, IH. Qed.

(** an index whose children are all unreachable resolves to no entry
    and no error *)
Lemma processSitemap_barren_index (u : string) (locs : list string) :
  ServesIndex u locs -> Forall Unreachable locs ->
  forall depth s, exists s', processSitemap (S (S depth)) u s = Some (([], nil), s').
Proof.
  intros HS HU depth s.
  destruct (processSitemap_index (S depth) u locs s HS) as [s1 ->].
  destruct (resolveEach_all (processSitemap (S depth)) (fun o => contribution o = [])
                            locs) with (s := s1) as (os & s2 & -> & Hos).
  - intros loc Hin s'. rewrite List.Forall_forall in HU.
    destruct (processSitemap_unreachable loc (HU loc Hin) depth s') as (err & s'' & ->).
    eexists; eexists. split; reflexivity.
  - rewrite (no_contribution _ Hos). eexists. reflexivity.
Qed.

Lemma kept_succeeded (sitemapURLs : list string) (os : list Outcome) :
  Forall (fun co => succeeded co.2 = true) (kept sitemapURLs os).
Proof.
  apply List.Forall_forall. intros co Hin. apply list_elem_of_In in Hin.
  unfold kept in Hin. now apply list_elem_of_filter in Hin as [? _].
Qed.

Lemma kept_none (os : list Outcome) :
  Forall (fun o => succeeded o = false) os ->
  forall sitemapURLs, kept sitemapURLs os = [].
Proof.
  induction 1 as [|o os Ho _ IH]; intros [|c sitemapURLs]; try reflexivity.
  rewrite kept_cons, Ho. apply IH.
Qed.

(** C4. GetSitemap calls processSitemap on every candidate, in order,
    whatever the calls before returned; the result lists the candidates
    whose call returned no error and at least one entry, and merges
    their entries; a candidate whose call failed or returned no entry is
    in neither.  When every candidate is unreachable or is an index
    whose children are all unreachable, the result has the error string
    and no entry and no sitemap URL. *)
Theorem failed_candidates_dropped
    (depth : nat) (targetURL : string) (u : net_url.URL) (s : Net) :
  net_url.Parse targetURL = inr u ->
  let sitemapURLs :=
    candidates (authority u) (robotsOutcome (afterRobots (authority u) s).1) in
  let s1 := (afterRobots (authority u) s).2 in
  GetSitemap depth targetURL s =
    match resolveEach (processSitemap depth) sitemapURLs s1 with
    | Some (os, s') =>
        Some ((resultOf (concat (map (fun co => co.2.1) (kept sitemapURLs os)))
                        (map fst (kept sitemapURLs os)), nil), s')
    | None => None
    end
  /\ (forall os s',
         resolveEach (processSitemap depth) sitemapURLs s1 = Some (os, s') ->
         length os = length sitemapURLs
         /\ Forall (fun co => succeeded co.2 = true) (kept sitemapURLs os))
  /\ ((2 <= depth)%nat ->
      Forall (fun c => Unreachable c
                       \/ exists locs, ServesIndex c locs /\ Forall Unreachable locs)
             sitemapURLs ->
      exists s',
        GetSitemap depth targetURL s
        = Some ((mkSitemapResult [] [] "No sitemap data found", nil), s')).
Proof.
  intros E sitemapURLs s1.
  assert (G : GetSitemap depth targetURL s =
              match resolveEach (processSitemap depth) sitemapURLs s1 with
              | Some (os, s') =>
                  Some ((resultOf (concat (map (fun co => co.2.1) (kept sitemapURLs os)))
                                  (map fst (kept sitemapURLs os)), nil), s')
              | None => None
              end).
  { rewrite (GetSitemap_step _ _ _ _ E). apply aggregate_outcomes. }
  split; [exact G|split].
  - intros os s' R. split; [exact (resolveEach_length _ _ _ _ _ R)|apply kept_succeeded].
  - intros Hd Hall. rewrite G.
    destruct depth as [|[|depth]]; [lia|lia|].
    destruct (resolveEach_all (processSitemap (S (S depth)))
                              (fun o => succeeded o = false) sitemapURLs)
      with (s := s1) as (os & s2 & -> & Hos).
    + intros c Hin s'. rewrite List.Forall_forall in Hall.
      destruct (Hall c Hin) as [HU|(locs & HS & HU)].
      * destruct (processSitemap_unreachable c HU (S depth) s') as (err & s'' & ->).
        eexists; eexists. split; reflexivity.
      * destruct (processSitemap_barren_index c locs HS HU depth s') as (s'' & ->).
        eexists; eexists. split; reflexivity.
    + rewrite (kept_none _ Hos). eexists. reflexivity.
Qed.

Lemma GetSitemap_accepted (depth : nat) (targetURL : string) (u : net_url.URL)
      (s : Net) (res : SitemapResult) (err : option error) (s' : Net) :
  net_url.Parse targetURL = inr u ->
  GetSitemap depth targetURL s = Some ((res, err), s') ->
  err = nil /\ res = resultOf (URLs res) (Sitemaps res).
Proof.
  intros E. rewrite (GetSitemap_step _ _ _ _ E), aggregate_outcomes.
  destruct (resolveEach _ _ _) as [[os s2]|]; [|discriminate].
  intros [= <- <- _]. split; reflexivity.
Qed.

(** C5. For a target that url.Parse accepts, the error GetSitemap
    returns is nil, and the error string of the result is set, to
    "No sitemap data found", exactly when the merged entries are empty.
    GetSitemap does return when the index references have no cycle (a
    rank decreases along them) and the depth allowed exceeds the ranks. *)
Theorem nil_error_and_error_string
    (depth : nat) (targetURL : string) (u : net_url.URL) :
  net_url.Parse targetURL = inr u ->
  (forall s res err s',
      GetSitemap depth targetURL s = Some ((res, err), s') ->
      err = nil
      /\ (Error res <> "" <-> URLs res = [])
      /\ (URLs res = [] -> Error res = "No sitemap data found")
      /\ (URLs res <> [] -> Error res = ""))
  /\ (forall rank,
         Ranked rank -> (forall x, (rank x < depth)%nat) ->
         forall s, exists res s', GetSitemap depth targetURL s = Some ((res, nil), s')).
Proof.
  intros E. split.
  - intros s res err s' G.
    destruct (GetSitemap_accepted _ _ _ _ _ _ _ E G) as [-> R].
    split; [reflexivity|]. rewrite R. unfold resultOf. simpl.
    destruct (URLs res); repeat split; try congruence; intros; congruence.
  - intros rank HR Hd s. rewrite (GetSitemap_step _ _ _ _ E), aggregate_outcomes.
    destruct (resolveEach_total (processSitemap depth)
                (candidates (authority u) (robotsOutcome (afterRobots (authority u) s).1)))
      with (s := (afterRobots (authority u) s).2) as [[os s2] ->].
    + intros loc _ s'. apply (processSitemap_terminates rank HR). apply Hd.
    + eexists; eexists. reflexivity.
Qed.

Lemma GetSitemap_fromLeaf (depth : nat) (targetURL : string) (s : Net)
      (res : SitemapResult) (err : option error) (s' : Net) :
  GetSitemap depth targetURL s = Some ((res, err), s') ->
  exists sent, extends s s' sent /\ Forall (fromLeaf sent) (URLs res).
Proof.
  destruct (net_url.Parse targetURL) as [e|u] eqn:E.
  - rewrite (GetSitemap_malformed _ _ _ _ E). intros [= <- _ <-].
    exists []. split; [unfold extends; now rewrite app_nil_r|constructor].
  - rewrite (GetSitemap_step _ _ _ _ E), aggregate_outcomes.
    destruct (resolveEach _ _ _) as [[os s2]|] eqn:R; [|discriminate].
    intros [= <- _ <-].
    destruct (resolveEach_fromLeaf _ _ (processSitemap_fromLeaf depth) _ _ _ R)
      as (sent & X & F).
    exists ((authority u +:+ "/robots.txt", (afterRobots (authority u) s).1) :: sent).
    split.
    + unfold extends in *. rewrite X. unfold afterRobots.
      destruct (http_Get _ _ _). simpl. now rewrite <- app_assoc.
    + simpl. apply List.Forall_forall. intros e He.
      apply in_concat in He as (l & Hl & He).
      apply in_map_iff in Hl as ([c o] & <- & Hco).
      apply list_elem_of_In, list_elem_of_filter in Hco as [_ Hco].
      apply list_elem_of_In, in_combine_r in Hco.
      rewrite List.Forall_forall in F. specialize (F o Hco).
      rewrite List.Forall_forall in F.
      apply (fromLeaf_app [_] sent). right. now apply F.
Qed.

(** C6. Every entry GetSitemap returns was decoded from a leaf document
    that a request of this run fetched, and its [sitemap] field is the
    URL of that request.  A root index that lists one child index that
    lists one leaf sitemap of three entries resolves to these three
    entries, each tagged with the URL of the leaf. *)
Theorem entries_tagged_with_their_leaf :
  (forall depth targetURL s res err s',
      GetSitemap depth targetURL s = Some ((res, err), s') ->
      exists sent, extends s s' sent /\ Forall (fromLeaf sent) (URLs res))
  /\ (forall root child leaf e1 e2 e3,
         ServesIndex root [child] -> ServesIndex child [leaf] ->
         ServesLeaf leaf [e1; e2; e3] ->
         forall depth s, exists s',
           processSitemap (3 + depth) root s
           = Some (([set_SiteMapIndexURL leaf e1; set_SiteMapIndexURL leaf e2;
                     set_SiteMapIndexURL leaf e3], nil), s')).
Proof.
  split; [exact GetSitemap_fromLeaf|].
  intros root child leaf e1 e2 e3 Hroot Hchild Hleaf depth s.
  assert (C : Chain 2 root leaf [e1; e2; e3]).
  { apply chain_index with child; [exact Hroot|].
    apply chain_index with leaf; [exact Hchild|]. now apply chain_leaf. }
  destruct (proj2 (chain_depth _ _ _ _ C s)) as [s' E].
  exists s'. apply (processSitemap_deeper _ _ _ _ E). lia.
Qed.

(** C7 as the code has it.  GetSitemap returns an error exactly when
    url.Parse rejects the target, and then before any request; whatever
    the network and the decoders answer for an accepted target, the
    error returned is nil, and when nothing is reachable the failure is
    the error string of the result.  url.Parse accepts [not a url] (as a
    path, with no scheme and no host), so for this target GetSitemap
    returns a result and no error. *)
Theorem function_error_from_url_Parse_only :
  (forall depth targetURL err s,
      net_url.Parse targetURL = inl err ->
      GetSitemap depth targetURL s = Some ((zero_SitemapResult, Some err), s))
  /\ (forall depth targetURL u s res err s',
         net_url.Parse targetURL = inr u ->
         GetSitemap depth targetURL s = Some ((res, err), s') -> err = nil)
  /\ (forall depth targetURL u s,
         net_url.Parse targetURL = inr u -> (forall c, Unreachable c) ->
         exists s',
           GetSitemap (S depth) targetURL s
           = Some ((mkSitemapResult [] [] "No sitemap data found", nil), s'))
  /\ (exists u, net_url.Parse "not a url" = inr u /\ authority u = "https://")
  /\ (forall depth s res err s',
         GetSitemap depth "not a url" s = Some ((res, err), s') -> err = nil).
Proof.
  assert (A : forall depth targetURL u s res err s',
             net_url.Parse targetURL = inr u ->
             GetSitemap depth targetURL s = Some ((res, err), s') -> err = nil).
  { intros depth targetURL u s res err s' E G.
    exact (proj1 (GetSitemap_accepted _ _ _ _ _ _ _ E G)). }
  split; [exact GetSitemap_malformed|]. split; [exact A|]. split; [|split].
  - intros depth targetURL u s E HU.
    rewrite (GetSitemap_step _ _ _ _ E), aggregate_outcomes.
    destruct (resolveEach_all (processSitemap (S depth)) (fun o => succeeded o = false)
                (candidates (authority u) (robotsOutcome (afterRobots (authority u) s).1)))
      with (s := (afterRobots (authority u) s).2) as (os & s2 & -> & Hos).
    + intros c _ s'.
      destruct (processSitemap_unreachable c (HU c) depth s') as (err & s'' & ->).
      eexists; eexists. split; reflexivity.
    + rewrite (kept_none _ Hos). eexists. reflexivity.
  - eexists. split; [vm_compute; reflexivity|reflexivity].
  - intros depth s res err s'. eapply A. vm_compute. reflexivity.
Qed.

(** C10. When GetSitemap returns an error, the result with it is the
    zero value: no entry, no sitemap URL, empty error string; and no
    request was made. *)
Theorem function_error_with_zero_result
    (depth : nat) (targetURL : string) (s : Net)
    (res : SitemapResult) (err : error) (s' : Net) :
  GetSitemap depth targetURL s = Some ((res, Some err), s') ->
  res = zero_SitemapResult
  /\ URLs res = [] /\ Sitemaps res = [] /\ Error res = ""
  /\ s' = s.
Proof.
  destruct (net_url.Parse targetURL) as [e|u] eqn:E.
  - rewrite (GetSitemap_malformed _ _ _ _ E). intros [= <- _ <-]. now repeat split.
  - intros G. pose proof (proj1 (GetSitemap_accepted _ _ _ _ _ _ _ E G)).
    discriminate.
Qed.

End Aggregator.

(** ** The expression on a file of lines *)
Section Expression.
Import go_regexp Robots.

Lemma append_nil_l (s : string) : "" +:+ s = s.
Proof. reflexivity. Qed.

Lemma append_cons (c : ascii) (s t : string) : String c s +:+ t = String c (s +:+ t).
Proof. reflexivity. Qed.

Lemma append_nil_r (s : string) : s +:+ "" = s.
Proof.
  induction s as [|c s IH]; [reflexivity|]. now rewrite append_cons, IH.
Qed.

Lemma noNewline_cons (c : ascii) (s : string) :
  noNewline (String c s) <-> c <> newline /\ noNewline s.
Proof.
  unfold noNewline. simpl. split.
  - inversion 1; subst. now split.
  - intros [Hc Hs]. now constructor.
Qed.

(** *** Lengths: a match consumes input *)

Lemma stripPrefix_length (p : string) :
  forall s r, stripPrefix p s = Some r ->
              String.length s = (String.length p + String.length r)%nat.
Proof.
  induction p as [|a p IH]; intros s r; simpl.
  - now intros [= ->].
  - destruct s as [|b s]; [discriminate|].
    destruct (Ascii.eqb a b); [|discriminate].
    intros E. simpl. f_equal. now apply IH.
Qed.

Lemma stripAny_length (alts : list string) :
  Forall (fun p => p <> "") alts ->
  forall s r, stripAny alts s = Some r -> (String.length r < String.length s)%nat.
Proof.
  induction 1 as [|p alts Hp _ IH]; intros s r; simpl; [discriminate|].
  destruct (stripPrefix p s) as [r'|] eqn:E; [|apply IH].
  intros [= <-]. apply stripPrefix_length in E.
  destruct p; [congruence|]. simpl in E. lia.
Qed.

Lemma foldOrbit_nonempty (c : ascii) : Forall (fun p => p <> "") (foldOrbit c).
Proof.
  unfold foldOrbit.
  destruct (isLetter c); [|repeat constructor; discriminate].
  destruct (Ascii.eqb _ "s"); [repeat constructor; discriminate|].
  destruct (Ascii.eqb _ "k"); repeat constructor; discriminate.
Qed.

Lemma foldLiteral_length (lit : string) :
  forall s r, foldLiteral lit s = Some r ->
              (String.length r + (match lit with "" => 0 | _ => 1 end)
               <= String.length s)%nat.
Proof.
  induction lit as [|c lit IH]; intros s r; simpl.
  - intros [= ->]. lia.
  - destruct (stripAny (foldOrbit c) s) as [r1|] eqn:E; [|discriminate].
    intros F. apply IH in F.
    apply (stripAny_length _ (foldOrbit_nonempty c)) in E. lia.
Qed.

Lemma takeDots_length (s : string) :
  (String.length (takeDots s).2 <= String.length s)%nat.
Proof.
  induction s as [|c s IH]; simpl; [lia|].
  destruct (dot c); simpl; [|lia].
  destruct (takeDots s) as [a b]. simpl in *. lia.
Qed.

Lemma dotPlus_length (s : string) (g rest : string) :
  dotPlus s = Some (g, rest) -> (String.length rest < String.length s)%nat.
Proof.
  destruct s as [|c s]; simpl; [discriminate|].
  destruct (dot c); [|discriminate].
  pose proof (takeDots_length s).
  destruct (takeDots s) as [a b]. intros [= _ <-]. simpl in *. lia.
Qed.

Lemma spaces_dotPlus_length (s : string) :
  forall g rest, spaces_dotPlus s = Some (g, rest) ->
                 (String.length rest < String.length s)%nat.
Proof.
  induction s as [|c s IH]; intros g rest; [discriminate|].
  cbn [spaces_dotPlus].
  destruct (perlSpace c).
  - destruct (spaces_dotPlus s) as [[g' rest']|] eqn:E.
    + intros [= <- <-]. specialize (IH _ _ eq_refl). simpl. lia.
    + apply dotPlus_length.
  - apply dotPlus_length.
Qed.

Lemma matchAt_length (s g rest : string) :
  matchAt s = Some (g, rest) -> (String.length rest < String.length s)%nat.
Proof.
  unfold matchAt. destruct (foldLiteral "sitemap:" s) as [r|] eqn:E; [|discriminate].
  intros F. apply spaces_dotPlus_length in F. apply foldLiteral_length in E. lia.
Qed.

(** *** The search does not depend on its bound *)

Lemma allMatches_bound (n : nat) :
  forall m s, (String.length s < n)%nat -> (String.length s < m)%nat ->
              allMatches n s = allMatches m s.
Proof.
  induction n as [|n IH]; intros m s Hn Hm; [lia|].
  destruct m as [|m]; [lia|]. simpl.
  destruct (matchAt s) as [[g rest]|] eqn:E.
  - apply matchAt_length in E. f_equal. apply IH; lia.
  - destruct s as [|c s]; [reflexivity|]. simpl in *. apply IH; lia.
Qed.

Lemma valuesOf_match (s g rest : string) :
  matchAt s = Some (g, rest) ->
  valuesOf s = go_strings.TrimSpace g :: valuesOf rest.
Proof.
  intros E. unfold valuesOf, FindAllStringSubmatch.
  remember (allMatches (S (String.length rest)) rest) as R eqn:HR.
  cbn [allMatches]. rewrite E. cbn [map nth]. do 2 f_equal. subst R.
  apply matchAt_length in E. apply allMatches_bound; lia.
Qed.

Lemma valuesOf_skip (c : ascii) (s : string) :
  matchAt (String c s) = None -> valuesOf (String c s) = valuesOf s.
Proof.
  intros E. unfold valuesOf, FindAllStringSubmatch.
  remember (allMatches (S (String.length s)) s) as R eqn:HR.
  cbn [allMatches]. rewrite E. subst R. reflexivity.
Qed.

(** *** The token lies within a line *)

Lemma stripPrefix_line (p : string) :
  noNewline p ->
  forall a t, lineEnd t ->
    stripPrefix p (a +:+ t) = option_map (fun r => r +:+ t) (stripPrefix p a).
Proof.
  induction p as [|x p IH]; intros Hp a t Ht; [reflexivity|].
  apply noNewline_cons in Hp as [Hx Hp].
  destruct a as [|b a]; [rewrite append_nil_l|rewrite append_cons]; simpl.
  - destruct Ht as [->|[t' ->]]; [reflexivity|].
    destruct (Ascii.eqb_spec x newline); [contradiction|reflexivity].
  - destruct (Ascii.eqb x b); [|reflexivity]. now apply IH.
Qed.

Lemma stripAny_line (alts : list string) :
  Forall noNewline alts ->
  forall a t, lineEnd t ->
    stripAny alts (a +:+ t) = option_map (fun r => r +:+ t) (stripAny alts a).
Proof.
  induction 1 as [|p alts Hp _ IH]; intros a t Ht; [reflexivity|].
  simpl. rewrite (stripPrefix_line p Hp a t Ht).
  destruct (stripPrefix p a); [reflexivity|]. now apply IH.
Qed.

Lemma foldLiteral_line (lit : string) :
  Forall (fun c => Forall noNewline (foldOrbit c)) (list_ascii_of_string lit) ->
  forall a t, lineEnd t ->
    foldLiteral lit (a +:+ t) = option_map (fun r => r +:+ t) (foldLiteral lit a).
Proof.
  induction lit as [|c lit IH]; intros Hlit a t Ht; [reflexivity|].
  simpl in Hlit. inversion Hlit as [|? ? Hc Hlit']; subst.
  simpl. rewrite (stripAny_line _ Hc a t Ht).
  destruct (stripAny (foldOrbit c) a); [|reflexivity]. now apply IH.
Qed.

Lemma token_in_line :
  Forall (fun c => Forall noNewline (foldOrbit c)) (list_ascii_of_string token).
Proof.
  unfold noNewline. vm_compute.
  repeat (constructor; [repeat (constructor; [repeat (constructor; [discriminate|])|])|]);
    repeat constructor.
Qed.

(** what is left after a prefix of a line has no newline either *)
Lemma stripPrefix_noNewline (p : string) :
  forall s r, stripPrefix p s = Some r -> noNewline s -> noNewline r.
Proof.
  induction p as [|a p IH]; intros s r; simpl; [now intros [= ->]|].
  destruct s as [|b s]; [discriminate|].
  destruct (Ascii.eqb a b); [|discriminate].
  intros E Hs. apply noNewline_cons in Hs as [_ Hs]. eauto.
Qed.

Lemma stripAny_noNewline (alts : list string) :
  forall s r, stripAny alts s = Some r -> noNewline s -> noNewline r.
Proof.
  induction alts as [|p alts IH]; intros s r; simpl; [discriminate|].
  destruct (stripPrefix p s) as [r'|] eqn:E; [|apply IH].
  intros [= <-]. now apply (stripPrefix_noNewline p s).
Qed.

Lemma foldLiteral_noNewline (lit : string) :
  forall s r, foldLiteral lit s = Some r -> noNewline s -> noNewline r.
Proof.
  induction lit as [|c lit IH]; intros s r; simpl; [now intros [= ->]|].
  destruct (stripAny (foldOrbit c) s) as [r1|] eqn:E; [|discriminate].
  intros F Hs. apply (IH _ _ F). now apply (stripAny_noNewline _ _ _ E).
Qed.

(** *** One line *)

Lemma takeDots_line (a t : string) :
  noNewline a -> lineEnd t -> takeDots (a +:+ t) = (a, t).
Proof.
  intros Ha Ht. induction a as [|c a IH].
  - rewrite append_nil_l. destruct Ht as [->|[t' ->]]; reflexivity.
  - apply noNewline_cons in Ha as [Hc Ha]. rewrite append_cons. simpl.
    unfold dot at 1. destruct (Ascii.eqb_spec c newline); [contradiction|].
    simpl. now rewrite (IH Ha).
Qed.

Lemma spaces_dotPlus_line (r t : string) :
  noNewline r -> dropSpaces r <> "" -> lineEnd t ->
  spaces_dotPlus (r +:+ t) = Some (dropSpaces r, t).
Proof.
  intros Hr Hv Ht. induction r as [|c r IH]; [now simpl in Hv|].
  pose proof Hr as Hr'. apply noNewline_cons in Hr' as [Hc Hr'].
  assert (D : dotPlus (String c r +:+ t) = Some (String c r, t)).
  { rewrite append_cons. cbn [dotPlus]. unfold dot.
    destruct (Ascii.eqb_spec c newline); [contradiction|]. cbn [negb].
    rewrite <- append_cons. now rewrite (takeDots_line _ _ Hr Ht). }
  cbn [dropSpaces] in *. rewrite append_cons. cbn [spaces_dotPlus].
  rewrite <- append_cons.
  destruct (perlSpace c); [|exact D].
  now rewrite (IH Hr' Hv).
Qed.

Lemma afterToken_cons (c : ascii) (line : string) :
  afterToken (String c line)
  = match foldLiteral token (String c line) with
    | Some r => Some r
    | None => afterToken line
    end.
Proof. reflexivity. Qed.

(** the values a line gives: its declared value, if it has one *)
Lemma valuesOf_line (line : string) :
  wellFormed line ->
  forall t, lineEnd t ->
    valuesOf (line +:+ t)
    = match declared line with Some v => [v] | None => [] end
        ++ valuesOf t.
Proof.
  intros [Hline Hdecl] t Ht. unfold declared.
  induction line as [|c line IH].
  - reflexivity.
  - rewrite afterToken_cons in Hdecl |- *.
    pose proof (foldLiteral_line token token_in_line (String c line) t Ht) as F.
    destruct (foldLiteral token (String c line)) as [r|] eqn:E.
    + assert (M : matchAt (String c line +:+ t) = Some (dropSpaces r, t)).
      { unfold matchAt. unfold token in F. rewrite F. cbn [option_map].
        apply spaces_dotPlus_line; auto.
        now apply (foldLiteral_noNewline token _ _ E). }
      now rewrite (valuesOf_match _ _ _ M).
    + assert (M : matchAt (String c line +:+ t) = None).
      { unfold matchAt. unfold token in F. now rewrite F. }
      rewrite append_cons in *. rewrite (valuesOf_skip _ _ M).
      apply noNewline_cons in Hline as [_ Hline]. now apply IH.
Qed.

Lemma valuesOf_newline (t : string) : valuesOf (String newline t) = valuesOf t.
Proof. apply valuesOf_skip. reflexivity. Qed.

(** *** A file of lines *)

Lemma valuesOf_unlines (lines : list string) :
  Forall wellFormed lines -> valuesOf (unlines lines) = omap declared lines.
Proof.
  induction 1 as [|line lines Hline Hlines IH]; [reflexivity|].
  assert (O : omap declared (line :: lines)
              = match declared line with Some v => [v] | None => [] end
                  ++ omap declared lines).
  { cbn. destruct (declared line); reflexivity. }
  rewrite O. destruct lines as [|line' lines].
  - cbn [unlines String.concat]. rewrite <- (append_nil_r line) at 1.
    rewrite (valuesOf_line line Hline "" (or_introl eq_refl)). reflexivity.
  - change (unlines (line :: line' :: lines))
      with (line +:+ (String newline (unlines (line' :: lines)))).
    rewrite (valuesOf_line line Hline _ (or_intror (ex_intro _ _ eq_refl))).
    now rewrite valuesOf_newline, IH.
Qed.

(** *** No more values than tokens *)

Lemma occurrences_suffix (p r : string) :
  (occurrences r <= occurrences (p +:+ r))%nat.
Proof.
  induction p as [|c p IH]; [rewrite append_nil_l; lia|].
  rewrite append_cons. cbn [occurrences]. lia.
Qed.

Lemma stripPrefix_suffix (p : string) :
  forall s r, stripPrefix p s = Some r -> s = p +:+ r.
Proof.
  induction p as [|a p IH]; intros s r; simpl; [now intros [= ->]|].
  destruct s as [|b s]; [discriminate|].
  destruct (Ascii.eqb_spec a b) as [->|]; [|discriminate].
  intros E. rewrite append_cons. f_equal. now apply IH.
Qed.

Lemma stripAny_suffix (alts : list string) :
  forall s r, stripAny alts s = Some r -> exists p, s = p +:+ r.
Proof.
  induction alts as [|p alts IH]; intros s r; simpl; [discriminate|].
  destruct (stripPrefix p s) as [r'|] eqn:E; [|apply IH].
  intros [= <-]. exists p. now apply stripPrefix_suffix.
Qed.

Lemma append_assoc (a b c : string) : (a +:+ b) +:+ c = a +:+ (b +:+ c).
Proof.
  induction a as [|x a IH]; [reflexivity|]. now rewrite !append_cons, IH.
Qed.

Lemma foldLiteral_suffix (lit : string) :
  forall s r, foldLiteral lit s = Some r -> exists p, s = p +:+ r.
Proof.
  induction lit as [|c lit IH]; intros s r; simpl.
  - intros [= ->]. now exists "".
  - destruct (stripAny (foldOrbit c) s) as [r1|] eqn:E; [|discriminate].
    intros F. apply stripAny_suffix in E as [p1 ->]. apply IH in F as [p2 ->].
    exists (p1 +:+ p2). now rewrite append_assoc.
Qed.

Lemma takeDots_suffix (s : string) : s = (takeDots s).1 +:+ (takeDots s).2.
Proof.
  induction s as [|c s IH]; [reflexivity|]. cbn [takeDots].
  destruct (dot c); [|reflexivity].
  destruct (takeDots s) as [a b]. simpl in *. rewrite append_cons. now f_equal.
Qed.

Lemma dotPlus_suffix (s g rest : string) :
  dotPlus s = Some (g, rest) -> exists p, s = p +:+ rest.
Proof.
  destruct s as [|c s]; [discriminate|]. cbn [dotPlus].
  destruct (dot c); [|discriminate].
  pose proof (takeDots_suffix (String c s)) as T.
  destruct (takeDots (String c s)) as [a b]. intros [= _ <-]. now exists a.
Qed.

Lemma spaces_dotPlus_suffix (s : string) :
  forall g rest, spaces_dotPlus s = Some (g, rest) -> exists p, s = p +:+ rest.
Proof.
  induction s as [|c s IH]; intros g rest; [discriminate|].
  cbn [spaces_dotPlus]. destruct (perlSpace c); [|apply dotPlus_suffix].
  destruct (spaces_dotPlus s) as [[g' rest']|] eqn:E; [|apply dotPlus_suffix].
  intros [= <- <-]. destruct (IH _ _ eq_refl) as [p ->].
  exists (String c p). now rewrite append_cons.
Qed.

(** a match starts at a token and ends within what follows its first byte *)
Lemma matchAt_token (s g rest : string) :
  matchAt s = Some (g, rest) ->
  (occurrences rest < occurrences s)%nat.
Proof.
  unfold matchAt. destruct (foldLiteral "sitemap:" s) as [r|] eqn:E; [|discriminate].
  intros F.
  pose proof (foldLiteral_length _ _ _ E) as Hlen. simpl in Hlen.
  apply spaces_dotPlus_suffix in F as [p2 ->].
  destruct (foldLiteral_suffix _ _ _ E) as [p1 ->].
  destruct p1 as [|c p1].
  - rewrite append_nil_l in Hlen. lia.
  - rewrite append_cons in *. cbn [occurrences]. unfold token. rewrite E.
    rewrite <- append_assoc.
    pose proof (occurrences_suffix (p1 +:+ p2) rest). lia.
Qed.

Lemma allMatches_occurrences (n : nat) :
  forall s, (length (allMatches n s) <= occurrences s)%nat.
Proof.
  induction n as [|n IH]; intros s; cbn [allMatches]; [simpl; lia|].
  destruct (matchAt s) as [[g rest]|] eqn:E.
  - apply matchAt_token in E. specialize (IH rest). simpl length. lia.
  - destruct s as [|c s]; [simpl; lia|].
    specialize (IH s). cbn [occurrences]. lia.
Qed.

Lemma valuesOf_occurrences (body : string) :
  (length (valuesOf body) <= occurrences body)%nat.
Proof.
  unfold valuesOf, FindAllStringSubmatch. rewrite length_map.
  apply allMatches_occurrences.
Qed.

End Expression.

(** ** The robots resolver *)
Section RobotsResolver.
Context `{Runtime}.

(** C3 as the code has it.  When robots.txt is answered with status 200,
    getSitemapURLsFromRobots returns no error and at most one value for
    each occurrence of the [sitemap:] token in the body.  When every line
    of the body either has no token or has, after its first token and the
    blanks that follow it, something more on the same line, the values
    are, for each line that has the token, in file order and with
    duplicates, the text from there to the end of the line with
    surrounding white space trimmed.  And when at least one value is
    returned, the values are the candidate list GetSitemap runs its loop
    over, not the fallback list. *)
Theorem robots_declared_values
    (baseURL body : string) (s : Net) (w' : World) :
  http_Get (10 * time_Second) (baseURL +:+ "/robots.txt") (world s)
    = (Reply http_StatusOK (inr body), w') ->
  let s1 := mkNet w' (requests s
                        ++ [(baseURL +:+ "/robots.txt",
                             Reply http_StatusOK (inr body))]) in
  exists values,
    getSitemapURLsFromRobots baseURL s = Some ((values, nil), s1)
    /\ (length values <= Robots.occurrences body)%nat
    /\ (forall lines,
           body = Robots.unlines lines -> Forall Robots.wellFormed lines ->
           values = omap Robots.declared lines)
    /\ (values <> [] ->
        forall depth targetURL u,
          net_url.Parse targetURL = inr u -> authority u = baseURL ->
          GetSitemap depth targetURL s
          = (let* (allURLs, validSitemaps) :=
               rangeSitemapURLs (processSitemap depth) values [] [] in
             ret (resultOf allURLs validSitemaps, nil)) s1).
Proof.
  intros G s1.
  assert (A : afterRobots baseURL s = (Reply http_StatusOK (inr body), s1)).
  { unfold afterRobots. now rewrite G. }
  exists (valuesOf body). split; [|split; [|split]].
  - rewrite getSitemapURLsFromRobots_step, A. reflexivity.
  - apply valuesOf_occurrences.
  - intros lines -> Hlines. now apply valuesOf_unlines.
  - intros Hne depth targetURL u E <-.
    rewrite (GetSitemap_step _ _ _ _ E), A. simpl. unfold candidates.
    destruct (valuesOf body); [congruence|reflexivity].
Qed.

End RobotsResolver.

(** ** The request cache *)
Section Cache.
Context `{Runtime}.

Lemma Get_DeleteExpired (t : Z) (k : string) (c : go_cache.Cache) (item : go_cache.Item) :
  go_cache.items c !! k = Some item ->
  go_cache.Expired t item = false ->
  go_cache.items (go_cache.DeleteExpired t c) !! k = Some item.
Proof.
  intros L E. unfold go_cache.DeleteExpired. simpl.
  apply map_lookup_filter_Some. split; [exact L|exact E].
Qed.

Lemma not_expired_before (t t' : Z) (item : go_cache.Item) :
  t <= t' -> go_cache.Expired t' item = false -> go_cache.Expired t item = false.
Proof.
  unfold go_cache.Expired. intros Ht E.
  apply andb_false_iff in E as [E|E]; [now rewrite E|].
  apply Z.ltb_ge in E. apply andb_false_iff. right. apply Z.ltb_ge. lia.
Qed.

Lemma lookup_swept (times : list Z) (limit : Z) (k : string) (item : go_cache.Item) :
  Forall (fun t => t <= limit) times ->
  go_cache.Expired limit item = false ->
  forall c, go_cache.items c !! k = Some item ->
            go_cache.items (swept times c) !! k = Some item.
Proof.
  intros Ht E. induction Ht as [|t times Hle _ IH]; intros c L; [exact L|].
  simpl. apply IH. apply (Get_DeleteExpired t); [exact L|].
  now apply (not_expired_before t limit).
Qed.

Lemma Get_miss_Delete (t : Z) (k : string) (c : go_cache.Cache) :
  go_cache.Get t k (go_cache.Delete k c) = None.
Proof. unfold go_cache.Get, go_cache.Delete. simpl. now rewrite lookup_delete_eq. Qed.

(** a well-formed request that misses the cache runs GetSitemap once
    and stores what it returns without error *)
Lemma handleGetSitemap_miss (depth : nat) (url : string) (refresh : bool)
      (c : go_cache.Cache) (s : Net) :
  url <> "" ->
  go_cache.Get (time_Now (world s)) url
               (if refresh then go_cache.Delete url c else c) = None ->
  handleGetSitemap depth (post url refresh) c s =
  match GetSitemap depth url s with
  | Some ((sitemapData, None), s1) =>
      Some ((http_StatusOK, sitemap sitemapData,
             go_cache.Set_ (time_Now (world s1)) url sitemapData
                           go_cache.DefaultExpiration
                           (if refresh then go_cache.Delete url c else c)), s1)
  | Some ((_, Some err), s1) =>
      Some ((http_StatusInternalServerError, error_of err,
             if refresh then go_cache.Delete url c else c), s1)
  | None => None
  end.
Proof.
  intros Hurl Hmiss. unfold handleGetSitemap, post. simpl.
  destruct (String.eqb_spec url ""); [contradiction|].
  unfold bind at 1. unfold now at 1. rewrite Hmiss. unfold bind.
  destruct (GetSitemap depth url s) as [[[res [err|]] s1]|]; reflexivity.
Qed.

Lemma handleGetSitemap_hit (depth : nat) (url : string) (c : go_cache.Cache) (s : Net)
      (cachedData : SitemapResult) :
  url <> "" ->
  go_cache.Get (time_Now (world s)) url c = Some cachedData ->
  handleGetSitemap depth (post url false) c s
  = Some ((http_StatusOK, sitemap cachedData, c), s).
Proof.
  intros Hurl Hhit. unfold handleGetSitemap, post. simpl.
  destruct (String.eqb_spec url ""); [contradiction|].
  unfold bind, now. now rewrite Hhit.
Qed.

Lemma GetSitemap_requests_robots (depth : nat) (url : string) (u : net_url.URL)
      (s s' : Net) (r : SitemapResult * option error) :
  net_url.Parse url = inr u ->
  GetSitemap depth url s = Some (r, s') ->
  exists resp sent,
    requests s' = requests s ++ (authority u +:+ "/robots.txt", resp) :: sent.
Proof.
  intros E. rewrite (GetSitemap_step _ _ _ _ E), aggregate_outcomes.
  destruct (resolveEach _ _ _) as [[os s2]|] eqn:R; [|discriminate].
  intros [= _ <-].
  destruct (resolveEach_fromLeaf _ _ (processSitemap_fromLeaf depth) _ _ _ R)
    as (sent & X & _).
  exists (afterRobots (authority u) s).1, sent.
  unfold extends in X. rewrite X. unfold afterRobots.
  destruct (http_Get _ _ _). simpl. now rewrite <- app_assoc.
Qed.

(** C9 as the code has it.  Take a URL that url.Parse accepts, a cache
    made with the 24 hours of [main] that has no live entry for it, and a
    first request whose resolution returns.  The first request runs
    GetSitemap once and stores its result under the URL.  The janitor does
    not remove the entry before the 24 hours are over.  A later request
    without refresh, arriving no later than 24 hours after the store, in
    whatever cache still holds the entry and whatever network, is answered
    with the stored result and sends nothing: the cache, the network and
    its record of requests are as they were.  A request with refresh at
    that time deletes the entry and runs GetSitemap again, which sends at
    least the request for robots.txt, and stores the new result. *)
Theorem second_request_served_from_cache
    (depth : nat) (url : string) (u : net_url.URL) (c0 : go_cache.Cache)
    (s0 s1 : Net) (res : SitemapResult) (err : option error) :
  url <> "" ->
  net_url.Parse url = inr u ->
  go_cache.defaultExpiration c0 = 24 * time_Hour ->
  go_cache.Get (time_Now (world s0)) url c0 = None ->
  GetSitemap depth url s0 = Some ((res, err), s1) ->
  let stored := time_Now (world s1) in
  let c1 := go_cache.Set_ stored url res go_cache.DefaultExpiration c0 in
  handleGetSitemap depth (post url false) c0 s0
    = Some ((http_StatusOK, sitemap res, c1), s1)
  /\ (forall times : list Z,
         Forall (fun t => t <= stored + 24 * time_Hour) times ->
         go_cache.items (swept times c1) !! url = go_cache.items c1 !! url)
  /\ forall (c2 : go_cache.Cache) (s2 : Net) (depth' : nat),
      go_cache.items c2 !! url = go_cache.items c1 !! url ->
      time_Now (world s2) <= stored + 24 * time_Hour ->
      handleGetSitemap depth' (post url false) c2 s2
        = Some ((http_StatusOK, sitemap res, c2), s2)
      /\ handleGetSitemap depth' (post url true) c2 s2
         = match GetSitemap depth' url s2 with
           | Some ((res', _), s3) =>
               Some ((http_StatusOK, sitemap res',
                      go_cache.Set_ (time_Now (world s3)) url res'
                                    go_cache.DefaultExpiration
                                    (go_cache.Delete url c2)), s3)
           | None => None
           end
      /\ forall r s3,
          GetSitemap depth' url s2 = Some (r, s3) ->
          exists resp sent,
            requests s3 = requests s2 ++ (authority u +:+ "/robots.txt", resp) :: sent.
Proof.
  intros Hurl E D Hmiss G stored c1.
  pose proof (proj1 (GetSitemap_accepted _ _ _ _ _ _ _ E G)) as ->.
  assert (L1 : go_cache.items c1 !! url
               = Some (go_cache.mkItem res (stored + 24 * time_Hour))).
  { unfold c1, go_cache.Set_. simpl. rewrite lookup_insert_eq, D. reflexivity. }
  split; [|split].
  - rewrite (handleGetSitemap_miss depth url false c0 s0 Hurl Hmiss), G. reflexivity.
  - intros times Htimes. rewrite L1.
    apply (lookup_swept times (stored + 24 * time_Hour)); [exact Htimes| |exact L1].
    unfold go_cache.Expired. simpl. rewrite Z.ltb_irrefl. apply andb_false_r.
  - intros c2 s2 depth' L Hnow. rewrite L1 in L.
    split; [|split].
    + apply handleGetSitemap_hit; [exact Hurl|].
      unfold go_cache.Get. rewrite L. unfold go_cache.Expired. simpl.
      replace (stored + 24 * time_Hour <? time_Now (world s2)) with false
        by (symmetry; apply Z.ltb_ge; lia).
      now rewrite andb_false_r.
    + rewrite (handleGetSitemap_miss depth' url true c2 s2 Hurl (Get_miss_Delete _ _ _)).
      destruct (GetSitemap depth' url s2) as [[[res' err'] s3]|] eqn:G2; [|reflexivity].
      now rewrite (proj1 (GetSitemap_accepted _ _ _ _ _ _ _ E G2)).
    + intros r s3 G2.
      exact (GetSitemap_requests_robots _ _ _ _ _ _ E G2).
Qed.

End Cache.

(** ** Runs on the static web *)
Section Runs.
Import Example.

Lemma get_page (site : Site) (t : Z) (u : string) (w : Z) (st : Z) (body : string) (w' : Z) :
  get site t u w = (Reply st (inr body), w') -> page site u = Some (st, body).
Proof.
  unfold get. destruct (page site u) as [[st' body']|]; [|discriminate].
  now intros [= -> -> _].
Qed.

Lemma page_serves_index (site : Site) (u body : string) (locs : list string) :
  page site u = Some (200, body) ->
  @asIndex (staticWeb site) body = Some locs ->
  @ServesIndex (staticWeb site) u locs.
Proof.
  intros P A t w. exists body, (w + latency). split; [|exact A].
  simpl. unfold get. now rewrite P.
Qed.

Lemma page_serves_leaf (site : Site) (u body : string) (entries : list SitemapURL) :
  page site u = Some (200, body) ->
  @asLeaf (staticWeb site) body entries ->
  @ServesLeaf (staticWeb site) u entries.
Proof.
  intros P A t w. exists body, (w + latency). split; [|exact A].
  simpl. unfold get. now rewrite P.
Qed.

Lemma page_unreachable (site : Site) (u : string) :
  match page site u with
  | Some (st, _) => st <> 200
  | None => True
  end ->
  @Unreachable (staticWeb site) u.
Proof.
  intros P t w. simpl. unfold get.
  destruct (page site u) as [[st body]|]; simpl; [now left|exact I].
Qed.

Lemma twoLevel_ranked : @Ranked (staticWeb twoLevel) twoLevelRank.
Proof.
  intros t u w body w' locs G A loc Hin.
  apply (get_page twoLevel t u w _ body w') in G.
  unfold twoLevel in G. cbn [page] in G.
  repeat match type of G with
         | (if String.eqb ?a u then _ else _) = _ =>
             destruct (String.eqb_spec a u) as [<-|_]
         end; try discriminate;
    inversion G; subst body; clear G; vm_compute in A; try discriminate;
    injection A as <-; destruct Hin as [<-|[]]; vm_compute; lia.
Qed.

Lemma twoLevel_root :
  @ServesIndex (staticWeb twoLevel) "https://a.example/root.xml"
               ["https://a.example/child.xml"].
Proof. apply page_serves_index with (body := indexDoc ["https://a.example/child.xml"]); reflexivity. Qed.

Lemma twoLevel_child :
  @ServesIndex (staticWeb twoLevel) "https://a.example/child.xml"
               ["https://a.example/leaf.xml"].
Proof. apply page_serves_index with (body := indexDoc ["https://a.example/leaf.xml"]); reflexivity. Qed.

Lemma twoLevel_leaf :
  @ServesLeaf (staticWeb twoLevel) "https://a.example/leaf.xml" leafEntries.
Proof.
  apply page_serves_leaf
    with (body := urlsetDoc ["https://a.example/1"; "https://a.example/2";
                             "https://a.example/3"]);
    [reflexivity|split; reflexivity].
Qed.

(** C1 on the root index of [twoLevel] *)
Lemma processSitemap_classification_witness :
  @http_Get (staticWeb twoLevel) (30 * time_Second) "https://a.example/root.xml" 0
  = (Reply 200 (inr (indexDoc ["https://a.example/child.xml"])), latency)
  /\ option_map fst
       (@processSitemap (staticWeb twoLevel) 3 "https://a.example/root.xml"
                        (start twoLevel))
     = Some ([entry "https://a.example/leaf.xml" "https://a.example/1";
              entry "https://a.example/leaf.xml" "https://a.example/2";
              entry "https://a.example/leaf.xml" "https://a.example/3"], nil).
Proof.
  split; [reflexivity|].
  rewrite (proj1 (proj1 (@processSitemap_classification (staticWeb twoLevel) 2
                           "https://a.example/root.xml"
                           (indexDoc ["https://a.example/child.xml"])
                           (start twoLevel) latency eq_refl)
                        (index.mkSitemapIndex
                           [index.mkSitemapIndexURL "https://a.example/child.xml" ""])
                        eq_refl ltac:(discriminate))).
  vm_compute. reflexivity.
Defined.

Lemma target_parsed : net_url.Parse target = inr targetParsed.
Proof. reflexivity. Qed.

(** C2 where nothing answers *)
Lemma fallback_candidate_list_witness :
  net_url.Parse target = inr targetParsed
  /\ candidates "https://a.example"
       (robotsOutcome (@afterRobots (staticWeb deadWeb) "https://a.example"
                                    (start deadWeb)).1)
     = ["https://a.example/sitemap.xml"; "https://a.example/sitemap_index.xml";
        "https://a.example/sitemaps.xml"].
Proof.
  split; [reflexivity|].
  exact (proj1 (@fallback_candidate_list (staticWeb deadWeb) 1 target targetParsed
                  (start deadWeb) eq_refl (or_introl I))).
Defined.

Lemma twoLevelRobots_wellFormed : Forall Robots.wellFormed twoLevelRobots.
Proof.
  repeat constructor; try discriminate; vm_compute; discriminate.
Qed.

(** C3 (amended) on the robots.txt of [twoLevel] *)
Lemma robots_declared_values_witness :
  @http_Get (staticWeb twoLevel) (10 * time_Second) "https://a.example/robots.txt" 0
  = (Reply 200 (inr (Robots.unlines twoLevelRobots)), latency)
  /\ option_map fst
       (@getSitemapURLsFromRobots (staticWeb twoLevel) "https://a.example"
                                  (start twoLevel))
     = Some (["https://a.example/root.xml"], nil).
Proof.
  split; [reflexivity|].
  destruct (@robots_declared_values (staticWeb twoLevel) "https://a.example"
              (Robots.unlines twoLevelRobots) (start twoLevel) latency eq_refl)
    as (values & -> & _ & Hlines & _).
  rewrite (Hlines twoLevelRobots eq_refl twoLevelRobots_wellFormed).
  vm_compute. reflexivity.
Defined.

(** C3 as stated fails: the body [Sitemap:] has one occurrence of the
    token; no value is returned for it, and the fallback list is used. *)
Lemma robots_bare_token_counterexample :
  Robots.occurrences "Sitemap:" = 1%nat
  /\ option_map fst
       (@getSitemapURLsFromRobots (staticWeb bareToken) "https://a.example"
                                  (start bareToken))
     = Some ([], nil)
  /\ length ([] : list string) <> Robots.occurrences "Sitemap:"
  /\ option_map (fun r => Sitemaps r.1.1)
       (@GetSitemap (staticWeb bareToken) 1 target (start bareToken))
     = Some ["https://a.example/sitemap.xml"].
Proof.
  split; [reflexivity|]. split; [vm_compute; reflexivity|].
  split; [vm_compute; discriminate|vm_compute; reflexivity].
Qed.

(** a token with nothing after it on its line takes the next line *)
Example robots_value_from_next_line :
  valuesOf ("Sitemap:" +:+ Robots.LF +:+ "User-agent: *") = ["User-agent: *"].
Proof. vm_compute. reflexivity. Qed.

(** a token inside a captured value gives no value of its own *)
Example robots_token_in_value :
  Robots.occurrences "Sitemap: https://a.example/sitemap:1" = 2%nat
  /\ valuesOf "Sitemap: https://a.example/sitemap:1" = ["https://a.example/sitemap:1"].
Proof. split; vm_compute; reflexivity. Qed.

Lemma orphaned_index :
  @ServesIndex (staticWeb orphaned) "https://a.example/index.xml"
               ["https://a.example/gone1.xml"; "https://a.example/gone2.xml"].
Proof.
  apply page_serves_index
    with (body := indexDoc ["https://a.example/gone1.xml"; "https://a.example/gone2.xml"]);
    reflexivity.
Qed.

Lemma orphaned_children :
  Forall (@Unreachable (staticWeb orphaned))
         ["https://a.example/gone1.xml"; "https://a.example/gone2.xml"].
Proof.
  constructor; [apply page_unreachable; exact I|].
  constructor; [apply page_unreachable; vm_compute; discriminate|constructor].
Qed.

(** C4 on an index whose children do not answer *)
Lemma failed_candidates_dropped_witness :
  net_url.Parse target = inr targetParsed
  /\ exists s',
      @GetSitemap (staticWeb orphaned) 2 target (start orphaned)
      = Some ((mkSitemapResult [] [] "No sitemap data found", nil), s').
Proof.
  split; [reflexivity|].
  apply (proj2 (proj2 (@failed_candidates_dropped (staticWeb orphaned) 2 target
                         targetParsed (start orphaned) eq_refl)));
    [lia|].
  change (Forall (fun c =>
                    @Unreachable (staticWeb orphaned) c
                    \/ exists locs, @ServesIndex (staticWeb orphaned) c locs
                                    /\ Forall (@Unreachable (staticWeb orphaned)) locs)
                 ["https://a.example/index.xml"]).
  constructor; [|constructor]. right.
  exists ["https://a.example/gone1.xml"; "https://a.example/gone2.xml"].
  split; [exact orphaned_index|exact orphaned_children].
Defined.

(** C5 on [twoLevel] *)
Lemma nil_error_and_error_string_witness :
  net_url.Parse target = inr targetParsed
  /\ exists res s',
      @GetSitemap (staticWeb twoLevel) 3 target (start twoLevel) = Some ((res, nil), s').
Proof.
  split; [reflexivity|].
  apply (proj2 (@nil_error_and_error_string (staticWeb twoLevel) 3 target targetParsed
                  eq_refl) twoLevelRank twoLevel_ranked).
  intros x. unfold twoLevelRank.
  destruct (String.eqb x _); [lia|]. destruct (String.eqb x _); lia.
Defined.

(** C6 on [twoLevel] *)
Lemma entries_tagged_with_their_leaf_witness :
  exists s',
    @processSitemap (staticWeb twoLevel) 3 "https://a.example/root.xml" (start twoLevel)
    = Some (([entry "https://a.example/leaf.xml" "https://a.example/1";
              entry "https://a.example/leaf.xml" "https://a.example/2";
              entry "https://a.example/leaf.xml" "https://a.example/3"], nil), s').
Proof.
  exact (proj2 (@entries_tagged_with_their_leaf (staticWeb twoLevel))
               "https://a.example/root.xml" "https://a.example/child.xml"
               "https://a.example/leaf.xml"
               (entry "" "https://a.example/1") (entry "" "https://a.example/2")
               (entry "" "https://a.example/3")
               twoLevel_root twoLevel_child twoLevel_leaf 0%nat (start twoLevel)).
Defined.

(** C7 (amended) on a target url.Parse rejects *)
Lemma function_error_from_url_Parse_only_witness :
  net_url.Parse "%zz" = inl (url_Error "parse" "%zz" (url_EscapeError "%zz"))
  /\ @GetSitemap (staticWeb deadWeb) 1 "%zz" (start deadWeb)
     = Some ((zero_SitemapResult,
              Some (url_Error "parse" "%zz" (url_EscapeError "%zz"))), start deadWeb).
Proof.
  split; [reflexivity|].
  exact (proj1 (@function_error_from_url_Parse_only (staticWeb deadWeb))
               1%nat "%zz" _ (start deadWeb) eq_refl).
Defined.

(** C7 as stated fails: for [not a url] GetSitemap returns a result, with
    the error string set, and no error. *)
Lemma not_a_url_counterexample :
  (exists s',
      @GetSitemap (staticWeb deadWeb) 1 "not a url" (start deadWeb)
      = Some ((mkSitemapResult [] [] "No sitemap data found", nil), s'))
  /\ ~ exists res err s',
        @GetSitemap (staticWeb deadWeb) 1 "not a url" (start deadWeb)
        = Some ((res, Some err), s').
Proof.
  split.
  - eexists. vm_compute. reflexivity.
  - intros (res & err & s' & E). vm_compute in E. discriminate.
Qed.

Lemma cyclic_self :
  @ServesIndex (staticWeb cyclic) "https://a.example/self.xml" ["https://a.example/self.xml"].
Proof. apply page_serves_index with (body := indexDoc ["https://a.example/self.xml"]); reflexivity. Qed.

Lemma cyclic_ping :
  @ServesIndex (staticWeb cyclic) "https://a.example/ping.xml" ["https://a.example/pong.xml"].
Proof. apply page_serves_index with (body := indexDoc ["https://a.example/pong.xml"]); reflexivity. Qed.

Lemma cyclic_pong :
  @ServesIndex (staticWeb cyclic) "https://a.example/pong.xml" ["https://a.example/ping.xml"].
Proof. apply page_serves_index with (body := indexDoc ["https://a.example/ping.xml"]); reflexivity. Qed.

(** C8 on [cyclic] and, for the depth, on [twoLevel] *)
Lemma processSitemap_unbounded_recursion_witness :
  (forall depth,
      @processSitemap (staticWeb cyclic) depth "https://a.example/self.xml" (start cyclic)
      = None)
  /\ (forall depth,
         @processSitemap (staticWeb cyclic) depth "https://a.example/ping.xml" (start cyclic)
         = None)
  /\ @processSitemap (staticWeb twoLevel) 2 "https://a.example/root.xml" (start twoLevel)
     = None.
Proof.
  split; [|split].
  - intros depth.
    exact (proj1 (@processSitemap_unbounded_recursion (staticWeb cyclic))
                 _ _ cyclic_self (or_introl eq_refl) depth (start cyclic)).
  - intros depth.
    exact (proj1 (proj2 (@processSitemap_unbounded_recursion (staticWeb cyclic)))
                 _ _ _ _ cyclic_ping (or_introl eq_refl) cyclic_pong (or_introl eq_refl)
                 depth (start cyclic)).
  - refine (proj1 (proj2 (proj2 (@processSitemap_unbounded_recursion (staticWeb twoLevel)))
                         2%nat "https://a.example/root.xml" "https://a.example/leaf.xml"
                         leafEntries _ (start twoLevel))).
    apply chain_index with "https://a.example/child.xml"; [exact twoLevel_root|].
    apply chain_index with "https://a.example/leaf.xml"; [exact twoLevel_child|].
    apply chain_leaf. exact twoLevel_leaf.
Defined.

(** C10 on a target url.Parse rejects *)
Lemma function_error_with_zero_result_witness :
  @GetSitemap (staticWeb deadWeb) 1 "%zz" (start deadWeb)
  = Some ((zero_SitemapResult,
           Some (url_Error "parse" "%zz" (url_EscapeError "%zz"))), start deadWeb)
  /\ URLs zero_SitemapResult = [] /\ Sitemaps zero_SitemapResult = []
  /\ Error zero_SitemapResult = "" /\ start deadWeb = start deadWeb.
Proof.
  split; [reflexivity|].
  exact (proj2 (@function_error_with_zero_result (staticWeb deadWeb) 1 "%zz"
                  (start deadWeb) zero_SitemapResult
                  (url_Error "parse" "%zz" (url_EscapeError "%zz")) (start deadWeb)
                  eq_refl)).
Defined.

(** C9 (amended) on [twoLevel]: a second request one hour after the
    first *)
Lemma second_request_served_from_cache_witness :
  match @GetSitemap (staticWeb twoLevel) 3 target (start twoLevel) with
  | Some ((res, _), s1) =>
      let c1 := go_cache.Set_ (world s1) target res go_cache.DefaultExpiration
                              sitemapCache_init in
      let s2 := @mkNet (staticWeb twoLevel) (world s1 + time_Hour) (requests s1) in
      @handleGetSitemap (staticWeb twoLevel) 3 (post target false) sitemapCache_init
                        (start twoLevel)
      = Some ((200, sitemap res, c1), s1)
      /\ @handleGetSitemap (staticWeb twoLevel) 3 (post target false) c1 s2
         = Some ((200, sitemap res, c1), s2)
  | None => False
  end.
Proof.
  destruct (@GetSitemap (staticWeb twoLevel) 3 target (start twoLevel))
    as [[[res err] s1]|] eqn:G; [|vm_compute in G; discriminate].
  destruct (@second_request_served_from_cache (staticWeb twoLevel) 3 target targetParsed
              sitemapCache_init (start twoLevel) s1 res err
              ltac:(discriminate) eq_refl eq_refl eq_refl G) as [First Later].
  split; [exact First|].
  refine (proj1 (proj2 Later _ (@mkNet (staticWeb twoLevel) (world s1 + time_Hour)
                                       (requests s1)) 3%nat eq_refl _)).
  simpl. unfold time_Hour, time_Minute, time_Second. lia.
Defined.

(** C9 as stated fails.  For a key url.Parse rejects, both requests are
    answered with status 500, nothing is stored and nothing is sent.  And
    for the target of [twoLevel], a second request that arrives after the
    24 hours is not answered from the cache: it sends the requests of a
    resolution again. *)
Lemma second_request_not_from_cache_counterexample :
  (let* r1 := @handleGetSitemap (staticWeb deadWeb) 1 (post "%zz" false) sitemapCache_init in
   let* r2 := @handleGetSitemap (staticWeb deadWeb) 1 (post "%zz" false) r1.2 in
   ret (r1.1, r2.1, go_cache.Get 0 "%zz" r2.2)) (start deadWeb)
  = Some (((500, error_of (url_Error "parse" "%zz" (url_EscapeError "%zz"))),
           (500, error_of (url_Error "parse" "%zz" (url_EscapeError "%zz"))),
           None),
          start deadWeb)
  /\ match @handleGetSitemap (staticWeb twoLevel) 3 (post target false) sitemapCache_init
                             (start twoLevel) with
     | Some ((_, c1), s1) =>
         option_map (fun r => length (requests r.2))
           (@handleGetSitemap (staticWeb twoLevel) 3 (post target false) c1
              (@mkNet (staticWeb twoLevel) (world s1 + 24 * time_Hour + 1) (requests s1)))
         = Some (2 * length (requests s1))%nat
     | None => False
     end.
Proof. split; vm_compute; reflexivity. Qed.

(** targets url.Parse rejects, and some it accepts without a host *)
Example url_Parse_rejects :
  net_url.Parse ":foo" = inl (url_Error "parse" ":foo" (errors_New "missing protocol scheme"))
  /\ net_url.Parse (String (byte 127) "")
     = inl (url_Error "parse" (String (byte 127) "")
                      (errors_New "net/url: invalid control character in URL"))
  /\ net_url.Parse "http://a b/"
     = inl (url_Error "parse" "http://a b/" (url_InvalidHostError " ")).
Proof. repeat split; vm_compute; reflexivity. Qed.

Example url_Parse_accepts_without_host :
  option_map authority
    (match net_url.Parse "example.com" with inr u => Some u | inl _ => None end)
  = Some "https://"
  /\ option_map authority
       (match net_url.Parse "not a url" with inr u => Some u | inl _ => None end)
     = Some "https://".
Proof. split; vm_compute; reflexivity. Qed.

End Runs.

(** * Further properties of the code *)

(** ** The resolver and the aggregator *)
Section MoreResolver.
Context `{Runtime}.

(** X1. An error of processSitemap is about the document asked for: the
    call returns no entry with it, and it sent the one request for that
    document and none for any other. *)
Theorem processSitemap_error
    (depth : nat) (sitemapURL : string) (s s' : Net)
    (urls : list SitemapURL) (err : error) :
  processSitemap depth sitemapURL s = Some ((urls, Some err), s') ->
  urls = [] /\ exists resp, requests s' = requests s ++ [(sitemapURL, resp)].
Proof.
  destruct depth as [|depth]; [discriminate|].
  rewrite processSitemap_step.
  destruct (http_Get (30 * time_Second) sitemapURL (world s)) as [resp w].
  assert (Hone : forall (e : option error),
             Some (([] : list SitemapURL, e), mkNet w (requests s ++ [(sitemapURL, resp)]))
             = Some ((urls, Some err), s') ->
             urls = [] /\ exists resp, requests s' = requests s ++ [(sitemapURL, resp)]).
  { intros e [= <- _ <-]. split; [reflexivity|]. now exists resp. }
  destruct resp as [e|st body]; simpl; [apply Hone|].
  destruct (st =? http_StatusOK); [|apply Hone].
  destruct body as [e|body]; [apply Hone|].
  destruct (asIndex body) as [locs|].
  - destruct (resolveEach _ _ _) as [[os s2]|]; discriminate.
  - destruct (xml_Unmarshal_Sitemap body) as [e|sm]; [apply Hone|discriminate].
Qed.

Lemma processSitemap_leaf_request (u : string) (entries : list SitemapURL) :
  ServesLeaf u entries ->
  forall depth s, exists resp w,
    processSitemap (S depth) u s
    = Some ((map (set_SiteMapIndexURL u) entries, nil),
            mkNet w (requests s ++ [(u, resp)])).
Proof.
  intros HS depth s.
  destruct (HS (30 * time_Second) (world s)) as (body & w' & G & A & D).
  rewrite processSitemap_step, G. simpl. rewrite A, D.
  eexists; eexists. reflexivity.
Qed.

Lemma resolveEach_leaves (depth : nat) (locs : list string) (ess : list (list SitemapURL)) :
  Forall2 ServesLeaf locs ess ->
  forall s, exists os s' sent,
    resolveEach (processSitemap (S depth)) locs s = Some (os, s')
    /\ concat (map contribution os)
       = concat (zip_with (fun loc es => map (set_SiteMapIndexURL loc) es) locs ess)
    /\ extends s s' sent /\ urlsOf sent = locs.
Proof.
  induction 1 as [|loc es locs ess HL _ IH]; intros s.
  - exists [], s, []. repeat split. unfold extends. now rewrite app_nil_r.
  - destruct (processSitemap_leaf_request loc es HL depth s) as (resp & w & E1).
    destruct (IH (mkNet w (requests s ++ [(loc, resp)]))) as (os & s' & sent & E2 & C & X & U).
    exists ((map (set_SiteMapIndexURL loc) es, nil) :: os), s', ((loc, resp) :: sent).
    cbn [resolveEach]. rewrite (bind_Some _ _ _ _ _ E1), (bind_Some _ _ _ _ _ E2).
    repeat split.
    + simpl. now rewrite C.
    + unfold extends in *. rewrite X. simpl. now rewrite <- app_assoc.
    + simpl. now rewrite U.
Qed.

(** X2. An index whose locations are leaf sitemaps resolves to the
    entries of the leaves in the order listed, each tagged with its leaf;
    a location listed twice is fetched twice and gives its entries twice:
    the requests are the one for the index and one per location. *)
Theorem index_of_leaves
    (u : string) (locs : list string) (ess : list (list SitemapURL)) :
  ServesIndex u locs -> Forall2 ServesLeaf locs ess ->
  forall depth s, exists s' sent,
    processSitemap (S (S depth)) u s
    = Some ((concat (zip_with (fun loc es => map (set_SiteMapIndexURL loc) es) locs ess),
             nil), s')
    /\ extends s s' sent /\ urlsOf sent = u :: locs.
Proof.
  intros HS HL depth s.
  destruct (HS (30 * time_Second) (world s)) as (body & w' & G & A).
  destruct (resolveEach_leaves depth locs ess HL
              (mkNet w' (requests s ++ [(u, Reply http_StatusOK (inr body))])))
    as (os & s' & sent & E & C & X & U).
  rewrite processSitemap_step, G. cbv beta iota. unfold classify.
  rewrite Z.eqb_refl, A, E.
  exists s', ((u, Reply http_StatusOK (inr body)) :: sent). rewrite C.
  repeat split.
  - unfold extends in *. rewrite X. simpl. now rewrite <- app_assoc.
  - simpl. now rewrite U.
Qed.

(** *** A site that does not change *)

Lemma resolveEach_static (P : string -> M Outcome) :
  (forall u s s', option_map fst (P u s) = option_map fst (P u s')) ->
  forall locs s s',
    option_map fst (resolveEach P locs s) = option_map fst (resolveEach P locs s').
Proof.
  intros HP. induction locs as [|loc locs IH]; intros s s'; [reflexivity|].
  cbn [resolveEach]. unfold bind. specialize (HP loc s s').
  destruct (P loc s) as [[o s1]|], (P loc s') as [[o' s1']|]; try discriminate;
    [|reflexivity].
  injection HP as <-. specialize (IH s1 s1').
  destruct (resolveEach P locs s1) as [[os s2]|],
           (resolveEach P locs s1') as [[os' s2']|]; try discriminate; [|reflexivity].
  injection IH as <-. reflexivity.
Qed.

Lemma processSitemap_static :
  Static ->
  forall depth u s s',
    option_map fst (processSitemap depth u s) = option_map fst (processSitemap depth u s').
Proof.
  intros HS. induction depth as [|depth IH]; intros u s s'; [reflexivity|].
  rewrite !processSitemap_step. specialize (HS (30 * time_Second) u (world s) (world s')).
  destruct (http_Get (30 * time_Second) u (world s)) as [resp w].
  destruct (http_Get (30 * time_Second) u (world s')) as [resp' w'].
  simpl in HS. subst resp'.
  destruct resp as [e|st body]; simpl; [reflexivity|].
  destruct (st =? http_StatusOK); [|reflexivity].
  destruct body as [e|body]; [reflexivity|].
  destruct (asIndex body) as [locs|].
  - pose proof (resolveEach_static (processSitemap depth) IH locs
                  (mkNet w (requests s ++ [(u, Reply st (inr body))]))
                  (mkNet w' (requests s' ++ [(u, Reply st (inr body))]))) as R.
    destruct (resolveEach _ _ _) as [[os s2]|], (resolveEach _ _ _) as [[os' s2']|];
      try discriminate; [|reflexivity].
    injection R as <-. reflexivity.
  - destruct (xml_Unmarshal_Sitemap body); reflexivity.
Qed.

Lemma GetSitemap_static :
  Static ->
  forall depth targetURL s s',
    option_map fst (GetSitemap depth targetURL s)
    = option_map fst (GetSitemap depth targetURL s').
Proof.
  intros HS depth targetURL s s'.
  destruct (net_url.Parse targetURL) as [e|u] eqn:E.
  - now rewrite !(GetSitemap_malformed _ _ _ _ E).
  - rewrite !(GetSitemap_step _ _ _ _ E), !aggregate_outcomes.
    assert (R : (afterRobots (authority u) s).1 = (afterRobots (authority u) s').1).
    { unfold afterRobots.
      specialize (HS (10 * time_Second) (authority u +:+ "/robots.txt") (world s) (world s')).
      destruct (http_Get _ _ (world s)), (http_Get _ _ (world s')). exact HS. }
    rewrite R.
    pose proof (resolveEach_static (processSitemap depth) (processSitemap_static HS depth)
                  (candidates (authority u) (robotsOutcome (afterRobots (authority u) s').1))
                  (afterRobots (authority u) s).2 (afterRobots (authority u) s').2) as Q.
    destruct (resolveEach _ _ (afterRobots (authority u) s).2) as [[os s2]|],
             (resolveEach _ _ (afterRobots (authority u) s').2) as [[os' s2']|];
      try discriminate; [|reflexivity].
    injection Q as <-. reflexivity.
Qed.

(** X3. The scanner keeps nothing between calls.  On a site whose
    answers do not depend on the state of the world, what processSitemap
    and GetSitemap return does not depend on the network they start in, so
    a call repeated right after the first returns the same result. *)
Theorem resolution_repeatable :
  Static ->
  (forall depth u s s',
      option_map fst (processSitemap depth u s) = option_map fst (processSitemap depth u s'))
  /\ (forall depth targetURL s s',
         option_map fst (GetSitemap depth targetURL s)
         = option_map fst (GetSitemap depth targetURL s'))
  /\ (forall depth targetURL s r s1,
         GetSitemap depth targetURL s = Some (r, s1) ->
         exists s2, GetSitemap depth targetURL s1 = Some (r, s2)).
Proof.
  intros HS. split; [exact (processSitemap_static HS)|].
  split; [exact (GetSitemap_static HS)|].
  intros depth targetURL s r s1 G.
  pose proof (GetSitemap_static HS depth targetURL s s1) as Q. rewrite G in Q.
  destruct (GetSitemap depth targetURL s1) as [[r' s2]|]; [|discriminate].
  injection Q as <-. now exists s2.
Qed.

(** X4. GetSitemap reads the scheme and the host of the target and nothing
    else: two targets with the same authority have the same run, whatever
    their paths, queries and fragments. *)
Theorem same_authority_same_run
    (depth : nat) (target1 target2 : string) (u1 u2 : net_url.URL) (s : Net) :
  net_url.Parse target1 = inr u1 -> net_url.Parse target2 = inr u2 ->
  authority u1 = authority u2 ->
  GetSitemap depth target1 s = GetSitemap depth target2 s.
Proof.
  intros E1 E2 A.
  now rewrite (GetSitemap_step _ _ _ _ E1), (GetSitemap_step _ _ _ _ E2), A.
Qed.

(** *** The shape of a result *)

Lemma kept_nonempty (sitemapURLs : list string) (os : list Outcome) :
  Forall (fun co : string * Outcome => co.2.1 <> []) (kept sitemapURLs os).
Proof.
  eapply Forall_impl; [apply kept_succeeded|].
  intros [c [urls err]]. simpl. destruct err; [discriminate|].
  destruct urls; [discriminate|]. intros _. discriminate.
Qed.

Lemma concat_nonempty {A B : Type} (f : A -> list B) (l : list A) :
  Forall (fun a => f a <> []) l ->
  (length l <= length (concat (map f l)))%nat.
Proof.
  induction 1 as [|a l Ha _ IH]; simpl; [lia|].
  rewrite length_app. destruct (f a); [congruence|]. simpl. lia.
Qed.

Lemma kept_sublist (sitemapURLs : list string) (os : list Outcome) :
  sublist (map fst (kept sitemapURLs os)) sitemapURLs.
Proof.
  revert os. induction sitemapURLs as [|c sitemapURLs IH]; intros os.
  - destruct os; constructor.
  - destruct os as [|o os]; [apply sublist_nil_l|].
    rewrite kept_cons. destruct (succeeded o); simpl.
    + apply sublist_skip. apply IH.
    + apply sublist_cons. apply IH.
Qed.

(** X5. In a result of GetSitemap for an accepted target, [sitemap_urls]
    is the candidate list with some candidates left out, in the same
    order; it has no more members than [urls] has entries, and it is empty
    exactly when [urls] is, which is when the error string is set. *)
Theorem result_shape
    (depth : nat) (targetURL : string) (u : net_url.URL) (s s' : Net)
    (res : SitemapResult) (err : option error) :
  net_url.Parse targetURL = inr u ->
  GetSitemap depth targetURL s = Some ((res, err), s') ->
  sublist (Sitemaps res)
          (candidates (authority u) (robotsOutcome (afterRobots (authority u) s).1))
  /\ (length (Sitemaps res) <= length (URLs res))%nat
  /\ (Sitemaps res = [] <-> URLs res = [])
  /\ (Sitemaps res = [] <-> Error res = "No sitemap data found").
Proof.
  intros E. rewrite (GetSitemap_step _ _ _ _ E), aggregate_outcomes.
  destruct (resolveEach _ _ _) as [[os s2]|]; [|discriminate].
  intros [= <- _ _]. unfold resultOf. cbn [URLs Sitemaps Error].
  pose proof (concat_nonempty (fun co : string * Outcome => co.2.1) _
                (kept_nonempty (candidates (authority u)
                                  (robotsOutcome (afterRobots (authority u) s).1)) os))
    as L.
  split; [apply kept_sublist|].
  split; [now rewrite length_map|].
  destruct (kept _ os) as [|co k'].
  - simpl. repeat split; auto.
  - destruct (concat _) as [|e es]; [simpl in L; lia|].
    cbn [map]. repeat split; intros; discriminate.
Qed.

(** *** Nothing answers *)

Lemma processSitemap_unreachable_request (u : string) :
  Unreachable u ->
  forall depth s, exists err resp w,
    processSitemap (S depth) u s
    = Some (([], Some err), mkNet w (requests s ++ [(u, resp)])).
Proof.
  intros HU depth s. rewrite processSitemap_step.
  specialize (HU (30 * time_Second) (world s)).
  destruct (http_Get (30 * time_Second) u (world s)) as [resp w].
  destruct resp as [err|st body]; simpl in *; [repeat eexists|].
  destruct (st =? http_StatusOK) eqn:Est.
  - apply Z.eqb_eq in Est. destruct HU as [HU|[err ->]]; [contradiction|].
    repeat eexists.
  - repeat eexists.
Qed.

Lemma resolveEach_unreachable (depth : nat) (locs : list string) :
  Forall Unreachable locs ->
  forall s, exists os s' sent,
    resolveEach (processSitemap (S depth)) locs s = Some (os, s')
    /\ Forall (fun o => succeeded o = false) os
    /\ extends s s' sent /\ urlsOf sent = locs.
Proof.
  induction 1 as [|loc locs HU _ IH]; intros s.
  - exists [], s, []. repeat split; [constructor|]. unfold extends. now rewrite app_nil_r.
  - destruct (processSitemap_unreachable_request loc HU depth s) as (err & resp & w & E1).
    destruct (IH (mkNet w (requests s ++ [(loc, resp)]))) as (os & s' & sent & E2 & F & X & U).
    exists (([], Some err) :: os), s', ((loc, resp) :: sent).
    cbn [resolveEach]. rewrite (bind_Some _ _ _ _ _ E1), (bind_Some _ _ _ _ _ E2).
    repeat split.
    + now constructor.
    + unfold extends in *. rewrite X. simpl. now rewrite <- app_assoc.
    + simpl. now rewrite U.
Qed.

Lemma unreachable_robots (a : string) (s : Net) :
  Unreachable (a +:+ "/robots.txt") ->
  candidates a (robotsOutcome (afterRobots a s).1) = fallback a.
Proof.
  intros HU. specialize (HU (10 * time_Second) (world s)). unfold afterRobots.
  destruct (http_Get _ _ _) as [resp w]. simpl in *.
  destruct resp as [err|st body]; [reflexivity|]. simpl in *.
  destruct (st =? http_StatusOK) eqn:Est; [|reflexivity].
  apply Z.eqb_eq in Est. destruct HU as [HU|[err ->]]; [contradiction|reflexivity].
Qed.

Lemma GetSitemap_nothing_reachable
      (depth : nat) (targetURL : string) (u : net_url.URL) (s : Net) :
  net_url.Parse targetURL = inr u ->
  Unreachable (authority u +:+ "/robots.txt") ->
  Forall Unreachable (fallback (authority u)) ->
  exists s' sent,
    GetSitemap (S depth) targetURL s
    = Some ((mkSitemapResult [] [] "No sitemap data found", nil), s')
    /\ extends s s' sent
    /\ urlsOf sent = (authority u +:+ "/robots.txt") :: fallback (authority u).
Proof.
  intros E HR HF. rewrite (GetSitemap_step _ _ _ _ E), aggregate_outcomes.
  rewrite (unreachable_robots _ _ HR).
  destruct (resolveEach_unreachable depth (fallback (authority u)) HF
              (afterRobots (authority u) s).2) as (os & s' & sent & -> & F & X & U).
  rewrite (kept_none _ F).
  exists s', ((authority u +:+ "/robots.txt", (afterRobots (authority u) s).1) :: sent).
  repeat split.
  - unfold extends in *. rewrite X. unfold afterRobots.
    destruct (http_Get _ _ _). simpl. now rewrite <- app_assoc.
  - simpl. now rewrite U.
Qed.

(** X6. When neither robots.txt nor any of the three fallback paths
    answers, GetSitemap sends four requests and no more: the one for
    robots.txt and one for each fallback path, in this order; it returns
    the result with the error string, and no error. *)
Theorem four_requests_when_nothing_answers
    (depth : nat) (targetURL : string) (u : net_url.URL) (s : Net) :
  net_url.Parse targetURL = inr u ->
  Unreachable (authority u +:+ "/robots.txt") ->
  Forall Unreachable (fallback (authority u)) ->
  exists s' sent,
    GetSitemap (S depth) targetURL s
    = Some ((mkSitemapResult [] [] "No sitemap data found", nil), s')
    /\ extends s s' sent
    /\ urlsOf sent
       = [authority u +:+ "/robots.txt"; authority u +:+ "/sitemap.xml";
          authority u +:+ "/sitemap_index.xml"; authority u +:+ "/sitemaps.xml"].
Proof. exact (GetSitemap_nothing_reachable depth targetURL u s). Qed.

End MoreResolver.

(** ** Runs of the resolver *)
Section MoreRuns.
Import Example Sites.

(** X1 on the page of [orphaned] that answers 404 *)
Lemma processSitemap_error_witness :
  @processSitemap (staticWeb orphaned) 1 "https://a.example/gone2.xml" (start orphaned)
  = Some (([], Some (fmt_Errorf_d "sitemap not found: %d" 404)),
          @mkNet (staticWeb orphaned) latency
                 [("https://a.example/gone2.xml", Reply 404 (inr "not found"))])
  /\ exists resp,
      [("https://a.example/gone2.xml", Reply 404 (inr "not found"))]
      = [] ++ [("https://a.example/gone2.xml", resp)].
Proof.
  split; [reflexivity|].
  exact (proj2 (@processSitemap_error (staticWeb orphaned) 1 "https://a.example/gone2.xml"
                  (start orphaned) _ [] _ eq_refl)).
Defined.

Lemma twice_index :
  @ServesIndex (staticWeb twice) "https://a.example/index.xml"
               ["https://a.example/leaf.xml"; "https://a.example/leaf.xml"].
Proof.
  apply page_serves_index
    with (body := indexDoc ["https://a.example/leaf.xml"; "https://a.example/leaf.xml"]);
    reflexivity.
Qed.

Lemma twice_leaf :
  @ServesLeaf (staticWeb twice) "https://a.example/leaf.xml" twiceEntries.
Proof.
  apply page_serves_leaf
    with (body := urlsetDoc ["https://a.example/1"; "https://a.example/2"]);
    [reflexivity|split; reflexivity].
Qed.

(** X2 on [twice] *)
Lemma index_of_leaves_witness :
  exists s' sent,
    @processSitemap (staticWeb twice) 2 "https://a.example/index.xml" (start twice)
    = Some (([entry "https://a.example/leaf.xml" "https://a.example/1";
              entry "https://a.example/leaf.xml" "https://a.example/2";
              entry "https://a.example/leaf.xml" "https://a.example/1";
              entry "https://a.example/leaf.xml" "https://a.example/2"], nil), s')
    /\ extends (start twice) s' sent
    /\ urlsOf sent = ["https://a.example/index.xml"; "https://a.example/leaf.xml";
                      "https://a.example/leaf.xml"].
Proof.
  exact (@index_of_leaves (staticWeb twice) "https://a.example/index.xml"
           ["https://a.example/leaf.xml"; "https://a.example/leaf.xml"]
           [twiceEntries; twiceEntries] twice_index
           ltac:(repeat constructor; exact twice_leaf)
           0%nat (start twice)).
Defined.

Lemma staticWeb_static (site : Site) : @Static (staticWeb site).
Proof.
  intros t u w w'. simpl. unfold get. destruct (page site u) as [[st body]|]; reflexivity.
Qed.

(** X3 on [twoLevel] *)
Lemma resolution_repeatable_witness :
  exists r s1 s2,
    @GetSitemap (staticWeb twoLevel) 3 target (start twoLevel) = Some (r, s1)
    /\ @GetSitemap (staticWeb twoLevel) 3 target s1 = Some (r, s2).
Proof.
  pose proof (proj2 (proj2 (@resolution_repeatable (staticWeb twoLevel)
                              (staticWeb_static twoLevel)))
                    3%nat target (start twoLevel)) as R.
  destruct (@GetSitemap (staticWeb twoLevel) 3 target (start twoLevel))
    as [[r s1]|] eqn:E; [|vm_compute in E; discriminate].
  destruct (R r s1 eq_refl) as [s2 E2].
  exists r, s1, s2. split; [reflexivity|exact E2].
Defined.

(** X4 on two targets of the same site *)
Lemma same_authority_same_run_witness :
  net_url.Parse target = inr targetParsed
  /\ net_url.Parse sameAuthority = inr sameAuthorityParsed
  /\ authority targetParsed = authority sameAuthorityParsed
  /\ @GetSitemap (staticWeb twoLevel) 3 target (start twoLevel)
     = @GetSitemap (staticWeb twoLevel) 3 sameAuthority (start twoLevel).
Proof.
  split; [reflexivity|]. split; [reflexivity|]. split; [reflexivity|].
  exact (@same_authority_same_run (staticWeb twoLevel) 3 target sameAuthority
           targetParsed sameAuthorityParsed (start twoLevel) eq_refl eq_refl eq_refl).
Defined.

(** X5 on [twoLevel] *)
Lemma result_shape_witness :
  exists res s',
    @GetSitemap (staticWeb twoLevel) 3 target (start twoLevel) = Some ((res, nil), s')
    /\ sublist (Sitemaps res) ["https://a.example/root.xml"]
    /\ (length (Sitemaps res) <= length (URLs res))%nat
    /\ (Sitemaps res = [] <-> URLs res = [])
    /\ (Sitemaps res = [] <-> Error res = "No sitemap data found").
Proof.
  eexists. eexists. split; [vm_compute; reflexivity|].
  exact (@result_shape (staticWeb twoLevel) 3 target targetParsed (start twoLevel)
           _ _ _ eq_refl eq_refl).
Defined.

(** X6 where nothing answers *)
Lemma four_requests_when_nothing_answers_witness :
  net_url.Parse target = inr targetParsed
  /\ exists s' sent,
      @GetSitemap (staticWeb deadWeb) 1 target (start deadWeb)
      = Some ((mkSitemapResult [] [] "No sitemap data found", nil), s')
      /\ extends (start deadWeb) s' sent
      /\ urlsOf sent
         = ["https://a.example/robots.txt"; "https://a.example/sitemap.xml";
            "https://a.example/sitemap_index.xml"; "https://a.example/sitemaps.xml"].
Proof.
  split; [reflexivity|].
  apply (@four_requests_when_nothing_answers (staticWeb deadWeb) 0 target targetParsed
           (start deadWeb) eq_refl).
  - apply page_unreachable. exact I.
  - repeat (constructor; [apply page_unreachable; exact I|]). constructor.
Defined.

End MoreRuns.

(** ** Authentication *)
Section Authentication.
Context `{Runtime}.
Import go_subtle.

Lemma code_range (a : ascii) : 0 <= code a < 256.
Proof.
  unfold code. pose proof (N_ascii_bounded a) as B. lia.
Qed.

Lemma code_inj (a b : ascii) : code a = code b -> a = b.
Proof.
  unfold code. intros E. apply N2Z.inj in E.
  rewrite <- (ascii_N_embedding a), <- (ascii_N_embedding b). now rewrite E.
Qed.

Lemma lor_bound (a b : Z) : 0 <= a < 256 -> 0 <= b < 256 -> 0 <= Z.lor a b < 256.
Proof.
  intros Ha Hb. split; [apply Z.lor_nonneg; lia|].
  destruct (Z.eq_dec (Z.lor a b) 0) as [->|N]; [lia|].
  assert (P : 0 < Z.lor a b) by (pose proof (proj2 (Z.lor_nonneg a b)); lia).
  change 256 with (2 ^ 8). apply Z.log2_lt_pow2; [exact P|].
  rewrite Z.log2_lor by lia.
  assert (La : Z.log2 a < 8).
  { destruct (Z.eq_dec a 0) as [->|]; [reflexivity|]. apply Z.log2_lt_pow2; lia. }
  assert (Lb : Z.log2 b < 8).
  { destruct (Z.eq_dec b 0) as [->|]; [reflexivity|]. apply Z.log2_lt_pow2; lia. }
  lia.
Qed.

Lemma lxor_bound (a b : Z) : 0 <= a < 256 -> 0 <= b < 256 -> 0 <= Z.lxor a b < 256.
Proof.
  intros Ha Hb. split; [apply Z.lxor_nonneg; lia|].
  destruct (Z.eq_dec (Z.lxor a b) 0) as [->|N]; [lia|].
  assert (P : 0 < Z.lxor a b) by (pose proof (proj2 (Z.lxor_nonneg a b)); lia).
  change 256 with (2 ^ 8). apply Z.log2_lt_pow2; [exact P|].
  pose proof (Z.log2_lxor a b ltac:(lia) ltac:(lia)) as L.
  assert (La : Z.log2 a < 8).
  { destruct (Z.eq_dec a 0) as [->|]; [reflexivity|]. apply Z.log2_lt_pow2; lia. }
  assert (Lb : Z.log2 b < 8).
  { destruct (Z.eq_dec b 0) as [->|]; [reflexivity|]. apply Z.log2_lt_pow2; lia. }
  lia.
Qed.

Lemma orXor_bound (x : string) :
  forall y v, 0 <= v < 256 -> 0 <= orXor v x y < 256.
Proof.
  induction x as [|a x IH]; intros [|b y] v Hv; simpl; try exact Hv.
  apply IH. apply lor_bound; [exact Hv|].
  apply lxor_bound; apply code_range.
Qed.

Lemma orXor_zero (x : string) :
  forall y v, String.length x = String.length y -> 0 <= v < 256 ->
              (orXor v x y = 0 <-> v = 0 /\ x = y).
Proof.
  induction x as [|a x IH]; intros [|b y] v L Hv; simpl in *; try discriminate.
  - split; [now intros ->|now intros [-> _]].
  - injection L as L.
    rewrite (IH y _ L)
      by (apply lor_bound; [exact Hv|apply lxor_bound; apply code_range]).
    rewrite Z.lor_eq_0_iff. split.
    + intros [[-> X] ->]. apply Z.lxor_eq in X. apply code_inj in X. now subst.
    + intros [-> [= -> ->]]. now rewrite Z.lxor_nilpotent.
Qed.

Lemma ConstantTimeByteEq_zero (v : Z) :
  0 <= v < 256 -> (ConstantTimeByteEq v 0 = 1 <-> v = 0).
Proof.
  intros Hv. unfold ConstantTimeByteEq. rewrite Z.lxor_0_r. split.
  - intros E. destruct (Z.eq_dec v 0) as [|N]; [assumption|].
    rewrite Z.mod_small in E by lia.
    rewrite Z.shiftr_div_pow2 in E by lia.
    rewrite Z.div_small in E by lia. discriminate.
  - intros ->. reflexivity.
Qed.

(** [subtle.ConstantTimeCompare] returns 1 exactly on equal strings *)
Lemma ConstantTimeCompare_eq (x y : string) :
  ConstantTimeCompare x y = 1 <-> x = y.
Proof.
  unfold ConstantTimeCompare, len.
  destruct (Z.eqb_spec (Z.of_nat (String.length x)) (Z.of_nat (String.length y)))
    as [L|L]; simpl.
  - apply Nat2Z.inj in L.
    rewrite (ConstantTimeByteEq_zero _ (orXor_bound x y 0 ltac:(lia))).
    rewrite (orXor_zero x y 0 L) by lia. tauto.
  - split; [discriminate|]. intros ->. contradiction.
Qed.

Lemma ConstantTimeCompare_eqb (x y : string) :
  (ConstantTimeCompare x y =? 1) = String.eqb x y.
Proof.
  destruct (String.eqb_spec x y) as [E|N].
  - apply Z.eqb_eq. now apply ConstantTimeCompare_eq.
  - apply Z.eqb_neq. intros E. now apply ConstantTimeCompare_eq in E.
Qed.

Lemma basicAuth_decision (cfg : config) (next : HandlerFunc) (r : HTTPRequest)
      (c : go_cache.Cache) (s : Net) :
  basicAuth cfg next r c s
  = match BasicAuth r with
    | Some (u, p) =>
        if String.eqb u (username cfg) && String.eqb p (password cfg)
        then next r c s else Some ((unauthorized, c), s)
    | None => Some ((unauthorized, c), s)
    end.
Proof.
  unfold basicAuth. destruct (BasicAuth r) as [[u p]|]; [|reflexivity].
  rewrite !ConstantTimeCompare_eqb.
  destruct (String.eqb u (username cfg)), (String.eqb p (password cfg)); reflexivity.
Qed.

(** X9. basicAuth calls the wrapped handler exactly for the requests that
    carry the configured user name and password, byte for byte.  Every
    other request, with no credentials or with others, is answered 401
    with the [WWW-Authenticate] challenge and the text [Unauthorized]; the
    wrapped handler is not run for it, so the cache and the network are as
    they were. *)
Theorem basicAuth_checks_credentials
    (cfg : config) (next : HandlerFunc) (r : HTTPRequest)
    (c : go_cache.Cache) (s : Net) :
  (BasicAuth r = Some (username cfg, password cfg) ->
   basicAuth cfg next r c s = next r c s)
  /\ (BasicAuth r <> Some (username cfg, password cfg) ->
      basicAuth cfg next r c s = Some ((unauthorized, c), s)
      /\ status unauthorized = 401
      /\ go_http.Get "WWW-Authenticate" (Header unauthorized) = restricted
      /\ payload unauthorized = text ("Unauthorized" +:+ String (byte 10) "")).
Proof.
  rewrite basicAuth_decision. split.
  - intros ->. now rewrite !String.eqb_refl.
  - intros N. split; [|repeat split].
    destruct (BasicAuth r) as [[u p]|]; [|reflexivity].
    destruct (String.eqb_spec u (username cfg)) as [->|]; [|reflexivity].
    destruct (String.eqb_spec p (password cfg)) as [->|]; [|reflexivity].
    contradiction.
Qed.

(** X10. The handler [main] registers.  Authentication is on only when
    both a user name and a password are configured: with one of them
    empty, every request is served by handleGetSitemap, whatever
    credentials it carries or lacks.  With both set, a request without the
    configured credentials is answered 401 before its method or body is
    looked at. *)
Theorem registered_handler
    (cfg : config) (depth : nat) (r : HTTPRequest) (c : go_cache.Cache) (s : Net) :
  (username cfg = "" \/ password cfg = "" ->
   registered cfg depth r c s = handler depth r c s)
  /\ (username cfg <> "" -> password cfg <> "" ->
      (BasicAuth r = Some (username cfg, password cfg) ->
       registered cfg depth r c s = handler depth r c s)
      /\ (BasicAuth r <> Some (username cfg, password cfg) ->
          registered cfg depth r c s = Some ((unauthorized, c), s))).
Proof.
  unfold registered. split.
  - intros [-> | ->]; [reflexivity|]. now rewrite andb_false_r.
  - intros Hu Hp.
    destruct (String.eqb_spec (username cfg) ""); [contradiction|].
    destruct (String.eqb_spec (password cfg) ""); [contradiction|].
    simpl. rewrite basicAuth_decision. split.
    + intros ->. now rewrite !String.eqb_refl.
    + intros N. destruct (BasicAuth r) as [[u p]|]; [|reflexivity].
      destruct (String.eqb_spec u (username cfg)) as [->|]; [|reflexivity].
      destruct (String.eqb_spec p (password cfg)) as [->|]; [|reflexivity].
      contradiction.
Qed.

End Authentication.

(** ** The request handler *)
Section Requests.
Context `{Runtime}.

(** the cache the lookup is made in *)
Lemma handleGetSitemap_post (depth : nat) (url : string) (refresh : bool)
      (c : go_cache.Cache) (s : Net) :
  url <> "" ->
  handleGetSitemap depth (post url refresh) c s
  = let c1 := if refresh then go_cache.Delete url c else c in
    match go_cache.Get (time_Now (world s)) url c1 with
    | Some cachedData => Some ((http_StatusOK, sitemap cachedData, c1), s)
    | None =>
        match GetSitemap depth url s with
        | Some ((sitemapData, None), s1) =>
            Some ((http_StatusOK, sitemap sitemapData,
                   go_cache.Set_ (time_Now (world s1)) url sitemapData
                                 go_cache.DefaultExpiration c1), s1)
        | Some ((_, Some err), s1) =>
            Some ((http_StatusInternalServerError, error_of err, c1), s1)
        | None => None
        end
    end.
Proof.
  intros Hurl. cbv zeta.
  destruct (go_cache.Get (time_Now (world s)) url
                         (if refresh then go_cache.Delete url c else c))
    as [cachedData|] eqn:G.
  - unfold handleGetSitemap, post. simpl.
    destruct (String.eqb_spec url ""); [contradiction|].
    unfold bind, now. now rewrite G.
  - now apply handleGetSitemap_miss.
Qed.

(** the requests the handler turns away before it reads the cache *)
Lemma handleGetSitemap_cases (depth : nat) (r : Request) :
  (Method r <> http_MethodPost
   /\ forall c s,
       handleGetSitemap depth r c s
       = Some ((http_StatusMethodNotAllowed, error_text "Method not allowed", c), s))
  \/ (Method r = http_MethodPost
      /\ (exists e, Body r = inl e)
      /\ forall c s,
          handleGetSitemap depth r c s
          = Some ((http_StatusBadRequest, error_text "Invalid JSON", c), s))
  \/ (Method r = http_MethodPost
      /\ (exists refresh, Body r = inr (mkSitemapRequest "" refresh))
      /\ forall c s,
          handleGetSitemap depth r c s
          = Some ((http_StatusBadRequest, error_text "URL is required", c), s))
  \/ (exists url refresh, url <> "" /\ r = post url refresh).
Proof.
  destruct r as [m b]. unfold handleGetSitemap. simpl.
  destruct (String.eqb_spec m http_MethodPost) as [->|N]; [|left; now split].
  right. destruct b as [e|[url refresh]]; simpl.
  - left. split; [reflexivity|]. split; [now exists e|reflexivity].
  - right. destruct (String.eqb_spec url "") as [->|N].
    + left. split; [reflexivity|]. split; [now exists refresh|reflexivity].
    + right. now exists url, refresh.
Qed.

(** X11. A request answered with another status than 200 leaves no
    trace outside the cache: nothing is sent for it.  405 is for a method
    other than POST, 400 for a body that does not decode or has no URL,
    both before the cache is touched; 500 is the answer exactly to a URL
    that url.Parse rejects, and carries its error: then nothing is stored,
    and an entry is gone only when the request asked for a refresh. *)
Theorem handler_errors_leave_no_trace
    (depth : nat) (r : Request) (c c' : go_cache.Cache) (s s' : Net)
    (st : Z) (msg : Message) :
  handleGetSitemap depth r c s = Some ((st, msg, c'), s') ->
  st <> http_StatusOK ->
  s' = s
  /\ ((st = 405 /\ Method r <> "POST" /\ msg = error_text "Method not allowed" /\ c' = c)
      \/ (st = 400 /\ Method r = "POST" /\ c' = c
          /\ ((exists e, Body r = inl e) /\ msg = error_text "Invalid JSON"
              \/ (exists refresh, Body r = inr (mkSitemapRequest "" refresh))
                 /\ msg = error_text "URL is required"))
      \/ (st = 500 /\ Method r = "POST"
          /\ exists req e,
              Body r = inr req /\ net_url.Parse (URL req) = inl e /\ msg = error_of e
              /\ c' = if RefreshCache req then go_cache.Delete (URL req) c else c)).
Proof.
  intros E Hst.
  destruct (handleGetSitemap_cases depth r)
    as [[Hm E']|[(Hm & Hb & E')|[(Hm & Hb & E')|(url & refresh & Hurl & ->)]]].
  - rewrite E' in E. injection E as <- <- <- <-. split; [reflexivity|]. left. auto.
  - rewrite E' in E. injection E as <- <- <- <-. split; [reflexivity|].
    right; left. auto 6.
  - rewrite E' in E. injection E as <- <- <- <-. split; [reflexivity|].
    right; left. auto 6.
  - rewrite (handleGetSitemap_post _ _ _ _ _ Hurl) in E. cbv zeta in E.
    destruct (go_cache.Get _ _ _) as [cachedData|].
    { injection E as <- _ _ _. contradiction. }
    destruct (net_url.Parse url) as [e|u] eqn:P.
    + rewrite (GetSitemap_malformed _ _ _ _ P) in E. injection E as <- <- <- <-.
      split; [reflexivity|]. right; right.
      split; [reflexivity|]. split; [reflexivity|].
      exists (mkSitemapRequest url refresh), e. auto.
    + destruct (GetSitemap depth url s) as [[[res err] s1]|] eqn:G; [|discriminate].
      destruct (GetSitemap_accepted _ _ _ _ _ _ _ P G) as [-> _].
      injection E as <- _ _ _. contradiction.
Qed.

Lemma Set_live (t : Z) (k : string) (x : SitemapResult) (d : Z) (c : go_cache.Cache) :
  go_cache.Get t k (go_cache.Set_ t k x d c) = Some x.
Proof.
  unfold go_cache.Get, go_cache.Set_. simpl. rewrite lookup_insert_eq.
  unfold go_cache.Expired. simpl.
  destruct (d =? go_cache.DefaultExpiration);
    [destruct (0 <? go_cache.defaultExpiration c) eqn:P|destruct (0 <? d) eqn:P];
    try reflexivity; apply Z.ltb_lt in P;
    (replace (t + _ <? t) with false by (symmetry; apply Z.ltb_ge; lia));
    now rewrite andb_false_r.
Qed.

(** X12. After a request answered 200 the cache holds the data of the
    answer under the URL of the request, not expired at the time of the
    answer: the answer is always a result, either the one the cache had or
    the one just stored. *)
Theorem handler_answer_is_cached
    (depth : nat) (r : Request) (c c' : go_cache.Cache) (s s' : Net) (msg : Message) :
  handleGetSitemap depth r c s = Some ((http_StatusOK, msg, c'), s') ->
  exists req data,
    Body r = inr req /\ URL req <> "" /\ msg = sitemap data
    /\ go_cache.Get (time_Now (world s')) (URL req) c' = Some data.
Proof.
  intros E.
  destruct (handleGetSitemap_cases depth r)
    as [[Hm E']|[(Hm & Hb & E')|[(Hm & Hb & E')|(url & refresh & Hurl & ->)]]];
    try (rewrite E' in E; discriminate).
  rewrite (handleGetSitemap_post _ _ _ _ _ Hurl) in E. cbv zeta in E.
  exists (mkSitemapRequest url refresh). simpl.
  destruct (go_cache.Get _ _ _) as [cachedData|] eqn:G.
  - injection E as <- <- <-. exists cachedData. auto.
  - destruct (GetSitemap depth url s) as [[[res [err|]] s1]|]; try discriminate.
    injection E as <- <- <-. exists res.
    split; [reflexivity|]. split; [exact Hurl|]. split; [reflexivity|].
    apply Set_live.
Qed.

(** X13. A request changes at most one entry of the cache, the one under
    its URL, and never the default expiration. *)
Theorem handler_touches_one_key
    (depth : nat) (r : Request) (c c' : go_cache.Cache) (s s' : Net)
    (st : Z) (msg : Message) :
  handleGetSitemap depth r c s = Some ((st, msg, c'), s') ->
  go_cache.defaultExpiration c' = go_cache.defaultExpiration c
  /\ forall k, (forall req, Body r = inr req -> k <> URL req) ->
               go_cache.items c' !! k = go_cache.items c !! k.
Proof.
  intros E.
  destruct (handleGetSitemap_cases depth r)
    as [[Hm E']|[(Hm & Hb & E')|[(Hm & Hb & E')|(url & refresh & Hurl & ->)]]];
    try (rewrite E' in E; injection E as <- <- <- <-; split; auto).
  rewrite (handleGetSitemap_post _ _ _ _ _ Hurl) in E. cbv zeta in E.
  assert (D : go_cache.defaultExpiration (if refresh then go_cache.Delete url c else c)
              = go_cache.defaultExpiration c) by (destruct refresh; reflexivity).
  assert (F : forall k, k <> url ->
                go_cache.items (if refresh then go_cache.Delete url c else c) !! k
                = go_cache.items c !! k).
  { intros k N. destruct refresh; [|reflexivity]. simpl. now apply lookup_delete_ne. }
  assert (K : forall k, (forall req, @Body (post url refresh) = inr req -> k <> URL req) ->
                        k <> url).
  { intros k Hk. exact (Hk _ eq_refl). }
  destruct (go_cache.Get _ _ _) as [cachedData|].
  - injection E as <- <- <- <-. split; [exact D|]. intros k Hk. apply F, K, Hk.
  - destruct (GetSitemap depth url s) as [[[res [err|]] s1]|]; try discriminate;
      injection E as <- <- <- <-.
    + split; [exact D|]. intros k Hk. apply F, K, Hk.
    + split; [exact D|]. intros k Hk. simpl.
      rewrite lookup_insert_ne by (apply not_eq_sym, K, Hk). apply F, K, Hk.
Qed.

End Requests.

(** ** The cache between requests *)
Section Janitor.
Context `{Runtime}.

Lemma expired_later (t t' : Z) (item : go_cache.Item) :
  t' <= t -> go_cache.Expired t' item = true -> go_cache.Expired t item = true.
Proof.
  unfold go_cache.Expired. intros Ht E.
  apply andb_true_iff in E as [P Q]. apply Z.ltb_lt in Q.
  rewrite P. apply Z.ltb_lt. lia.
Qed.

Lemma Get_after_DeleteExpired (t t' : Z) (k : string) (c : go_cache.Cache) :
  t' <= t -> go_cache.Get t k (go_cache.DeleteExpired t' c) = go_cache.Get t k c.
Proof.
  intros Ht. unfold go_cache.Get.
  destruct (go_cache.items c !! k) as [item|] eqn:L.
  - destruct (go_cache.Expired t' item) eqn:E.
    + assert (N : go_cache.items (go_cache.DeleteExpired t' c) !! k = None).
      { apply map_lookup_filter_None. right. intros x Lx. simpl.
        rewrite L in Lx. injection Lx as <-. now rewrite E. }
      rewrite N. now rewrite (expired_later t t' item Ht E).
    + now rewrite (Get_DeleteExpired t' k c item L E).
  - assert (N : go_cache.items (go_cache.DeleteExpired t' c) !! k = None).
    { apply map_lookup_filter_None. now left. }
    now rewrite N.
Qed.

Lemma Get_after_swept (t : Z) (k : string) (times : list Z) :
  Forall (fun t' => t' <= t) times ->
  forall c, go_cache.Get t k (swept times c) = go_cache.Get t k c.
Proof.
  induction 1 as [|t' times Hle _ IH]; intros c; [reflexivity|].
  simpl. rewrite IH. now apply Get_after_DeleteExpired.
Qed.

Lemma Get_Delete (t : Z) (k k' : string) (c : go_cache.Cache) :
  go_cache.Get t k (go_cache.Delete k' c)
  = if String.eqb k k' then None else go_cache.Get t k c.
Proof.
  unfold go_cache.Get, go_cache.Delete. simpl.
  destruct (String.eqb_spec k k') as [->|N].
  - now rewrite lookup_delete_eq.
  - now rewrite lookup_delete_ne by (now apply not_eq_sym).
Qed.

(** the handler reads the cache only through [Get] at the time of the
    request *)
Lemma handler_reads_live_entries (depth : nat) (r : Request) (c1 c2 : go_cache.Cache)
      (s : Net) :
  (forall k, go_cache.Get (time_Now (world s)) k c1
             = go_cache.Get (time_Now (world s)) k c2) ->
  observed (handleGetSitemap depth r c1 s) = observed (handleGetSitemap depth r c2 s).
Proof.
  intros Hget.
  destruct (handleGetSitemap_cases depth r)
    as [[Hm E]|[(Hm & Hb & E)|[(Hm & Hb & E)|(url & refresh & Hurl & ->)]]];
    try (rewrite !E; reflexivity).
  rewrite !(handleGetSitemap_post _ _ _ _ _ Hurl). cbv zeta.
  assert (G : go_cache.Get (time_Now (world s)) url
                (if refresh then go_cache.Delete url c1 else c1)
              = go_cache.Get (time_Now (world s)) url
                  (if refresh then go_cache.Delete url c2 else c2)).
  { destruct refresh; [|apply Hget]. now rewrite !Get_Delete, String.eqb_refl. }
  rewrite G. clear G.
  destruct (go_cache.Get (time_Now (world s)) url
                         (if refresh then go_cache.Delete url c2 else c2))
    as [cachedData|]; [reflexivity|].
  destruct (GetSitemap depth url s) as [[[res [err|]] s1]|]; reflexivity.
Qed.

(** X14. The janitor is invisible.  Whenever it ran before a request,
    and however often, removing the entries expired at those times, the
    answer to the request and the requests sent for it are the same as
    without it. *)
Theorem janitor_is_invisible
    (depth : nat) (r : Request) (c : go_cache.Cache) (s : Net) (times : list Z) :
  Forall (fun t => t <= time_Now (world s)) times ->
  observed (handleGetSitemap depth r (swept times c) s)
  = observed (handleGetSitemap depth r c s).
Proof.
  intros Ht. apply handler_reads_live_entries.
  intros k. now apply Get_after_swept.
Qed.

(** X15. For a URL that url.Parse accepts and that has no live entry, a
    request with refresh is the same as one without: the same answer, the
    same requests, the same cache afterwards, also when an expired entry
    was still there. *)
Theorem refresh_without_entry
    (depth : nat) (url : string) (u : net_url.URL) (c : go_cache.Cache) (s : Net) :
  url <> "" ->
  net_url.Parse url = inr u ->
  go_cache.Get (time_Now (world s)) url c = None ->
  handleGetSitemap depth (post url true) c s = handleGetSitemap depth (post url false) c s.
Proof.
  intros Hurl P G. rewrite !(handleGetSitemap_post _ _ _ _ _ Hurl). cbv zeta.
  rewrite Get_Delete, String.eqb_refl, G.
  destruct (GetSitemap depth url s) as [[[res err] s1]|] eqn:E; [|reflexivity].
  destruct (GetSitemap_accepted _ _ _ _ _ _ _ P E) as [-> _].
  unfold go_cache.Set_, go_cache.Delete. simpl. now rewrite insert_delete_eq.
Qed.

End Janitor.

(** ** What the cache holds *)
Section Invariant.
Context `{Runtime}.

Lemma CacheOK_init : CacheOK sitemapCache_init.
Proof.
  split; [reflexivity|]. intros k item L. simpl in L.
  rewrite lookup_empty in L. discriminate.
Qed.

Lemma CacheOK_DeleteExpired (t : Z) (c : go_cache.Cache) :
  CacheOK c -> CacheOK (go_cache.DeleteExpired t c).
Proof.
  intros [D I]. split; [exact D|]. intros k item L. simpl in L.
  apply map_lookup_filter_Some in L as [L _]. exact (I k item L).
Qed.

Lemma CacheOK_Delete (k : string) (c : go_cache.Cache) :
  CacheOK c -> CacheOK (go_cache.Delete k c).
Proof.
  intros [D I]. split; [exact D|]. intros k' item L. simpl in L.
  apply lookup_delete_Some in L as [_ L]. exact (I k' item L).
Qed.

Lemma CacheOK_handler (depth : nat) (r : Request) (c c' : go_cache.Cache) (s s' : Net)
      (response : Z * Message) :
  CacheOK c -> handleGetSitemap depth r c s = Some ((response, c'), s') -> CacheOK c'.
Proof.
  intros OK E.
  destruct (handleGetSitemap_cases depth r)
    as [[Hm E']|[(Hm & Hb & E')|[(Hm & Hb & E')|(url & refresh & Hurl & ->)]]];
    try (rewrite E' in E; injection E as _ <- _; exact OK).
  rewrite (handleGetSitemap_post _ _ _ _ _ Hurl) in E. cbv zeta in E.
  assert (OK1 : CacheOK (if refresh then go_cache.Delete url c else c)).
  { destruct refresh; [now apply CacheOK_Delete|exact OK]. }
  destruct (go_cache.Get _ _ _) as [cachedData|].
  { injection E as _ <- _. exact OK1. }
  destruct (net_url.Parse url) as [e|u] eqn:P.
  - rewrite (GetSitemap_malformed _ _ _ _ P) in E. injection E as _ <- _. exact OK1.
  - destruct (GetSitemap depth url s) as [[[res err] s1]|] eqn:G; [|discriminate].
    destruct (GetSitemap_accepted _ _ _ _ _ _ _ P G) as [-> R].
    injection E as _ <- _. destruct OK1 as [D I].
    split; [exact D|]. intros k item L. simpl in L.
    destruct (decide (k = url)) as [->|N].
    + rewrite lookup_insert_eq in L. injection L as <-. simpl.
      split; [exact Hurl|]. split; [now exists u|exact R].
    + rewrite lookup_insert_ne in L by (now apply not_eq_sym). exact (I k item L).
Qed.

Lemma Reachable_CacheOK (c : go_cache.Cache) : Reachable c -> CacheOK c.
Proof.
  induction 1 as [|depth r c s response c' s' _ IH E|t c _ IH].
  - apply CacheOK_init.
  - exact (CacheOK_handler _ _ _ _ _ _ _ IH E).
  - now apply CacheOK_DeleteExpired.
Qed.

(** X16. Whatever requests were served before, and whenever the janitor
    ran, a result sent with status 200 is one GetSitemap built: its error
    string is [No sitemap data found] when it has no entry and empty
    otherwise, also when it comes from the cache. *)
Theorem served_results_are_well_formed
    (depth : nat) (r : Request) (c c' : go_cache.Cache) (s s' : Net)
    (st : Z) (data : SitemapResult) :
  Reachable c ->
  handleGetSitemap depth r c s = Some ((st, sitemap data, c'), s') ->
  st = 200
  /\ data = resultOf (URLs data) (Sitemaps data)
  /\ (Error data = "No sitemap data found" <-> URLs data = []).
Proof.
  intros R E.
  assert (W : forall d : SitemapResult,
             d = resultOf (URLs d) (Sitemaps d) ->
             Error d = "No sitemap data found" <-> URLs d = []).
  { intros d ->. simpl. destruct (URLs d); split; intros; congruence. }
  destruct (handleGetSitemap_cases depth r)
    as [[Hm E']|[(Hm & Hb & E')|[(Hm & Hb & E')|(url & refresh & Hurl & ->)]]];
    try (rewrite E' in E; discriminate).
  rewrite (handleGetSitemap_post _ _ _ _ _ Hurl) in E. cbv zeta in E.
  pose proof (Reachable_CacheOK c R) as OK.
  assert (OK1 : CacheOK (if refresh then go_cache.Delete url c else c)).
  { destruct refresh; [now apply CacheOK_Delete|exact OK]. }
  destruct (go_cache.Get _ _ _) as [cachedData|] eqn:G.
  - injection E as <- <- _ _. unfold go_cache.Get in G.
    destruct (go_cache.items _ !! url) as [item|] eqn:L; [|discriminate].
    destruct (go_cache.Expired _ item); [discriminate|]. injection G as <-.
    destruct (proj2 OK1 url item L) as (_ & _ & S).
    split; [reflexivity|]. split; [exact S|exact (W _ S)].
  - destruct (net_url.Parse url) as [e|u] eqn:P.
    + rewrite (GetSitemap_malformed _ _ _ _ P) in E. discriminate.
    + destruct (GetSitemap depth url s) as [[[res err] s1]|] eqn:G'; [|discriminate].
      destruct (GetSitemap_accepted _ _ _ _ _ _ _ P G') as [-> S].
      injection E as <- <- _ _.
      split; [reflexivity|]. split; [exact S|exact (W _ S)].
Qed.

Lemma Delete_absent (k : string) (c : go_cache.Cache) :
  go_cache.items c !! k = None -> go_cache.Delete k c = c.
Proof.
  intros L. destruct c as [d m]. unfold go_cache.Delete. simpl in *.
  f_equal. now apply delete_id.
Qed.

(** X17. A URL that url.Parse rejects is never in the cache, so every
    request for it, with or without refresh and whatever was served
    before, is answered 500 with the error of url.Parse; nothing is sent
    and the cache stays as it is. *)
Theorem malformed_url_always_500
    (depth : nat) (url : string) (e : error) (refresh : bool)
    (c : go_cache.Cache) (s : Net) :
  Reachable c ->
  url <> "" ->
  net_url.Parse url = inl e ->
  go_cache.items c !! url = None
  /\ handleGetSitemap depth (post url refresh) c s
     = Some ((http_StatusInternalServerError, error_of e, c), s).
Proof.
  intros R Hurl P.
  assert (L : go_cache.items c !! url = None).
  { destruct (go_cache.items c !! url) as [item|] eqn:L; [|reflexivity].
    destruct (proj2 (Reachable_CacheOK c R) url item L) as (_ & [u Pu] & _).
    congruence. }
  split; [exact L|].
  rewrite (handleGetSitemap_post _ _ _ _ _ Hurl). cbv zeta.
  assert (C1 : (if refresh then go_cache.Delete url c else c) = c).
  { destruct refresh; [now apply Delete_absent|reflexivity]. }
  rewrite C1. unfold go_cache.Get. rewrite L.
  now rewrite (GetSitemap_malformed _ _ _ _ P).
Qed.

(** X18. A failure is cached like a success.  When neither robots.txt
    nor a fallback path answers, the request is answered 200 with the
    result that has only the error string, and that result is stored for
    the 24 hours: a request for the same URL within them, on whatever
    network, gets the same answer and sends nothing. *)
Theorem failure_is_cached
    (depth : nat) (url : string) (u : net_url.URL) (c : go_cache.Cache) (s : Net) :
  Reachable c ->
  url <> "" ->
  net_url.Parse url = inr u ->
  go_cache.Get (time_Now (world s)) url c = None ->
  Unreachable (authority u +:+ "/robots.txt") ->
  Forall Unreachable (fallback (authority u)) ->
  let nothing := mkSitemapResult [] [] "No sitemap data found" in
  exists c1 s1,
    handleGetSitemap (S depth) (post url false) c s
    = Some ((http_StatusOK, sitemap nothing, c1), s1)
    /\ length (requests s1) = (length (requests s) + 4)%nat
    /\ forall depth' s2,
        time_Now (world s2) <= time_Now (world s1) + 24 * time_Hour ->
        handleGetSitemap depth' (post url false) c1 s2
        = Some ((http_StatusOK, sitemap nothing, c1), s2).
Proof.
  intros R Hurl P G HR HF nothing.
  destruct (GetSitemap_nothing_reachable depth url u s P HR HF)
    as (s1 & sent & E & X & U).
  exists (go_cache.Set_ (time_Now (world s1)) url nothing go_cache.DefaultExpiration c), s1.
  split; [|split].
  - rewrite (handleGetSitemap_post _ _ _ _ _ Hurl). cbv zeta. now rewrite G, E.
  - unfold extends in X. rewrite X, length_app.
    assert (L : length sent = 4%nat).
    { unfold urlsOf in U. rewrite <- (length_map fst), U. reflexivity. }
    now rewrite L.
  - intros depth' s2 Ht. apply handleGetSitemap_hit; [exact Hurl|].
    unfold go_cache.Get, go_cache.Set_. simpl. rewrite lookup_insert_eq.
    rewrite (proj1 (Reachable_CacheOK c R)). unfold go_cache.Expired. simpl.
    replace (time_Now (world s1) + 24 * time_Hour <? time_Now (world s2)) with false
      by (symmetry; apply Z.ltb_ge; lia).
    now rewrite andb_false_r.
Qed.

End Invariant.

(** ** What robots.txt declares *)
Section Declared.
Context `{Runtime}.
Import go_regexp go_strings Robots.

Lemma within_refl (s : string) : within s s.
Proof. exists "", "". now rewrite append_nil_l, append_nil_r. Qed.

Lemma within_nil (s : string) : within "" s.
Proof. exists "", s. reflexivity. Qed.

Lemma within_trans (a b c : string) : within a b -> within b c -> within a c.
Proof.
  intros (p & q & ->) (p' & q' & ->). exists (p' +:+ p), (q +:+ q').
  now rewrite !append_assoc.
Qed.

Lemma within_cons (v s : string) (c : ascii) : within v s -> within v (String c s).
Proof. intros (a & b & ->). exists (String c a), b. reflexivity. Qed.

Lemma substring_prefix (m : nat) :
  forall s, exists b, s = String.substring 0 m s +:+ b.
Proof.
  induction m as [|m IH]; intros s.
  - exists s. destruct s; reflexivity.
  - destruct s as [|c s]; [now exists ""|].
    destruct (IH s) as [b E]. exists b. simpl. rewrite append_cons. now f_equal.
Qed.

Lemma substring_within (n m : nat) : forall s, within (String.substring n m s) s.
Proof.
  induction n as [|n IH]; intros s.
  - destruct (substring_prefix m s) as [b E]. exists "", b. exact E.
  - destruct s as [|c s]; [destruct m; apply within_refl|].
    simpl. apply within_cons, IH.
Qed.

Lemma slice_within (s : string) (i j : Z) : within (slice s i j) s.
Proof. apply substring_within. Qed.

Lemma TrimRightFunc_within (s : string) (f : Z -> bool) : within (TrimRightFunc s f) s.
Proof. apply slice_within. Qed.

Lemma TrimLeftFunc_within (s : string) (f : Z -> bool) : within (TrimLeftFunc s f) s.
Proof.
  unfold TrimLeftFunc. destruct (_ =? -1); [apply within_nil|apply slice_within].
Qed.

Lemma TrimSpace_within (s : string) : within (TrimSpace s) s.
Proof.
  unfold TrimSpace.
  destruct (scanStart _ s 0) as [start|start].
  - destruct (scanStop _ s start (len s)) as [stop|stop].
    + apply slice_within.
    + eapply within_trans; [apply TrimRightFunc_within|apply slice_within].
  - unfold TrimFunc.
    eapply within_trans; [apply TrimRightFunc_within|].
    eapply within_trans; [apply TrimLeftFunc_within|apply slice_within].
Qed.

Lemma noNewline_app (a b : string) :
  noNewline (a +:+ b) <-> noNewline a /\ noNewline b.
Proof.
  induction a as [|c a IH].
  - rewrite append_nil_l. split; [intros Hb; split; [constructor|exact Hb]|now intros [_ Hb]].
  - rewrite append_cons, !noNewline_cons, IH. tauto.
Qed.

Lemma noNewline_within (v s : string) : within v s -> noNewline s -> noNewline v.
Proof.
  intros (a & b & ->) Hs.
  apply noNewline_app in Hs as [_ Hs]. now apply noNewline_app in Hs as [Hv _].
Qed.

Lemma takeDots_dots (s : string) : noNewline (takeDots s).1.
Proof.
  induction s as [|c s IH]; [constructor|]. cbn [takeDots].
  destruct (dot c) eqn:D; [|constructor].
  destruct (takeDots s) as [a b]. simpl in *. apply noNewline_cons. split; [|exact IH].
  unfold dot in D. intros ->. now rewrite Ascii.eqb_refl in D.
Qed.

Lemma dotPlus_capture (s g rest : string) :
  dotPlus s = Some (g, rest) -> s = g +:+ rest /\ noNewline g.
Proof.
  destruct s as [|c s]; [discriminate|]. cbn [dotPlus].
  destruct (dot c); [|discriminate].
  pose proof (takeDots_suffix (String c s)) as T.
  pose proof (takeDots_dots (String c s)) as D.
  destruct (takeDots (String c s)) as [a b]. intros [= <- <-]. now split.
Qed.

Lemma spaces_dotPlus_capture (s : string) :
  forall g rest, spaces_dotPlus s = Some (g, rest) ->
                 (exists p, s = p +:+ g +:+ rest) /\ noNewline g.
Proof.
  induction s as [|c s IH]; intros g rest; [discriminate|].
  cbn [spaces_dotPlus].
  assert (D : dotPlus (String c s) = Some (g, rest) ->
              (exists p, String c s = p +:+ g +:+ rest) /\ noNewline g).
  { intros E. apply dotPlus_capture in E as [E N]. split; [now exists ""|exact N]. }
  destruct (perlSpace c); [|exact D].
  destruct (spaces_dotPlus s) as [[g' rest']|] eqn:E; [|exact D].
  intros [= -> ->]. destruct (IH _ _ eq_refl) as [[p ->] N].
  split; [now exists (String c p)|exact N].
Qed.

Lemma matchAt_capture (s g rest : string) :
  matchAt s = Some (g, rest) -> (exists p, s = p +:+ g +:+ rest) /\ noNewline g.
Proof.
  unfold matchAt. destruct (foldLiteral "sitemap:" s) as [r|] eqn:F; [|discriminate].
  intros E. apply spaces_dotPlus_capture in E as [[p ->] N].
  apply foldLiteral_suffix in F as [q ->].
  split; [|exact N]. exists (q +:+ p). now rewrite append_assoc.
Qed.

Lemma allMatches_captures (n : nat) :
  forall s, Forall (fun v => within v s /\ noNewline v)
                   (map (fun match_ => TrimSpace (nth 1 match_ "")) (allMatches n s)).
Proof.
  induction n as [|n IH]; intros s; [constructor|]. cbn [allMatches].
  destruct (matchAt s) as [[g rest]|] eqn:E.
  - apply matchAt_capture in E as [[p ->] N]. cbn [map nth]. constructor.
    + split.
      * eapply within_trans; [apply TrimSpace_within|]. now exists p, rest.
      * exact (noNewline_within _ _ (TrimSpace_within g) N).
    + eapply Forall_impl; [apply IH|]. intros v [W Nv]. split; [|exact Nv].
      eapply within_trans; [exact W|]. exists (p +:+ g), "".
      now rewrite append_nil_r, append_assoc.
  - destruct s as [|c s]; [constructor|].
    eapply Forall_impl; [apply IH|]. intros v [W Nv]. split; [|exact Nv].
    now apply within_cons.
Qed.

(** X7. Every value getSitemapURLsFromRobots returns was read from the
    body of a 200 answer to the request for robots.txt: it stands in the
    body as one piece and has no line feed in it.  With an error no value
    is returned. *)
Theorem robots_values_are_pieces_of_lines
    (baseURL : string) (s s' : Net) (values : list string) (err : option error) :
  getSitemapURLsFromRobots baseURL s = Some ((values, err), s') ->
  (err <> nil -> values = [])
  /\ forall v, In v values ->
       noNewline v
       /\ exists body w',
           http_Get (10 * time_Second) (baseURL +:+ "/robots.txt") (world s)
           = (Reply http_StatusOK (inr body), w')
           /\ within v body.
Proof.
  rewrite getSitemapURLsFromRobots_step. unfold afterRobots.
  destruct (http_Get (10 * time_Second) (baseURL +:+ "/robots.txt") (world s))
    as [resp w].
  destruct resp as [e|st body]; simpl.
  { intros [= <- <- _]. split; [reflexivity|]. intros v []. }
  destruct (Z.eqb_spec st http_StatusOK) as [->|N].
  2: { intros [= <- <- _]. split; [reflexivity|]. intros v []. }
  destruct body as [e|body].
  { intros [= <- <- _]. split; [reflexivity|]. intros v []. }
  intros [= <- <- _]. split; [intros N; now contradiction N|].
  intros v Hin.
  pose proof (allMatches_captures (S (String.length body)) body) as F.
  rewrite List.Forall_forall in F. destruct (F v Hin) as [W N].
  split; [exact N|]. now exists body, w.
Qed.

Lemma lowerByte_token (c : ascii) (r : string) :
  In (lowerByte c) (list_ascii_of_string token) ->
  stripAny (foldOrbit (lowerByte c)) (String c r) = Some r.
Proof.
  destruct c as [[] [] [] [] [] [] [] []]; vm_compute;
    intros Hin; try reflexivity;
    repeat (destruct Hin as [Hin|Hin]; [discriminate|]); destruct Hin.
Qed.

Lemma foldLiteral_any_case (lit : string) :
  Forall (fun c => In c (list_ascii_of_string token)) (list_ascii_of_string lit) ->
  forall t r, ToLower t = lit -> foldLiteral lit (t +:+ r) = Some r.
Proof.
  induction lit as [|c lit IH]; intros Hlit t r E.
  - destruct t; [reflexivity|discriminate].
  - destruct t as [|d t]; [discriminate|]. simpl in E. injection E as <- E.
    simpl in Hlit. inversion Hlit as [|? ? Hc Hl]; subst.
    rewrite append_cons. cbn [foldLiteral].
    rewrite (lowerByte_token d _ Hc). now apply IH.
Qed.

(** X8. The token is recognised in any mix of upper and lower case: a
    body of one line that starts with a spelling of [sitemap:] and has
    something after the token and the white space that follows it declares
    one value, the rest of the line with surrounding white space trimmed;
    what looks like a token further on in the line is part of the value. *)
Theorem robots_token_any_case (t r : string) :
  ToLower t = "sitemap:" -> noNewline r -> dropSpaces r <> "" ->
  valuesOf (t +:+ r) = [TrimSpace (dropSpaces r)].
Proof.
  intros Ht Hr Hv.
  assert (F : foldLiteral "sitemap:" (t +:+ r) = Some r).
  { apply foldLiteral_any_case; [|exact Ht].
    apply List.Forall_forall. intros c Hc. exact Hc. }
  assert (M : matchAt (t +:+ r) = Some (dropSpaces r, "")).
  { unfold matchAt. rewrite F. rewrite <- (append_nil_r r) at 1.
    apply spaces_dotPlus_line; [exact Hr|exact Hv|now left]. }
  rewrite (valuesOf_match _ _ _ M). reflexivity.
Qed.

End Declared.

(** ** Targets without a scheme *)
Section Schemeless.
Context `{Runtime}.
Import net_url go_strings.

Lemma ToLower_nil (s : string) : ToLower s = "" -> s = "".
Proof. destruct s; [reflexivity|discriminate]. Qed.

Lemma len_app (a b : string) : len (a +:+ b) = len a + len b.
Proof.
  unfold len. induction a as [|c a IH]; [rewrite append_nil_l; simpl; lia|].
  rewrite append_cons. simpl String.length. lia.
Qed.

Lemma sliceTo_nonempty (s : string) (i : Z) :
  0 < i -> s <> "" -> sliceTo s i <> "".
Proof.
  intros Hi Hs. unfold sliceTo, slice.
  destruct s as [|c s]; [contradiction|].
  destruct (Z.to_nat (i - 0)) as [|n] eqn:E; [lia|].
  simpl. discriminate.
Qed.

Lemma getScheme_from_schemeless (rawURL : string) :
  forall s p scheme rest,
    rawURL = p +:+ s ->
    getScheme_from rawURL s (len p) = inr (scheme, rest) ->
    scheme = "" -> rest = rawURL.
Proof.
  induction s as [|c s IH]; intros p scheme rest E; cbn [getScheme_from].
  - now intros [= <- <-].
  - assert (Step : rawURL = (p +:+ String c "") +:+ s)
      by (rewrite append_assoc; exact E).
    assert (L : len (p +:+ String c "") = len p + 1)
      by (rewrite len_app; reflexivity).
    destruct (isLetter c).
    + rewrite <- L. now apply IH.
    + destruct (isDigit c || oneOf "+-." c).
      * destruct (len p =? 0); [now intros [= <- <-]|]. rewrite <- L. now apply IH.
      * destruct (Ascii.eqb c ":"); [|now intros [= <- <-]].
        destruct (Z.eqb_spec (len p) 0) as [|N]; [discriminate|].
        intros [= <- <-] Hs. exfalso. revert Hs. apply sliceTo_nonempty.
        -- unfold len in *. lia.
        -- rewrite E. destruct p; [now contradiction N|discriminate].
Qed.

Lemma prefix_substring (p : string) :
  forall (s : string) (m : nat),
    String.prefix p (String.substring 0 m s) = true -> String.prefix p s = true.
Proof.
  induction p as [|a p IH]; intros s m; [destruct s; reflexivity|].
  destruct s as [|b s]; [destruct m; simpl; discriminate|].
  destruct m as [|m]; [simpl; discriminate|].
  simpl. destruct (Ascii.ascii_dec a b); [|discriminate].
  apply IH.
Qed.

Lemma HasPrefix_sliceTo (s p : string) (i : Z) :
  HasPrefix (sliceTo s i) p = true -> HasPrefix s p = true.
Proof. unfold HasPrefix, sliceTo, slice. apply prefix_substring. Qed.

Lemma HasPrefix_Cut (s sep p a b : string) (found : bool) :
  Cut s sep = (a, b, found) -> HasPrefix a p = true -> HasPrefix s p = true.
Proof.
  unfold Cut. destruct (0 <=? Index s sep).
  - intros [= <- _ _]. apply HasPrefix_sliceTo.
  - now intros [= <- _ _].
Qed.

Lemma setPath_keeps (p : string) (u u' : URL) :
  setPath p u = inr u' -> Scheme u' = Scheme u /\ Host u' = Host u.
Proof.
  unfold setPath. destruct (unescape p encodePath); [discriminate|].
  intros [= <-]. split; reflexivity.
Qed.

Lemma setFragment_keeps (f : string) (u u' : URL) :
  setFragment f u = inr u' -> Scheme u' = Scheme u /\ Host u' = Host u.
Proof.
  unfold setFragment. destruct (unescape f encodeFragment); [discriminate|].
  intros [= <-]. split; reflexivity.
Qed.

Lemma parse_schemeless (rawURL : string) (u : URL) :
  parse rawURL false = inr u -> Scheme u = "" ->
  HasPrefix rawURL "//" = false -> Host u = "".
Proof.
  unfold parse. destruct (stringContainsCTLByte rawURL); [discriminate|].
  rewrite andb_false_r.
  destruct (String.eqb rawURL "*"); [now intros [= <-]|].
  destruct (getScheme rawURL) as [e|[scheme rest]] eqn:GS; [discriminate|].
  set (q := if HasSuffix rest "?" && (CountByte rest "?" =? 1)
            then (set_ForceQuery true (set_Scheme (ToLower scheme) new_URL),
                  sliceTo rest (len rest - 1))
            else let '(rest0, query, _) := Cut rest "?" in
                 (set_RawQuery query (set_Scheme (ToLower scheme) new_URL), rest0)).
  assert (Q : Scheme q.1 = ToLower scheme /\ Host q.1 = ""
              /\ (HasPrefix q.2 "//" = true -> HasPrefix rest "//" = true)).
  { subst q. destruct (HasSuffix rest "?" && (CountByte rest "?" =? 1)).
    - repeat split. apply HasPrefix_sliceTo.
    - destruct (Cut rest "?") as [[a b] f] eqn:C. repeat split.
      exact (HasPrefix_Cut _ _ _ _ _ _ C). }
  destruct q as [url rest0]. simpl in Q. destruct Q as (QS & QH & QP).
  destruct (negb (HasPrefix rest0 "/") && negb (Scheme url =? "")%string).
  { intros [= <-]. intros _ _. exact QH. }
  rewrite andb_false_r.
  destruct (negb (HasPrefix rest0 "/") && _); [discriminate|].
  destruct ((negb (Scheme url =? "")%string || negb false && negb (HasPrefix rest0 "///"))
            && HasPrefix rest0 "//") eqn:W.
  - apply andb_true_iff in W as [_ W].
    destruct (if 0 <=? Index (sliceFrom rest0 2) "/" then _ else _) as [authority rest1].
    destruct (parseAuthority authority) as [e|[user host]]; [discriminate|].
    intros E S N. apply setPath_keeps in E as [ES _]. simpl in ES.
    rewrite ES, QS in S. apply ToLower_nil in S.
    rewrite (getScheme_from_schemeless rawURL rawURL "" scheme rest eq_refl GS S) in QP.
    rewrite (QP W) in N. discriminate.
  - destruct (negb (Scheme url =? "")%string && HasPrefix rest0 "/");
      intros E _ _; apply setPath_keeps in E as [_ EH]; now rewrite EH.
Qed.

(** X19. A target without scheme has no host for url.Parse, unless it
    starts with two slashes: what was written where the host would be is
    read as a path.  GetSitemap then asks [https:///robots.txt] and the
    fallback paths under [https://], whatever the target names. *)
Theorem schemeless_target_has_no_host
    (depth : nat) (targetURL : string) (u : URL) (s : Net) :
  Parse targetURL = inr u -> Scheme u = "" ->
  HasPrefix targetURL "//" = false ->
  Host u = "" /\ authority u = "https://"
  /\ GetSitemap depth targetURL s
     = aggregate depth
         (candidates "https://" (robotsOutcome (afterRobots "https://" s).1))
         (afterRobots "https://" s).2.
Proof.
  intros P S N.
  assert (Hh : Host u = "").
  { revert P. unfold Parse.
    destruct (Cut targetURL "#") as [[raw frag] found] eqn:C.
    assert (Nraw : HasPrefix raw "//" = false).
    { destruct (HasPrefix raw "//") eqn:R; [|reflexivity].
      now rewrite (HasPrefix_Cut _ _ _ _ _ _ C R) in N. }
    destruct (parse raw false) as [e|url] eqn:E; [discriminate|].
    destruct (String.eqb frag "").
    - intros [= ->]. exact (parse_schemeless raw u E S Nraw).
    - destruct (setFragment frag url) as [e|url'] eqn:F; [discriminate|].
      intros [= ->]. apply setFragment_keeps in F as [FS FH].
      rewrite FH. apply (parse_schemeless raw url E); [congruence|exact Nraw]. }
  assert (A : authority u = "https://").
  { unfold authority. now rewrite S, Hh. }
  split; [exact Hh|]. split; [exact A|].
  now rewrite (GetSitemap_step _ _ _ _ P), A.
Qed.

End Schemeless.

(** ** A site that declares its sitemaps *)
Section DeclaredLeaves.
Context `{Runtime}.

Lemma resolveEach_leaf_outcomes (depth : nat) (locs : list string)
      (ess : list (list SitemapURL)) :
  Forall2 ServesLeaf locs ess ->
  forall s, exists s' sent,
    resolveEach (processSitemap (S depth)) locs s
    = Some (zip_with (fun loc es => (map (set_SiteMapIndexURL loc) es, nil)) locs ess, s')
    /\ extends s s' sent /\ urlsOf sent = locs.
Proof.
  induction 1 as [|loc es locs ess HL _ IH]; intros s.
  - exists s, []. repeat split. unfold extends. now rewrite app_nil_r.
  - destruct (processSitemap_leaf_request loc es HL depth s) as (resp & w & E1).
    destruct (IH (mkNet w (requests s ++ [(loc, resp)]))) as (s' & sent & E2 & X & U).
    exists s', ((loc, resp) :: sent).
    cbn [resolveEach]. rewrite (bind_Some _ _ _ _ _ E1), (bind_Some _ _ _ _ _ E2).
    repeat split.
    + unfold extends in *. rewrite X. simpl. now rewrite <- app_assoc.
    + simpl. now rewrite U.
Qed.

Lemma kept_leaf_outcomes (locs : list string) (ess : list (list SitemapURL)) :
  length locs = length ess ->
  let os := zip_with (fun loc es => (map (set_SiteMapIndexURL loc) es, nil : option error))
                     locs ess in
  map fst (kept locs os) = withEntries locs ess
  /\ concat (map (fun co : string * Outcome => co.2.1) (kept locs os)) = tagged locs ess.
Proof.
  revert ess. induction locs as [|loc locs IH]; intros [|es ess] L; try discriminate.
  - split; reflexivity.
  - injection L as L. destruct (IH ess L) as [I1 I2]. cbv zeta in *.
    cbn [zip_with]. rewrite kept_cons. unfold tagged. cbn [zip_with concat withEntries].
    destruct es as [|e es].
    + simpl. split; [exact I1|exact I2].
    + simpl. split; [now rewrite I1|]. unfold tagged in I2. now rewrite I2.
Qed.

(** X20. When robots.txt declares sitemaps and each of them is a leaf
    document, GetSitemap asks for robots.txt and then once for each
    declared location, in the order declared, and for nothing else.  Its
    [urls] are the entries of the documents in that order, each tagged
    with the location of its document, and its [sitemap_urls] are the
    declared locations whose documents have entries, a location declared
    twice counting twice. *)
Theorem declared_leaves_are_merged
    (depth : nat) (targetURL : string) (u : net_url.URL) (s : Net)
    (body : string) (w' : World) (locs : list string) (ess : list (list SitemapURL)) :
  net_url.Parse targetURL = inr u ->
  http_Get (10 * time_Second) (authority u +:+ "/robots.txt") (world s)
    = (Reply http_StatusOK (inr body), w') ->
  valuesOf body = locs -> locs <> [] ->
  Forall2 ServesLeaf locs ess ->
  exists s' sent,
    GetSitemap (S depth) targetURL s
    = Some ((resultOf (tagged locs ess) (withEntries locs ess), nil), s')
    /\ extends s s' sent
    /\ urlsOf sent = (authority u +:+ "/robots.txt") :: locs.
Proof.
  intros P G V N HL.
  rewrite (GetSitemap_step _ _ _ _ P), aggregate_outcomes.
  assert (A : afterRobots (authority u) s
              = (Reply http_StatusOK (inr body),
                 mkNet w' (requests s ++ [(authority u +:+ "/robots.txt",
                                           Reply http_StatusOK (inr body))]))).
  { unfold afterRobots. now rewrite G. }
  rewrite A. cbn [fst snd]. unfold robotsOutcome. rewrite Z.eqb_refl, V.
  assert (C : candidates (authority u) (locs, None) = locs).
  { unfold candidates. destruct locs; [congruence|reflexivity]. }
  rewrite C.
  destruct (resolveEach_leaf_outcomes depth locs ess HL
              (mkNet w' (requests s ++ [(authority u +:+ "/robots.txt",
                                         Reply http_StatusOK (inr body))])))
    as (s' & sent & -> & X & U).
  destruct (kept_leaf_outcomes locs ess (Forall2_length _ _ _ HL)) as [K1 K2].
  cbv zeta in K1, K2. rewrite K1.
  replace (concat _) with (tagged locs ess) by (symmetry; exact K2).
  exists s', ((authority u +:+ "/robots.txt", Reply http_StatusOK (inr body)) :: sent).
  repeat split.
  - unfold extends in *. rewrite X. simpl. now rewrite <- app_assoc.
  - simpl. now rewrite U.
Qed.

End DeclaredLeaves.

(** ** The end of the 24 hours *)
Section Expiry.
Context `{Runtime}.

Lemma Get_None_DeleteExpired (t t' : Z) (k : string) (c : go_cache.Cache) :
  go_cache.Get t k c = None -> go_cache.Get t k (go_cache.DeleteExpired t' c) = None.
Proof.
  unfold go_cache.Get. intros G.
  destruct (go_cache.items (go_cache.DeleteExpired t' c) !! k) as [item|] eqn:L;
    [|reflexivity].
  simpl in L. apply map_lookup_filter_Some in L as [L _]. now rewrite L in G.
Qed.

Lemma Get_None_swept (t : Z) (k : string) (times : list Z) :
  forall c, go_cache.Get t k c = None -> go_cache.Get t k (swept times c) = None.
Proof.
  induction times as [|t' times IH]; intros c G; [exact G|].
  simpl. apply IH. now apply Get_None_DeleteExpired.
Qed.

(** X21. A stored result is not served after its 24 hours, whether the
    janitor has removed it by then or not: a request without refresh that
    arrives later runs GetSitemap again, and stores what it returns in
    place of the old entry. *)
Theorem entry_expires_after_24_hours
    (depth : nat) (url : string) (u : net_url.URL) (c0 : go_cache.Cache)
    (res : SitemapResult) (stored : Z) (times : list Z) (s : Net) :
  url <> "" ->
  net_url.Parse url = inr u ->
  go_cache.defaultExpiration c0 = 24 * time_Hour ->
  0 < stored + 24 * time_Hour ->
  stored + 24 * time_Hour < time_Now (world s) ->
  let c1 := go_cache.Set_ stored url res go_cache.DefaultExpiration c0 in
  let c2 := swept times c1 in
  go_cache.Get (time_Now (world s)) url c2 = None
  /\ handleGetSitemap depth (post url false) c2 s
     = match GetSitemap depth url s with
       | Some ((res', _), s') =>
           Some ((http_StatusOK, sitemap res',
                  go_cache.Set_ (time_Now (world s')) url res'
                                go_cache.DefaultExpiration c2), s')
       | None => None
       end.
Proof.
  intros Hurl P D Hpos Hlate c1 c2.
  assert (G : go_cache.Get (time_Now (world s)) url c2 = None).
  { apply Get_None_swept. unfold c1, go_cache.Get, go_cache.Set_. simpl.
    rewrite lookup_insert_eq, D. unfold go_cache.Expired. simpl.
    replace (0 <? stored + 24 * time_Hour) with true by (symmetry; apply Z.ltb_lt; lia).
    replace (stored + 24 * time_Hour <? time_Now (world s)) with true
      by (symmetry; apply Z.ltb_lt; lia).
    reflexivity. }
  split; [exact G|].
  rewrite (handleGetSitemap_post _ _ _ _ _ Hurl). cbv zeta. rewrite G.
  destruct (GetSitemap depth url s) as [[[res' err] s']|] eqn:E; [|reflexivity].
  now destruct (GetSitemap_accepted _ _ _ _ _ _ _ P E) as [-> _].
Qed.

End Expiry.

(** ** Runs of the server *)
Section ServerRuns.
Import Example Sites.

(** X7 on the robots.txt of [twoLevel] *)
Lemma robots_values_are_pieces_of_lines_witness :
  @getSitemapURLsFromRobots (staticWeb twoLevel) "https://a.example" (start twoLevel)
  = Some ((["https://a.example/root.xml"], nil),
          @mkNet (staticWeb twoLevel) latency
                 [("https://a.example/robots.txt",
                   Reply 200 (inr (Robots.unlines twoLevelRobots)))])
  /\ Robots.noNewline "https://a.example/root.xml"
  /\ exists body w',
      @http_Get (staticWeb twoLevel) (10 * time_Second) "https://a.example/robots.txt" 0
      = (Reply http_StatusOK (inr body), w')
      /\ Robots.within "https://a.example/root.xml" body.
Proof.
  split; [vm_compute; reflexivity|].
  apply (proj2 (@robots_values_are_pieces_of_lines (staticWeb twoLevel)
                  "https://a.example" (start twoLevel) _
                  ["https://a.example/root.xml"] nil
                  ltac:(vm_compute; reflexivity))
               "https://a.example/root.xml").
  now left.
Defined.

(** X8 on a spelling with capitals *)
Lemma robots_token_any_case_witness :
  go_strings.ToLower "SiteMap:" = "sitemap:"
  /\ valuesOf ("SiteMap:" +:+ "  https://a.example/s.xml ") = ["https://a.example/s.xml"].
Proof.
  split; [reflexivity|].
  rewrite (robots_token_any_case "SiteMap:" "  https://a.example/s.xml " eq_refl).
  - vm_compute. reflexivity.
  - unfold Robots.noNewline. vm_compute. repeat (constructor; [discriminate|]). constructor.
  - vm_compute. discriminate.
Defined.

(** X9 on a request with the credentials and one with another password *)
Lemma basicAuth_checks_credentials_witness :
  @basicAuth (staticWeb deadWeb) withCredentials (@handler (staticWeb deadWeb) 1)
             authorized sitemapCache_init (start deadWeb)
  = @handler (staticWeb deadWeb) 1 authorized sitemapCache_init (start deadWeb)
  /\ @basicAuth (staticWeb deadWeb) withCredentials (@handler (staticWeb deadWeb) 1)
                wrongPassword sitemapCache_init (start deadWeb)
     = Some ((unauthorized, sitemapCache_init), start deadWeb).
Proof.
  split.
  - apply (proj1 (@basicAuth_checks_credentials (staticWeb deadWeb) withCredentials
                    (@handler (staticWeb deadWeb) 1) authorized sitemapCache_init
                    (start deadWeb))).
    reflexivity.
  - apply (proj2 (@basicAuth_checks_credentials (staticWeb deadWeb) withCredentials
                    (@handler (staticWeb deadWeb) 1) wrongPassword sitemapCache_init
                    (start deadWeb))).
    discriminate.
Defined.

(** X10 on a server started with a user name and no password, and on one
    with both *)
Lemma registered_handler_witness :
  @registered (staticWeb deadWeb) withUsernameOnly 1 anonymous sitemapCache_init
              (start deadWeb)
  = @handler (staticWeb deadWeb) 1 anonymous sitemapCache_init (start deadWeb)
  /\ @registered (staticWeb deadWeb) withCredentials 1 anonymous sitemapCache_init
                 (start deadWeb)
     = Some ((unauthorized, sitemapCache_init), start deadWeb).
Proof.
  split.
  - apply (proj1 (@registered_handler (staticWeb deadWeb) withUsernameOnly 1 anonymous
                    sitemapCache_init (start deadWeb))).
    now right.
  - apply (proj2 (@registered_handler (staticWeb deadWeb) withCredentials 1 anonymous
                    sitemapCache_init (start deadWeb))); discriminate.
Defined.

(** X11 on a request with refresh for a URL that url.Parse rejects *)
Lemma handler_errors_leave_no_trace_witness :
  @handleGetSitemap (staticWeb deadWeb) 1 (post "%zz" true) otherSite (start deadWeb)
  = Some ((500, error_of (url_Error "parse" "%zz" (url_EscapeError "%zz")),
           go_cache.Delete "%zz" otherSite), start deadWeb)
  /\ start deadWeb = start deadWeb.
Proof.
  split; [reflexivity|].
  apply (proj1 (@handler_errors_leave_no_trace (staticWeb deadWeb) 1 (post "%zz" true)
                  otherSite _ (start deadWeb) _ _ _ eq_refl ltac:(discriminate))).
Defined.


(** X12 and X16 where nothing answers: the result that was stored *)
Lemma deadWeb_answer :
  @handleGetSitemap (staticWeb deadWeb) 1 (post target false) sitemapCache_init
                    (start deadWeb)
  = Some ((200, sitemap nothing,
           go_cache.Set_ (4 * latency) target nothing go_cache.DefaultExpiration
                         sitemapCache_init),
          @mkNet (staticWeb deadWeb) (4 * latency)
            [("https://a.example/robots.txt",
              GetError (errors_New "dial tcp: lookup: no such host"));
             ("https://a.example/sitemap.xml",
              GetError (errors_New "dial tcp: lookup: no such host"));
             ("https://a.example/sitemap_index.xml",
              GetError (errors_New "dial tcp: lookup: no such host"));
             ("https://a.example/sitemaps.xml",
              GetError (errors_New "dial tcp: lookup: no such host"))]).
Proof.
  rewrite (@handleGetSitemap_post (staticWeb deadWeb) 1 target false sitemapCache_init
             (start deadWeb)) by discriminate.
  reflexivity.
Qed.

(** X12 where nothing answers *)
Lemma handler_answer_is_cached_witness :
  exists req data,
    @Body (post target false) = inr req /\ URL req <> ""
    /\ sitemap nothing = sitemap data
    /\ go_cache.Get (4 * latency) (URL req)
         (go_cache.Set_ (4 * latency) target nothing go_cache.DefaultExpiration
                        sitemapCache_init)
       = Some data.
Proof.
  exact (@handler_answer_is_cached (staticWeb deadWeb) 1 (post target false)
           sitemapCache_init _ (start deadWeb) _ _ deadWeb_answer).
Defined.

(** X13 on a cache that has an entry for another site *)
Lemma handler_touches_one_key_witness :
  exists st msg c' s',
    @handleGetSitemap (staticWeb deadWeb) 1 (post target true) otherSite (start deadWeb)
    = Some ((st, msg, c'), s')
    /\ go_cache.defaultExpiration c' = go_cache.defaultExpiration otherSite
    /\ go_cache.items c' !! "https://b.example/"
       = go_cache.items otherSite !! "https://b.example/".
Proof.
  destruct (@handleGetSitemap (staticWeb deadWeb) 1 (post target true) otherSite
              (start deadWeb)) as [[[[st msg] c'] s']|] eqn:E.
  - exists st, msg, c', s'. split; [reflexivity|].
    destruct (@handler_touches_one_key (staticWeb deadWeb) 1 (post target true)
                otherSite c' (start deadWeb) s' st msg E) as [D F].
    split; [exact D|]. apply F. intros req [= <-]. discriminate.
  - exfalso.
    rewrite (@handleGetSitemap_post (staticWeb deadWeb) 1 target true otherSite
               (start deadWeb)) in E by discriminate.
    discriminate.
Defined.

(** X14 with a run of the janitor at the time of the request *)
Lemma janitor_is_invisible_witness :
  @observed (staticWeb deadWeb)
    (@handleGetSitemap (staticWeb deadWeb) 1 (post target false)
                       (swept [0] otherSite) (start deadWeb))
  = @observed (staticWeb deadWeb)
      (@handleGetSitemap (staticWeb deadWeb) 1 (post target false) otherSite
                         (start deadWeb)).
Proof.
  apply (@janitor_is_invisible (staticWeb deadWeb) 1 (post target false) otherSite
           (start deadWeb) [0]).
  constructor; [simpl; lia|constructor].
Defined.

(** X15 on the cache [main] makes *)
Lemma refresh_without_entry_witness :
  net_url.Parse target = inr targetParsed
  /\ @handleGetSitemap (staticWeb deadWeb) 1 (post target true) sitemapCache_init
                       (start deadWeb)
     = @handleGetSitemap (staticWeb deadWeb) 1 (post target false) sitemapCache_init
                         (start deadWeb).
Proof.
  split; [reflexivity|].
  apply (@refresh_without_entry (staticWeb deadWeb) 1 target targetParsed
           sitemapCache_init (start deadWeb)); [discriminate|reflexivity|reflexivity].
Defined.

(** X16 where nothing answers *)
Lemma served_results_are_well_formed_witness :
  @Reachable (staticWeb deadWeb) sitemapCache_init
  /\ nothing = resultOf (URLs nothing) (Sitemaps nothing)
  /\ (Error nothing = "No sitemap data found" <-> URLs nothing = []).
Proof.
  split; [exact (@reach_init (staticWeb deadWeb))|].
  exact (proj2 (@served_results_are_well_formed (staticWeb deadWeb) 1
                  (post target false) sitemapCache_init _ (start deadWeb) _ 200 nothing
                  (@reach_init (staticWeb deadWeb)) deadWeb_answer)).
Defined.

(** X17 on the cache after a request was served *)
Lemma malformed_url_always_500_witness :
  net_url.Parse "%zz" = inl (url_Error "parse" "%zz" (url_EscapeError "%zz"))
  /\ forall c s',
      @handleGetSitemap (staticWeb deadWeb) 1 (post target false) sitemapCache_init
                        (start deadWeb)
      = Some ((200, sitemap nothing, c), s') ->
      go_cache.items c !! "%zz" = None
      /\ @handleGetSitemap (staticWeb deadWeb) 1 (post "%zz" true) c s'
         = Some ((500, error_of (url_Error "parse" "%zz" (url_EscapeError "%zz")), c), s').
Proof.
  split; [reflexivity|]. intros c s' E.
  apply (@malformed_url_always_500 (staticWeb deadWeb) 1 "%zz" _ true c s');
    [|discriminate|reflexivity].
  exact (@reach_request (staticWeb deadWeb) 1%nat (post target false) sitemapCache_init
           (start deadWeb) _ c s' (@reach_init (staticWeb deadWeb)) E).
Defined.

(** X18 where nothing answers *)
Lemma failure_is_cached_witness :
  exists c1 s1,
    @handleGetSitemap (staticWeb deadWeb) 1 (post target false) sitemapCache_init
                      (start deadWeb)
    = Some ((200, sitemap nothing, c1), s1)
    /\ length (requests s1) = 4%nat
    /\ forall depth' s2,
        @time_Now (staticWeb deadWeb) (world s2)
          <= @time_Now (staticWeb deadWeb) (world s1) + 24 * time_Hour ->
        @handleGetSitemap (staticWeb deadWeb) depth' (post target false) c1 s2
        = Some ((200, sitemap nothing, c1), s2).
Proof.
  apply (@failure_is_cached (staticWeb deadWeb) 0 target targetParsed sitemapCache_init
           (start deadWeb) (@reach_init (staticWeb deadWeb)));
    [discriminate|reflexivity|reflexivity| |].
  - apply page_unreachable. exact I.
  - repeat (constructor; [apply page_unreachable; exact I|]). constructor.
Defined.

(** X19 on a host name given as target *)
Lemma schemeless_target_has_no_host_witness :
  net_url.Parse bareHost = inr bareHostParsed
  /\ net_url.Host bareHostParsed = ""
  /\ authority bareHostParsed = "https://"
  /\ @GetSitemap (staticWeb deadWeb) 1 bareHost (start deadWeb)
     = @aggregate (staticWeb deadWeb) 1
         (candidates "https://"
            (robotsOutcome (@afterRobots (staticWeb deadWeb) "https://" (start deadWeb)).1))
         (@afterRobots (staticWeb deadWeb) "https://" (start deadWeb)).2.
Proof.
  split; [reflexivity|].
  exact (@schemeless_target_has_no_host (staticWeb deadWeb) 1 bareHost bareHostParsed
           (start deadWeb) eq_refl eq_refl eq_refl).
Defined.

Lemma declaring_leaf :
  @ServesLeaf (staticWeb declaring) "https://a.example/leaf.xml" twiceEntries.
Proof.
  apply page_serves_leaf
    with (body := urlsetDoc ["https://a.example/1"; "https://a.example/2"]);
    [reflexivity|split; reflexivity].
Qed.

Lemma declaring_empty :
  @ServesLeaf (staticWeb declaring) "https://a.example/empty.xml" [].
Proof.
  apply page_serves_leaf with (body := urlsetDoc []);
    [reflexivity|split; reflexivity].
Qed.

(** X20 on [declaring] *)
Lemma declared_leaves_are_merged_witness :
  exists s' sent,
    @GetSitemap (staticWeb declaring) 1 target (start declaring)
    = Some ((mkSitemapResult
               [entry "https://a.example/leaf.xml" "https://a.example/1";
                entry "https://a.example/leaf.xml" "https://a.example/2";
                entry "https://a.example/leaf.xml" "https://a.example/1";
                entry "https://a.example/leaf.xml" "https://a.example/2"]
               ["https://a.example/leaf.xml"; "https://a.example/leaf.xml"] "",
             nil), s')
    /\ extends (start declaring) s' sent
    /\ urlsOf sent
       = ["https://a.example/robots.txt"; "https://a.example/leaf.xml";
          "https://a.example/empty.xml"; "https://a.example/leaf.xml"].
Proof.
  exact (@declared_leaves_are_merged (staticWeb declaring) 0 target targetParsed
           (start declaring) declaringRobots latency
           ["https://a.example/leaf.xml"; "https://a.example/empty.xml";
            "https://a.example/leaf.xml"]
           [twiceEntries; []; twiceEntries]
           eq_refl eq_refl ltac:(vm_compute; reflexivity) ltac:(discriminate)
           ltac:(repeat constructor;
                 [exact declaring_leaf|exact declaring_empty|exact declaring_leaf])).
Defined.

(** X21 on a result stored at time 0 and a request one nanosecond after
    the 24 hours *)
Lemma entry_expires_after_24_hours_witness :
  go_cache.Get (24 * time_Hour + 1) target
               (swept [24 * time_Hour]
                      (go_cache.Set_ 0 target nothing go_cache.DefaultExpiration
                                     sitemapCache_init))
  = None
  /\ exists c s',
      @handleGetSitemap (staticWeb deadWeb) 1 (post target false)
        (swept [24 * time_Hour]
               (go_cache.Set_ 0 target nothing go_cache.DefaultExpiration
                              sitemapCache_init))
        (@mkNet (staticWeb deadWeb) (24 * time_Hour + 1) [])
      = Some ((200, sitemap nothing, c), s')
      /\ length (requests s') = 4%nat.
Proof.
  destruct (@entry_expires_after_24_hours (staticWeb deadWeb) 1 target targetParsed
              sitemapCache_init nothing 0 [24 * time_Hour]
              (@mkNet (staticWeb deadWeb) (24 * time_Hour + 1) [])
              ltac:(discriminate) eq_refl eq_refl ltac:(reflexivity)
              ltac:(simpl; lia)) as [G E].
  split; [exact G|].
  rewrite E. eexists. eexists. split; reflexivity.
Defined.

End ServerRuns.
